(** * CHIP-8 interpreter core (src/cpu.cpp)

    A shallow embedding of [cpu::init], [cpu::executeCycle], [cpu::keyDown],
    [cpu::keyUp] and [cpu::timers], and the properties of the specification
    that concern them.

    Machine integers are [Z] with the wrap-around of their C++ type written
    out ([u8], [u16]).  The fixed-size arrays of the [cpu] object are lists;
    every array access goes through [load] or [store], which make the
    absence of a bounds check in the source visible: an index outside the
    array yields [Unchecked], the point where the C++ program has undefined
    behaviour. *)

From stdpp Require Import base numbers list strings.

Open Scope Z_scope.

(** ** Outcome of a member function *)

(** The arrays of the [cpu] object. *)
Inductive array : Set :=
  | ArrMemory | ArrV | ArrStack | ArrGfx | ArrKey | ArrPrevKeys.

(** [Ret a]: the code ran to its end with result [a].
    [Unchecked arr i]: the code indexed array [arr] at [i], which lies
    outside the array; the source has no check in front of the access, so
    the behaviour of the C++ program is undefined from there on. *)
Inductive outcome (A : Type) : Type :=
  | Ret (a : A)
  | Unchecked (arr : array) (idx : Z).

Arguments Ret {A} a.
Arguments Unchecked {A} arr idx.

#[global] Instance outcome_ret : MRet outcome := fun A a => Ret a.
#[global] Instance outcome_bind : MBind outcome := fun A B f m =>
  match m with
  | Ret a => f a
  | Unchecked arr i => Unchecked arr i
  end.

(** ** Machine integers *)

(** Conversion to [uint8_t] and to [uint16_t]. *)
Definition u8 (x : Z) : Z := x mod 256.
Definition u16 (x : Z) : Z := x mod 65536.

Definition is_u8 (x : Z) : Prop := 0 <= x < 256.
Definition is_u16 (x : Z) : Prop := 0 <= x < 65536.

(** ** Array accesses *)

(** [arr[i]] as an rvalue. *)
Definition load {A : Type} (arr : array) (l : list A) (i : Z) : outcome A :=
  if decide (0 <= i)
  then match l !! Z.to_nat i with
       | Some v => Ret v
       | None => Unchecked arr i
       end
  else Unchecked arr i.

(** [arr[i] = v]. *)
Definition store {A : Type} (arr : array) (l : list A) (i : Z) (v : A)
  : outcome (list A) :=
  if decide (0 <= i < Z.of_nat (length l))
  then Ret (<[Z.to_nat i := v]> l)
  else Unchecked arr i.

(** [for (int i = lo; i < lo + count; i++) body]. *)
Fixpoint for_loop {S : Type} (count : nat) (i : Z)
    (body : Z -> S -> outcome S) (s : S) : outcome S :=
  match count with
  | O => Ret s
  | Datatypes.S count' => s' ← body i s; for_loop count' (i + 1) body s'
  end.

(** ** The [cpu] object *)

(** Modelled from the spec: the declarations of cpu.h, which is not part of
    the sources at hand.  The data model of the specification gives:
    [memory], 4096 bytes; [V], sixteen 8-bit registers; [I] and [pc],
    16 bits; [stack], 16 return addresses of 16 bits, with the stack
    pointer [sp] taken as 16 bits as well; [gfx], 64 x 32 single-bit
    pixels; [key] and [prevKeys], 16 boolean slots; [delay_timer] and
    [sound_timer], 8 bits; the flags [breakIPF] ("pause"), [draw]
    ("redraw") and [running].

    Three more fields stand for the environment: [rand_out n] is what the
    [n]-th call of the C library's [rand()] returns, [rand_calls] counts
    the calls made so far, and [log] collects the lines given to
    [SDL_Log]. *)
Record cpu : Type := mkCpu {
  memory : list Z;
  V : list Z;
  I : Z;
  pc : Z;
  stack : list Z;
  sp : Z;
  gfx : list bool;
  key : list bool;
  prevKeys : list bool;
  delay_timer : Z;
  sound_timer : Z;
  opcode : Z;
  breakIPF : bool;
  draw : bool;
  running : bool;
  rand_out : nat -> Z;
  rand_calls : nat;
  log : list string
}.

(** Modelled from the spec: the extents of the arrays declared in cpu.h. *)
Definition MEMORY_SIZE : nat := 4096.
Definition STACK_SIZE : nat := 16.
Definition GFX_SIZE : nat := 64 * 32.
Definition NUM_KEYS : nat := 16.
Definition NUM_REGS : nat := 16.

(** Field updates. *)
Definition set_memory (x : list Z) (s : cpu) : cpu :=
  {| memory := x; V := V s; I := I s; pc := pc s; stack := stack s;
     sp := sp s; gfx := gfx s; key := key s; prevKeys := prevKeys s;
     delay_timer := delay_timer s; sound_timer := sound_timer s;
     opcode := opcode s; breakIPF := breakIPF s; draw := draw s;
     running := running s; rand_out := rand_out s;
     rand_calls := rand_calls s; log := log s |}.

Definition set_V (x : list Z) (s : cpu) : cpu :=
  {| memory := memory s; V := x; I := I s; pc := pc s; stack := stack s;
     sp := sp s; gfx := gfx s; key := key s; prevKeys := prevKeys s;
     delay_timer := delay_timer s; sound_timer := sound_timer s;
     opcode := opcode s; breakIPF := breakIPF s; draw := draw s;
     running := running s; rand_out := rand_out s;
     rand_calls := rand_calls s; log := log s |}.

Definition set_I (x : Z) (s : cpu) : cpu :=
  {| memory := memory s; V := V s; I := x; pc := pc s; stack := stack s;
     sp := sp s; gfx := gfx s; key := key s; prevKeys := prevKeys s;
     delay_timer := delay_timer s; sound_timer := sound_timer s;
     opcode := opcode s; breakIPF := breakIPF s; draw := draw s;
     running := running s; rand_out := rand_out s;
     rand_calls := rand_calls s; log := log s |}.

Definition set_pc (x : Z) (s : cpu) : cpu :=
  {| memory := memory s; V := V s; I := I s; pc := x; stack := stack s;
     sp := sp s; gfx := gfx s; key := key s; prevKeys := prevKeys s;
     delay_timer := delay_timer s; sound_timer := sound_timer s;
     opcode := opcode s; breakIPF := breakIPF s; draw := draw s;
     running := running s; rand_out := rand_out s;
     rand_calls := rand_calls s; log := log s |}.

Definition set_stack (x : list Z) (s : cpu) : cpu :=
  {| memory := memory s; V := V s; I := I s; pc := pc s; stack := x;
     sp := sp s; gfx := gfx s; key := key s; prevKeys := prevKeys s;
     delay_timer := delay_timer s; sound_timer := sound_timer s;
     opcode := opcode s; breakIPF := breakIPF s; draw := draw s;
     running := running s; rand_out := rand_out s;
     rand_calls := rand_calls s; log := log s |}.

Definition set_sp (x : Z) (s : cpu) : cpu :=
  {| memory := memory s; V := V s; I := I s; pc := pc s; stack := stack s;
     sp := x; gfx := gfx s; key := key s; prevKeys := prevKeys s;
     delay_timer := delay_timer s; sound_timer := sound_timer s;
     opcode := opcode s; breakIPF := breakIPF s; draw := draw s;
     running := running s; rand_out := rand_out s;
     rand_calls := rand_calls s; log := log s |}.

Definition set_gfx (x : list bool) (s : cpu) : cpu :=
  {| memory := memory s; V := V s; I := I s; pc := pc s; stack := stack s;
     sp := sp s; gfx := x; key := key s; prevKeys := prevKeys s;
     delay_timer := delay_timer s; sound_timer := sound_timer s;
     opcode := opcode s; breakIPF := breakIPF s; draw := draw s;
     running := running s; rand_out := rand_out s;
     rand_calls := rand_calls s; log := log s |}.

Definition set_key (x : list bool) (s : cpu) : cpu :=
  {| memory := memory s; V := V s; I := I s; pc := pc s; stack := stack s;
     sp := sp s; gfx := gfx s; key := x; prevKeys := prevKeys s;
     delay_timer := delay_timer s; sound_timer := sound_timer s;
     opcode := opcode s; breakIPF := breakIPF s; draw := draw s;
     running := running s; rand_out := rand_out s;
     rand_calls := rand_calls s; log := log s |}.

Definition set_prevKeys (x : list bool) (s : cpu) : cpu :=
  {| memory := memory s; V := V s; I := I s; pc := pc s; stack := stack s;
     sp := sp s; gfx := gfx s; key := key s; prevKeys := x;
     delay_timer := delay_timer s; sound_timer := sound_timer s;
     opcode := opcode s; breakIPF := breakIPF s; draw := draw s;
     running := running s; rand_out := rand_out s;
     rand_calls := rand_calls s; log := log s |}.

Definition set_delay_timer (x : Z) (s : cpu) : cpu :=
  {| memory := memory s; V := V s; I := I s; pc := pc s; stack := stack s;
     sp := sp s; gfx := gfx s; key := key s; prevKeys := prevKeys s;
     delay_timer := x; sound_timer := sound_timer s; opcode := opcode s;
     breakIPF := breakIPF s; draw := draw s; running := running s;
     rand_out := rand_out s; rand_calls := rand_calls s; log := log s |}.

Definition set_sound_timer (x : Z) (s : cpu) : cpu :=
  {| memory := memory s; V := V s; I := I s; pc := pc s; stack := stack s;
     sp := sp s; gfx := gfx s; key := key s; prevKeys := prevKeys s;
     delay_timer := delay_timer s; sound_timer := x; opcode := opcode s;
     breakIPF := breakIPF s; draw := draw s; running := running s;
     rand_out := rand_out s; rand_calls := rand_calls s; log := log s |}.

Definition set_opcode (x : Z) (s : cpu) : cpu :=
  {| memory := memory s; V := V s; I := I s; pc := pc s; stack := stack s;
     sp := sp s; gfx := gfx s; key := key s; prevKeys := prevKeys s;
     delay_timer := delay_timer s; sound_timer := sound_timer s;
     opcode := x; breakIPF := breakIPF s; draw := draw s;
     running := running s; rand_out := rand_out s;
     rand_calls := rand_calls s; log := log s |}.

Definition set_breakIPF (x : bool) (s : cpu) : cpu :=
  {| memory := memory s; V := V s; I := I s; pc := pc s; stack := stack s;
     sp := sp s; gfx := gfx s; key := key s; prevKeys := prevKeys s;
     delay_timer := delay_timer s; sound_timer := sound_timer s;
     opcode := opcode s; breakIPF := x; draw := draw s;
     running := running s; rand_out := rand_out s;
     rand_calls := rand_calls s; log := log s |}.

Definition set_draw (x : bool) (s : cpu) : cpu :=
  {| memory := memory s; V := V s; I := I s; pc := pc s; stack := stack s;
     sp := sp s; gfx := gfx s; key := key s; prevKeys := prevKeys s;
     delay_timer := delay_timer s; sound_timer := sound_timer s;
     opcode := opcode s; breakIPF := breakIPF s; draw := x;
     running := running s; rand_out := rand_out s;
     rand_calls := rand_calls s; log := log s |}.

Definition set_running (x : bool) (s : cpu) : cpu :=
  {| memory := memory s; V := V s; I := I s; pc := pc s; stack := stack s;
     sp := sp s; gfx := gfx s; key := key s; prevKeys := prevKeys s;
     delay_timer := delay_timer s; sound_timer := sound_timer s;
     opcode := opcode s; breakIPF := breakIPF s; draw := draw s;
     running := x; rand_out := rand_out s; rand_calls := rand_calls s;
     log := log s |}.

Definition set_rand_calls (x : nat) (s : cpu) : cpu :=
  {| memory := memory s; V := V s; I := I s; pc := pc s; stack := stack s;
     sp := sp s; gfx := gfx s; key := key s; prevKeys := prevKeys s;
     delay_timer := delay_timer s; sound_timer := sound_timer s;
     opcode := opcode s; breakIPF := breakIPF s; draw := draw s;
     running := running s; rand_out := rand_out s; rand_calls := x;
     log := log s |}.

Definition set_log (x : list string) (s : cpu) : cpu :=
  {| memory := memory s; V := V s; I := I s; pc := pc s; stack := stack s;
     sp := sp s; gfx := gfx s; key := key s; prevKeys := prevKeys s;
     delay_timer := delay_timer s; sound_timer := sound_timer s;
     opcode := opcode s; breakIPF := breakIPF s; draw := draw s;
     running := running s; rand_out := rand_out s;
     rand_calls := rand_calls s; log := x |}.
(** The state has the shape its C++ type gives it. *)
Record wf (s : cpu) : Prop := mkWf {
  wf_memory_len : length (memory s) = MEMORY_SIZE;
  wf_V_len : length (V s) = NUM_REGS;
  wf_stack_len : length (stack s) = STACK_SIZE;
  wf_gfx_len : length (gfx s) = GFX_SIZE;
  wf_key_len : length (key s) = NUM_KEYS;
  wf_prevKeys_len : length (prevKeys s) = NUM_KEYS;
  wf_memory : Forall is_u8 (memory s);
  wf_V : Forall is_u8 (V s);
  wf_stack : Forall is_u16 (stack s);
  wf_I : is_u16 (I s);
  wf_pc : is_u16 (pc s);
  wf_sp : is_u16 (sp s);
  wf_delay_timer : is_u8 (delay_timer s);
  wf_sound_timer : is_u8 (sound_timer s)
}.

(** ** cpu::init *)

Definition chip8_fontset : list Z :=
  [ 0xF0; 0x90; 0x90; 0x90; 0xF0;   (* 0 *)
    0x20; 0x60; 0x20; 0x20; 0x70;   (* 1 *)
    0xF0; 0x10; 0xF0; 0x80; 0xF0;   (* 2 *)
    0xF0; 0x10; 0xF0; 0x10; 0xF0;   (* 3 *)
    0x90; 0x90; 0xF0; 0x10; 0x10;   (* 4 *)
    0xF0; 0x80; 0xF0; 0x10; 0xF0;   (* 5 *)
    0xF0; 0x80; 0xF0; 0x90; 0xF0;   (* 6 *)
    0xF0; 0x10; 0x20; 0x40; 0x40;   (* 7 *)
    0xF0; 0x90; 0xF0; 0x90; 0xF0;   (* 8 *)
    0xF0; 0x90; 0xF0; 0x10; 0xF0;   (* 9 *)
    0xF0; 0x90; 0xF0; 0x90; 0x90;   (* A *)
    0xE0; 0x90; 0xE0; 0x90; 0xE0;   (* B *)
    0xF0; 0x80; 0x80; 0x80; 0xF0;   (* C *)
    0xE0; 0x90; 0x90; 0x90; 0xE0;   (* D *)
    0xF0; 0x80; 0xF0; 0x80; 0xF0;   (* E *)
    0xF0; 0x80; 0xF0; 0x80; 0x80 ]. (* F *)

(** [memory[i] = chip8_fontset[i]], the body of the loop of [init]. *)
Definition init_font (i : Z) (s : cpu) : outcome cpu :=
  b ← load ArrMemory chip8_fontset i;
  m ← store ArrMemory (memory s) i b;
  mret (set_memory m s).

Definition init (s : cpu) : outcome cpu :=
  let s := set_pc 0x200 s in
  let s := set_opcode 0x00 s in
  let s := set_I 0 s in
  let s := set_sp 0 s in
  let s := set_memory (replicate MEMORY_SIZE 0) s in
  let s := set_stack (replicate STACK_SIZE 0) s in
  let s := set_gfx (replicate GFX_SIZE false) s in
  let s := set_key (replicate NUM_KEYS false) s in
  let s := set_prevKeys (replicate NUM_KEYS false) s in
  s ← for_loop 80 0 init_font s;
  let s := set_breakIPF false s in
  let s := set_draw false s in
  let s := set_running true s in
  mret s.

(** ** cpu::executeCycle *)

(** The nibble macros. *)
Definition OP_X (opcode : Z) : Z := Z.shiftr (Z.land opcode 0x0F00) 8.
Definition OP_Y (opcode : Z) : Z := Z.shiftr (Z.land opcode 0x00F0) 4.
Definition OP_N (opcode : Z) : Z := Z.land opcode 0x000F.
Definition OP_NN (opcode : Z) : Z := Z.land opcode 0x00FF.
Definition OP_NNN (opcode : Z) : Z := Z.land opcode 0x0FFF.

(** [V[i]] and [V[i] = v]. *)
Definition rdV (s : cpu) (i : Z) : outcome Z := load ArrV (V s) i.
Definition wrV (i v : Z) (s : cpu) : outcome cpu :=
  l ← store ArrV (V s) i v; mret (set_V l s).

(** [opcode = memory[pc] << 8 | memory[pc + 1]].  Both bytes are promoted
    to [int], and so is [pc] in [pc + 1]: nothing wraps. *)
Definition fetch (s : cpu) : outcome Z :=
  hi ← load ArrMemory (memory s) (pc s);
  lo ← load ArrMemory (memory s) (pc s + 1);
  mret (Z.lor (Z.shiftl hi 8) lo).

(** 00E0: clear the screen. *)
Definition op_00E0 (s : cpu) : outcome cpu :=
  let s := set_gfx (replicate (64 * 32) false) s in
  mret (set_breakIPF true s).

(** 00EE: return from a subroutine. *)
Definition op_00EE (s : cpu) : outcome cpu :=
  let s := set_sp (u16 (sp s - 1)) s in
  a ← load ArrStack (stack s) (sp s);
  mret (set_pc a s).

(** 1NNN: jump. *)
Definition op_1NNN (s : cpu) : outcome cpu :=
  mret (set_pc (OP_NNN (opcode s)) s).

(** 2NNN: call a subroutine. *)
Definition op_2NNN (s : cpu) : outcome cpu :=
  st ← store ArrStack (stack s) (sp s) (pc s);
  let s := set_stack st s in
  let s := set_sp (u16 (sp s + 1)) s in
  mret (set_pc (OP_NNN (opcode s)) s).

(** [if (c) pc += 2;], the body of the skip instructions. *)
Definition skip_if (c : bool) (s : cpu) : cpu :=
  if c then set_pc (u16 (pc s + 2)) s else s.

(** 3XNN: skip if [V[X] == NN]. *)
Definition op_3XNN (s : cpu) : outcome cpu :=
  vx ← rdV s (OP_X (opcode s));
  mret (skip_if (bool_decide (vx = OP_NN (opcode s))) s).

(** 4XNN: skip if [V[X] != NN]. *)
Definition op_4XNN (s : cpu) : outcome cpu :=
  vx ← rdV s (OP_X (opcode s));
  mret (skip_if (bool_decide (vx ≠ OP_NN (opcode s))) s).

(** 5XY0: skip if [V[X] == V[Y]]. *)
Definition op_5XY0 (s : cpu) : outcome cpu :=
  vx ← rdV s (OP_X (opcode s));
  vy ← rdV s (OP_Y (opcode s));
  mret (skip_if (bool_decide (vx = vy)) s).

(** 6XNN: [V[X] = NN]. *)
Definition op_6XNN (s : cpu) : outcome cpu :=
  wrV (OP_X (opcode s)) (OP_NN (opcode s)) s.

(** 7XNN: [V[X] += NN]. *)
Definition op_7XNN (s : cpu) : outcome cpu :=
  vx ← rdV s (OP_X (opcode s));
  wrV (OP_X (opcode s)) (u8 (vx + OP_NN (opcode s))) s.

(** 8XY0: [V[X] = V[Y]]. *)
Definition op_8XY0 (s : cpu) : outcome cpu :=
  vy ← rdV s (OP_Y (opcode s));
  wrV (OP_X (opcode s)) vy s.

(** 8XY1, 8XY2, 8XY3: [V[X] op= V[Y]; V[0xF] = 0]. *)
Definition op_logic (f : Z -> Z -> Z) (s : cpu) : outcome cpu :=
  vx ← rdV s (OP_X (opcode s));
  vy ← rdV s (OP_Y (opcode s));
  s ← wrV (OP_X (opcode s)) (f vx vy) s;
  wrV 0xF 0 s.

(** 8XY4: add with carry flag. *)
Definition op_8XY4 (s : cpu) : outcome cpu :=
  vx ← rdV s (OP_X (opcode s));
  vy ← rdV s (OP_Y (opcode s));
  let x := vx + vy in
  s ← wrV (OP_X (opcode s)) (u8 (vx + vy)) s;
  wrV 0xF (if decide (x > 255) then 1 else 0) s.

(** 8XY5: [V[X] -= V[Y]]. *)
Definition op_8XY5 (s : cpu) : outcome cpu :=
  vx ← rdV s (OP_X (opcode s));
  vy ← rdV s (OP_Y (opcode s));
  let temp := if decide (vx >= vy) then 1 else 0 in
  s ← wrV (OP_X (opcode s)) (u8 (vx - vy)) s;
  wrV 0xF temp s.

(** 8XY6: [temp] is taken from [V[X]] before [V[Y]] is copied into it. *)
Definition op_8XY6 (s : cpu) : outcome cpu :=
  vx ← rdV s (OP_X (opcode s));
  let temp := Z.land vx 1 in
  vy ← rdV s (OP_Y (opcode s));
  s ← wrV (OP_X (opcode s)) vy s;
  vx ← rdV s (OP_X (opcode s));
  s ← wrV (OP_X (opcode s)) (u8 (Z.shiftr vx 1)) s;
  wrV 0xF temp s.

(** 8XY7: [V[X] = V[Y] - V[X]]. *)
Definition op_8XY7 (s : cpu) : outcome cpu :=
  vx ← rdV s (OP_X (opcode s));
  vy ← rdV s (OP_Y (opcode s));
  let temp := if decide (vx <= vy) then 1 else 0 in
  s ← wrV (OP_X (opcode s)) (u8 (vy - vx)) s;
  wrV 0xF temp s.

(** 8XYE: here [V[Y]] is copied first and [temp] is taken from the copy. *)
Definition op_8XYE (s : cpu) : outcome cpu :=
  vy ← rdV s (OP_Y (opcode s));
  s ← wrV (OP_X (opcode s)) vy s;
  vx ← rdV s (OP_X (opcode s));
  let temp := Z.land (Z.shiftr (Z.land vx 0x80) 7) 1 in
  s ← wrV (OP_X (opcode s)) (u8 (Z.shiftl vx 1)) s;
  wrV 0xF temp s.

(** 9XY0: skip if [V[X] != V[Y]]. *)
Definition op_9XY0 (s : cpu) : outcome cpu :=
  vx ← rdV s (OP_X (opcode s));
  vy ← rdV s (OP_Y (opcode s));
  mret (skip_if (bool_decide (vx ≠ vy)) s).

(** ANNN: [I = NNN]. *)
Definition op_ANNN (s : cpu) : outcome cpu :=
  mret (set_I (OP_NNN (opcode s)) s).

(** BNNN: [pc = NNN + V[0]]. *)
Definition op_BNNN (s : cpu) : outcome cpu :=
  v0 ← rdV s 0x0;
  mret (set_pc (u16 (OP_NNN (opcode s) + v0)) s).

(** CXNN: [V[X] = rand() % 256 & NN].  [rand()] is never negative, so the
    remainder of C is [mod]. *)
Definition op_CXNN (s : cpu) : outcome cpu :=
  let randNum := rand_out s (rand_calls s) mod 256 in
  let s := set_rand_calls (Datatypes.S (rand_calls s)) s in
  wrV (OP_X (opcode s)) (u8 (Z.land randNum (OP_NN (opcode s)))) s.

(** DXYN, the body of the loop over [bit]. *)
Definition draw_bit (x y height pixel : Z) (bit : Z) (s : cpu) : outcome cpu :=
  if decide (x + bit > 64) then mret s
  else if decide (Z.land pixel (Z.shiftr 0x80 bit) ≠ 0) then
    let drawX := u16 ((x + bit) mod 64) in
    let drawY := u16 ((y + height) mod 32) in
    let index := u16 (drawX + drawY * 64) in
    g ← load ArrGfx (gfx s) index;
    s ← (if g : bool then wrV 0xF 1 s else mret s);
    g ← load ArrGfx (gfx s) index;
    l ← store ArrGfx (gfx s) index (xorb g true);
    mret (set_gfx l s)
  else mret s.

(** DXYN, the body of the loop over [height]. *)
Definition draw_row (x y : Z) (height : Z) (s : cpu) : outcome cpu :=
  if decide (y + height > 32) then mret s
  else
    pixel ← load ArrMemory (memory s) (I s + height);
    for_loop 8 0 (draw_bit x y height pixel) s.

(** DXYN: draw a sprite ("CLIPPING : OFF").  [V[X]] and [V[Y]] are
    unsigned, so the remainder of C is [mod]. *)
Definition op_DXYN (s : cpu) : outcome cpu :=
  vx ← rdV s (OP_X (opcode s));
  vy ← rdV s (OP_Y (opcode s));
  let x := u16 (vx mod 64) in
  let y := u16 (vy mod 32) in
  let n := u16 (OP_N (opcode s)) in
  s ← wrV 0xF 0 s;
  s ← for_loop (Z.to_nat n) 0 (draw_row x y) s;
  let s := set_breakIPF true s in
  mret (set_draw true s).

(** EX9E: skip if the key in [V[X]] is pressed. *)
Definition op_EX9E (s : cpu) : outcome cpu :=
  vx ← rdV s (OP_X (opcode s));
  k ← load ArrKey (key s) vx;
  mret (skip_if k s : cpu).

(** EXA1: skip if the key in [V[X]] is not pressed. *)
Definition op_EXA1 (s : cpu) : outcome cpu :=
  vx ← rdV s (OP_X (opcode s));
  k ← load ArrKey (key s) vx;
  mret (skip_if (negb k) s).

(** FX0A, the loop over the keys: [count] iterations from [i] on.  The
    result is [keyReleased] with the state; [&&] reads [key[i]] only when
    [prevKeys[i] == 1], and the loop is left by [break] at the first
    released key. *)
Fixpoint key_scan (count : nat) (i : Z) (s : cpu) : outcome (bool * cpu) :=
  match count with
  | O => mret (false, s)
  | Datatypes.S count' =>
      p ← load ArrPrevKeys (prevKeys s) i;
      hit ← (if p : bool then k ← load ArrKey (key s) i; mret (negb k)
             else mret false);
      if hit : bool then
        s ← wrV (OP_X (opcode s)) i s;
        mret (true, set_breakIPF true s)
      else key_scan count' (i + 1) s
  end.

(** FX0A: wait for a key to be released. *)
Definition op_FX0A (s : cpu) : outcome cpu :=
  '(keyReleased, s) ← key_scan 16 0 s;
  if keyReleased : bool then mret s
  else mret (set_pc (u16 (pc s - 2)) s).

(** FX07: [V[X] = delay_timer]. *)
Definition op_FX07 (s : cpu) : outcome cpu :=
  wrV (OP_X (opcode s)) (delay_timer s) s.

(** FX15: [delay_timer = V[X]]. *)
Definition op_FX15 (s : cpu) : outcome cpu :=
  vx ← rdV s (OP_X (opcode s));
  mret (set_delay_timer vx s).

(** FX18: [sound_timer = V[X]]. *)
Definition op_FX18 (s : cpu) : outcome cpu :=
  vx ← rdV s (OP_X (opcode s));
  mret (set_sound_timer vx s).

(** FX1E: [I += V[X]]. *)
Definition op_FX1E (s : cpu) : outcome cpu :=
  vx ← rdV s (OP_X (opcode s));
  mret (set_I (u16 (I s + vx)) s).

(** FX29: [I = V[X] * 5]. *)
Definition op_FX29 (s : cpu) : outcome cpu :=
  vx ← rdV s (OP_X (opcode s));
  mret (set_I (u16 (vx * 0x5)) s).

(** FX33: binary-coded decimal of [V[X]].  [number] is not negative, so
    the division and the remainder of C are [/] and [mod]. *)
Definition op_FX33 (s : cpu) : outcome cpu :=
  number ← rdV s (OP_X (opcode s));
  let hundreds := number / 100 in
  let tens := (number / 10) mod 10 in
  let ones := number mod 10 in
  m ← store ArrMemory (memory s) (I s) (u8 hundreds);
  let s := set_memory m s in
  m ← store ArrMemory (memory s) (I s + 1) (u8 tens);
  let s := set_memory m s in
  m ← store ArrMemory (memory s) (I s + 2) (u8 ones);
  mret (set_memory m s).

(** FX55, the body of the loop: [memory[I] = V[i]; I++]. *)
Definition store_reg (i : Z) (s : cpu) : outcome cpu :=
  v ← rdV s i;
  m ← store ArrMemory (memory s) (I s) v;
  let s := set_memory m s in
  mret (set_I (u16 (I s + 1)) s).

(** FX55: store [V[0]] to [V[X]] at [I]. *)
Definition op_FX55 (s : cpu) : outcome cpu :=
  for_loop (Z.to_nat (OP_X (opcode s) + 1)) 0 store_reg s.

(** FX65, the body of the loop: [V[i] = memory[I]; I++]. *)
Definition load_reg (i : Z) (s : cpu) : outcome cpu :=
  b ← load ArrMemory (memory s) (I s);
  s ← wrV i b s;
  mret (set_I (u16 (I s + 1)) s).

(** FX65: load [V[0]] to [V[X]] from [I]. *)
Definition op_FX65 (s : cpu) : outcome cpu :=
  for_loop (Z.to_nat (OP_X (opcode s) + 1)) 0 load_reg s.

(** The [default] label of the outer switch. *)
Definition op_default (s : cpu) : outcome cpu :=
  let s := set_log (log s ++ ["ERROR: unrecognized opcode"%string]) s in
  mret (set_running false s).

(** Decode and execute: the two levels of [switch].  An inner switch has
    no [default] label, so a value without a [case] falls through it. *)
Definition execute (s : cpu) : outcome cpu :=
  match Z.land (opcode s) 0xF000 with
  | 0x0000 =>
      match Z.land (opcode s) 0x000F with
      | 0x0 => op_00E0 s
      | 0xE => op_00EE s
      | _ => mret s
      end
  | 0x1000 => op_1NNN s
  | 0x2000 => op_2NNN s
  | 0x3000 => op_3XNN s
  | 0x4000 => op_4XNN s
  | 0x5000 => op_5XY0 s
  | 0x6000 => op_6XNN s
  | 0x7000 => op_7XNN s
  | 0x8000 =>
      match Z.land (opcode s) 0x000F with
      | 0x0 => op_8XY0 s
      | 0x1 => op_logic Z.lor s
      | 0x2 => op_logic Z.land s
      | 0x3 => op_logic Z.lxor s
      | 0x4 => op_8XY4 s
      | 0x5 => op_8XY5 s
      | 0x6 => op_8XY6 s
      | 0x7 => op_8XY7 s
      | 0xE => op_8XYE s
      | _ => mret s
      end
  | 0x9000 => op_9XY0 s
  | 0xA000 => op_ANNN s
  | 0xB000 => op_BNNN s
  | 0xC000 => op_CXNN s
  | 0xD000 => op_DXYN s
  | 0xE000 =>
      match Z.land (opcode s) 0x00FF with
      | 0x9E => op_EX9E s
      | 0xA1 => op_EXA1 s
      | _ => mret s
      end
  | 0xF000 =>
      match Z.land (opcode s) 0x00FF with
      | 0x0A => op_FX0A s
      | 0x07 => op_FX07 s
      | 0x15 => op_FX15 s
      | 0x18 => op_FX18 s
      | 0x1E => op_FX1E s
      | 0x29 => op_FX29 s
      | 0x33 => op_FX33 s
      | 0x55 => op_FX55 s
      | 0x65 => op_FX65 s
      | _ => mret s
      end
  | _ => op_default s
  end.

(** The cycle around the read of the opcode [op]: [breakIPF] is reset, the
    opcode is kept and [pc] moves past it. *)
Definition advance (op : Z) (s : cpu) : cpu :=
  let s := set_breakIPF false s in
  let s := set_opcode op s in
  set_pc (u16 (pc s + 2)) s.

(** The cycle once the opcode [op] has been read. *)
Definition exec_op (op : Z) (s : cpu) : outcome cpu :=
  execute (advance op s).

Definition executeCycle (s : cpu) : outcome cpu :=
  op ← fetch s; exec_op op s.

(** ** cpu::keyDown, cpu::keyUp, cpu::timers *)

Definition keyDown (pressedKey : Z) (s : cpu) : outcome cpu :=
  l ← store ArrKey (key s) pressedKey true; mret (set_key l s).

Definition keyUp (pressedKey : Z) (s : cpu) : outcome cpu :=
  l ← store ArrKey (key s) pressedKey false; mret (set_key l s).

Definition timers (s : cpu) : bool * cpu :=
  let s := if decide (sound_timer s > 0)
           then set_sound_timer (u8 (sound_timer s - 1)) s else s in
  let s := if decide (delay_timer s > 0)
           then set_delay_timer (u8 (delay_timer s - 1)) s else s in
  (bool_decide (sound_timer s > 0), s).

(** ** Words used by the statements *)

(** The value of [V[i]]. *)
Definition reg (s : cpu) (i : Z) : Z := V s !!! Z.to_nat i.

(** The byte [memory[a]]. *)
Definition byte_at (s : cpu) (a : Z) : Z := memory s !!! Z.to_nat a.

(** The pixel in column [cx] of row [cy]. *)
Definition pixel_at (s : cpu) (cx cy : Z) : bool :=
  gfx s !!! Z.to_nat (cx + cy * 64).

(** [n] cycles in a row. *)
Fixpoint cycles (n : nat) (s : cpu) : outcome cpu :=
  match n with
  | O => mret s
  | Datatypes.S n' => s' ← executeCycle s; cycles n' s'
  end.

(** The opcodes [ops] executed one after the other; the result lists the
    state after each of them. *)
Fixpoint exec_trace (ops : list Z) (s : cpu) : outcome (list cpu) :=
  match ops with
  | [] => mret []
  | op :: ops' =>
      s' ← exec_op op s; tr ← exec_trace ops' s'; mret (s' :: tr)
  end.

(** Key [i] was pressed in the snapshot [prevKeys] and is released in the
    live matrix [key]: the condition FX0A waits for. *)
Definition released (s : cpu) (i : Z) : Prop :=
  0 <= i < 16 /\
  prevKeys s !! Z.to_nat i = Some true /\ key s !! Z.to_nat i = Some false.

#[global] Instance released_dec s i : Decision (released s i).
Proof. unfold released. apply _. Defined.

(** No key at all was released since the snapshot. *)
Definition none_released_b (s : cpu) : bool :=
  forallb (fun i => negb (bool_decide (released s i))) (seqZ 0 16).

(** The step stopped the machine: it returned with [running] cleared, which
    is how the source reports an error. *)
Definition halted (o : outcome cpu) : Prop :=
  exists s', o = Ret s' /\ running s' = false.

(** A boolean check of [wf]. *)
Definition wf_b (s : cpu) : bool :=
  bool_decide (length (memory s) = MEMORY_SIZE) &&
  bool_decide (length (V s) = NUM_REGS) &&
  bool_decide (length (stack s) = STACK_SIZE) &&
  bool_decide (length (gfx s) = GFX_SIZE) &&
  bool_decide (length (key s) = NUM_KEYS) &&
  bool_decide (length (prevKeys s) = NUM_KEYS) &&
  forallb (fun x => bool_decide (0 <= x < 256)) (memory s) &&
  forallb (fun x => bool_decide (0 <= x < 256)) (V s) &&
  forallb (fun x => bool_decide (0 <= x < 65536)) (stack s) &&
  bool_decide (0 <= I s < 65536) &&
  bool_decide (0 <= pc s < 65536) &&
  bool_decide (0 <= sp s < 65536) &&
  bool_decide (0 <= delay_timer s < 256) &&
  bool_decide (0 <= sound_timer s < 256).

(** ** Concrete machines *)

(** A [cpu] object whose members are all zero, before [init]. *)
Definition blank : cpu :=
  {| memory := replicate MEMORY_SIZE 0; V := replicate NUM_REGS 0; I := 0;
     pc := 0; stack := replicate STACK_SIZE 0; sp := 0;
     gfx := replicate GFX_SIZE false; key := replicate NUM_KEYS false;
     prevKeys := replicate NUM_KEYS false; delay_timer := 0;
     sound_timer := 0; opcode := 0; breakIPF := false; draw := false;
     running := false; rand_out := fun _ => 0; rand_calls := 0; log := [] |}.

(** The state of an outcome, [blank] for [Unchecked]. *)
Definition state_of (o : outcome cpu) : cpu :=
  match o with Ret s => s | Unchecked _ _ => blank end.

(** The machine after [init]. *)
Definition boot : cpu := state_of (init blank).

(** The bytes [rom] at address 0x200, where [loadRom] puts a file. *)
Definition with_rom (rom : list Z) (s : cpu) : cpu :=
  set_memory (take 0x200 (memory s) ++ rom
              ++ drop (0x200 + length rom) (memory s)) s.

(** ROM [80 08]: no instruction has this form. *)
Definition unknown_8008 : cpu := with_rom [0x80; 0x08] boot.

(** ROM [81 26] with V1 = 1 and V2 = 4. *)
Definition shift_8126 : cpu :=
  set_V (<[2%nat := 4]> (<[1%nat := 1]> (V boot)))
        (with_rom [0x81; 0x26] boot).

(** A machine that ran before: both timers are counting. *)
Definition used : cpu := set_delay_timer 60 (set_sound_timer 30 boot).

(** ROM [7F 01]: add 1 to VF. *)
Definition add_7F01 : cpu := with_rom [0x7F; 0x01] boot.

(** ROM [80 14] with V0 = 200 and V1 = 100. *)
Definition add_8014 : cpu :=
  set_V (<[1%nat := 100]> (<[0%nat := 200]> (V boot)))
        (with_rom [0x80; 0x14] boot).

(** ROM [E3 9E] with V3 = 7 and key 7 pressed. *)
Definition skip_E39E : cpu :=
  set_key (<[7%nat := true]> (key boot))
          (set_V (<[3%nat := 7]> (V boot)) (with_rom [0xE3; 0x9E] boot)).

(** ROM [E3 9E] with V3 = 200: no key has this number. *)
Definition skip_far : cpu :=
  set_V (<[3%nat := 200]> (V boot)) (with_rom [0xE3; 0x9E] boot).

(** ROM [F5 0A]: wait for a key, no key touched so far. *)
Definition wait_F50A : cpu := with_rom [0xF5; 0x0A] boot.

(** The same with keys 9 and 12 pressed at the last snapshot and released
    since. *)
Definition wait_released : cpu :=
  set_prevKeys (<[12%nat := true]> (<[9%nat := true]> (prevKeys boot)))
               wait_F50A.

(** ROM [F3 55 F3 65] with V0..V3 = 11, 22, 33, 44 and I = 0x300. *)
Definition save_F355 : cpu :=
  set_I 0x300
    (set_V ([11; 22; 33; 44] ++ drop 4 (V boot))
           (with_rom [0xF3; 0x55; 0xF3; 0x65] boot)).

(** The machine after the store of [save_F355], with the registers wiped
    and [I] put back to 0x300. *)
Definition restore_F365 : cpu :=
  set_I 0x300
    (set_V (replicate NUM_REGS 0) (state_of (executeCycle save_F355))).

(** ROM [AF FF F1 55] with V0 = 11 and V1 = 22: I is set to 0xFFF, then V0
    and V1 are stored from there. *)
Definition store_at_end_rom : cpu :=
  set_V ([11; 22] ++ drop 2 (V boot))
        (with_rom [0xAF; 0xFF; 0xF1; 0x55] boot).

(** The machine after the first of the two instructions, at F155 with
    I = 0xFFF. *)
Definition store_at_end : cpu := state_of (executeCycle store_at_end_rom).

(** The addresses pushed by the calls [calls], executed one at the target
    of the other from a machine whose [pc] is [p]: each is the address
    behind its call instruction. *)
Fixpoint return_addresses (p : Z) (calls : list Z) : list Z :=
  match calls with
  | [] => []
  | op :: calls' => u16 (p + 2) :: return_addresses (OP_NNN op) calls'
  end.

(** The last state of a trace that starts from [s]. *)
Definition last_state (s : cpu) (tr : list cpu) : cpu := List.last tr s.

(** The part of [stack] in use. *)
Definition live_stack (s : cpu) : list Z := take (Z.to_nat (sp s)) (stack s).

(** Sixteen calls, each to the instruction 4 bytes on, with a return behind
    each call and at the last target; then one more call. *)
Definition nested_calls : list Z :=
  [0x2204; 0x2208; 0x220C; 0x2210; 0x2214; 0x2218; 0x221C; 0x2220;
   0x2224; 0x2228; 0x222C; 0x2230; 0x2234; 0x2238; 0x223C; 0x2240].

Definition nested_rom : list Z :=
  flat_map (fun op => [op / 256; op mod 256; 0x00; 0xEE]) nested_calls
  ++ [0x00; 0xEE].

(** ROM of 17 calls, each to the next instruction. *)
Definition deep_rom : list Z :=
  flat_map (fun i => [0x22; 2 * i + 2]) (seqZ 0 17).

(** ROM [00 EE]: a return as the first instruction. *)
Definition return_first : cpu := with_rom [0x00; 0xEE] boot.

(** [s'] is [s] with the pixels of [T] flipped and the others kept. *)
Definition toggled (T : nat -> Prop) (s s' : cpu) : Prop :=
  forall p, (p < GFX_SIZE)%nat ->
    (T p -> gfx s' !!! p = negb (gfx s !!! p)) /\
    (~ T p -> gfx s' !!! p = gfx s !!! p).

(** What a draw started in [s0] keeps all along: the sprite data, [I],
    the extents of [gfx] and [V], and the error flag and log. *)
Definition draw_frame (s0 s : cpu) : Prop :=
  memory s = memory s0 /\ I s = I s0 /\
  length (gfx s) = GFX_SIZE /\ length (V s) = NUM_REGS /\
  running s = running s0 /\ log s = log s0 /\ pc s = pc s0.

(** Bit [bit] of the sprite row [pixel], drawn from column [x] in the row
    [height] of a sprite at row [y], flips the pixel number [p]. *)
Definition bit_hits (x y height pixel bit : Z) (p : nat) : Prop :=
  x + bit <= 64 /\ Z.land pixel (Z.shiftr 0x80 bit) <> 0 /\
  Z.of_nat p = (x + bit) mod 64 + (y + height) mod 32 * 64.

(** Row [height] of the sprite at [I] of [s0] flips the pixel number [p]. *)
Definition row_hits (s0 : cpu) (x y height : Z) (p : nat) : Prop :=
  y + height <= 32 /\
  exists bit, 0 <= bit < 8 /\
    bit_hits x y height (byte_at s0 (I s0 + height)) bit p.

(** ROM [D0 12] with V0 = 61, V1 = 31 and I = 0: the glyph rows F0 and 90
    drawn from column 61 of the last row. *)
Definition draw_D012 : cpu :=
  set_V (<[1%nat := 31]> (<[0%nat := 61]> (V boot)))
        (with_rom [0xD0; 0x12] boot).

(** ROM [F0 33] with I = 0xFFF: the tens and ones would go beyond the
    memory. *)
Definition bcd_at_end : cpu := set_I 0xFFF (with_rom [0xF0; 0x33] boot).

(** ROM [F0 33] with V0 = 254 and I = 0x300. *)
Definition bcd_F033 : cpu :=
  set_I 0x300 (set_V (<[0%nat := 254]> (V boot)) (with_rom [0xF0; 0x33] boot)).

(** ** The rest of the interface, and words of the further properties *)

(** What no instruction writes: the error flag, the log, the two key
    matrices and the source of random numbers. *)
Definition untouched (s s' : cpu) : Prop :=
  running s' = running s /\ log s' = log s /\
  key s' = key s /\ prevKeys s' = prevKeys s /\ rand_out s' = rand_out s.

(** The parts of the machine that only single instructions write: the
    stack with its pointer, and the two timers. *)
Definition rest_kept (s s' : cpu) : Prop :=
  stack s' = stack s /\ sp s' = sp s /\
  delay_timer s' = delay_timer s /\ sound_timer s' = sound_timer s.

(** What the loops of DXYN keep. *)
Definition draw_keeps (s s' : cpu) : Prop :=
  memory s' = memory s /\ I s' = I s /\ pc s' = pc s /\
  draw s' = draw s /\ rest_kept s s'.

(** What the loop of FX55 keeps. *)
Definition store_keeps (s s' : cpu) : Prop :=
  V s' = V s /\ gfx s' = gfx s /\ pc s' = pc s /\
  draw s' = draw s /\ rest_kept s s'.

(** What the loops of FX65 and FX0A keep. *)
Definition load_keeps (s s' : cpu) : Prop :=
  memory s' = memory s /\ gfx s' = gfx s /\ pc s' = pc s /\
  draw s' = draw s /\ rest_kept s s'.

(** The state after a fetch of [op] with [pc] set to [p]. *)
Definition fetched (op p : Z) (s : cpu) : cpu :=
  set_pc p (set_opcode op (set_breakIPF false s)).

(** [n] calls of [timers]. *)
Fixpoint ticks (n : nat) (s : cpu) : cpu :=
  match n with
  | O => s
  | S n' => ticks n' (snd (timers s))
  end.

(** How [loadRom] ends: with its result and the machine, or in
    [fclose(NULL)], which C leaves undefined. *)
Inductive rom_outcome : Type :=
  | RomRet (ok : bool) (s : cpu)
  | RomFcloseNull (s : cpu).

(** [SDL_Log(line)]. *)
Definition SDL_Log (line : string) (s : cpu) : cpu :=
  set_log (log s ++ [line]) s.

(** [cpu::loadRom].  [file] is what [fopen] finds at the path: nothing, or
    a file with these bytes, which [fread] then delivers in full.
    [sizeof(memory)] is the extent of [memory].  [fread] is asked for one
    item of [romSize] bytes and answers with the number of items read,
    which is 0 for an item of no bytes. *)
Definition loadRom (file : option (list Z)) (s : cpu) : rom_outcome :=
  match file with
  | None =>
      let s := SDL_Log "ERROR: incorrect file path" s in
      RomFcloseNull s
  | Some rom =>
      let romSize := Z.of_nat (length rom) in
      let maxSize := Z.of_nat (length (memory s)) - 0x200 in
      if decide (romSize > maxSize) then
        RomRet false (SDL_Log "ERROR: Rom size is too big" s)
      else
        let items := if decide (romSize = 0) then 0 else 1 in
        let s := if decide (romSize = 0) then s else with_rom rom s in
        if decide (items <> 1) then
          RomRet false (SDL_Log "ERROR: loading rom into memory" s)
        else RomRet true s
  end.

(** One of the pixels of [T] is lit in [s]. *)
Definition collides (T : nat -> Prop) (s : cpu) : Prop :=
  exists p, (p < GFX_SIZE)%nat /\ T p /\ gfx s !!! p = true.

(** VF after flipping the pixels of [T]: 1 when one of them was lit (or VF
    was 1 already), and as before when none was. *)
Definition flagged (T : nat -> Prop) (s s' : cpu) : Prop :=
  (reg s' 0xF = 1 /\ (reg s 0xF = 1 \/ collides T s)) \/
  (reg s' 0xF = reg s 0xF /\ ~ collides T s).

(** The draw of opcode [op] in state [s] flips the pixel in column [cx] of
    row [cy]: a set sprite bit with [y + row <= 32] and [x + bit <= 64]
    lands there. *)
Definition sprite_pixel (s : cpu) (op : Z) (cx cy : Z) : Prop :=
  let x := reg s (OP_X op) mod 64 in
  let y := reg s (OP_Y op) mod 32 in
  exists row bit,
    0 <= row < OP_N op /\ 0 <= bit < 8 /\
    y + row <= 32 /\ x + bit <= 64 /\
    Z.land (byte_at s (I s + row)) (Z.shiftr 0x80 bit) <> 0 /\
    cx = (x + bit) mod 64 /\ cy = (y + row) mod 32.

(** The machine [s] with [rand()] giving [x n] at its call number [n]. *)
Definition set_rand_out (x : nat -> Z) (s : cpu) : cpu :=
  {| memory := memory s; V := V s; I := I s; pc := pc s; stack := stack s;
     sp := sp s; gfx := gfx s; key := key s; prevKeys := prevKeys s;
     delay_timer := delay_timer s; sound_timer := sound_timer s;
     opcode := opcode s; breakIPF := breakIPF s; draw := draw s;
     running := running s; rand_out := x;
     rand_calls := rand_calls s; log := log s |}.

(** ROM [BF FF] with V0 = 1: a jump to 0x1000. *)
Definition jump_BFFF : cpu :=
  set_V (<[0%nat := 1]> (V boot)) (with_rom [0xBF; 0xFF] boot).

(** ROM [81 2E] with V2 = 0x81. *)
Definition shl_812E : cpu :=
  set_V (<[2%nat := 0x81]> (V boot)) (with_rom [0x81; 0x2E] boot).

(** ROM [81 21] with V1 = 0x0F and V2 = 0xF0. *)
Definition or_8121 : cpu :=
  set_V (<[2%nat := 0xF0]> (<[1%nat := 0x0F]> (V boot)))
        (with_rom [0x81; 0x21] boot).

(** ROM [C3 0F] on a machine whose [rand()] gives 0x1234 + n. *)
Definition rnd_C30F : cpu :=
  set_rand_out (fun n => 0x1234 + Z.of_nat n) (with_rom [0xC3; 0x0F] boot).

(** ROM [F0 29] with V0 = 0xA. *)
Definition font_F029 : cpu :=
  set_V (<[0%nat := 0xA]> (V boot)) (with_rom [0xF0; 0x29] boot).

(** ROM [F1 15 F2 07] with V1 = 10. *)
Definition delay_F115 : cpu :=
  set_V (<[1%nat := 10]> (V boot)) (with_rom [0xF1; 0x15; 0xF2; 0x07] boot).

(** ROM [30 00]: V0 is 0, so the skip is taken. *)
Definition skip_3000 : cpu := with_rom [0x30; 0x00] boot.

(** ROM [A1 23]. *)
Definition index_A123 : cpu := with_rom [0xA1; 0x23] boot.

(** ROM [02 30]: family 0 with a low nibble of 0. *)
Definition clear_0230 : cpu := with_rom [0x02; 0x30] boot.

(** The machine after the draw of [draw_D012], put back on the draw
    instruction. *)
Definition draw_again : cpu :=
  set_pc 0x200 (state_of (executeCycle draw_D012)).

(** ROM [F5 0A] with key 12 held down since the last snapshot. *)
Definition wait_held : cpu :=
  set_key (<[12%nat := true]> (key boot))
          (set_prevKeys (<[12%nat := true]> (prevKeys boot)) wait_F50A).

(** ROM [F5 0A F6 0A] with key 9 pressed at the last snapshot and released
    since. *)
Definition wait_twice : cpu :=
  set_prevKeys (<[9%nat := true]> (prevKeys boot))
               (with_rom [0xF5; 0x0A; 0xF6; 0x0A] boot).

(** * Properties *)

(** ** Arrays and the outcome monad *)

Lemma bind_Ret {A B : Type} (f : A -> outcome B) (a : A) :
  Ret a ≫= f = f a.
Proof. reflexivity. Qed.

Lemma bind_Unchecked {A B : Type} (f : A -> outcome B) arr i :
  Unchecked arr i ≫= f = Unchecked arr i.
Proof. reflexivity. Qed.

Lemma bind_inv {A B : Type} (f : A -> outcome B) (m : outcome A) (b : B) :
  m ≫= f = Ret b -> exists a, m = Ret a /\ f a = Ret b.
Proof. destruct m as [a|arr i]; [eauto | discriminate]. Qed.

Lemma load_Ret {A : Type} `{Inhabited A} arr (l : list A) (i : Z) :
  0 <= i < Z.of_nat (length l) -> load arr l i = Ret (l !!! Z.to_nat i).
Proof.
  intros Hi. unfold load. rewrite decide_True by lia.
  rewrite list_lookup_lookup_total_lt by lia. reflexivity.
Qed.

Lemma load_Unchecked {A : Type} arr (l : list A) (i : Z) :
  ~ 0 <= i < Z.of_nat (length l) -> load arr l i = Unchecked arr i.
Proof.
  intros Hi. unfold load. destruct (decide (0 <= i)); [|reflexivity].
  rewrite (proj2 (lookup_ge_None l (Z.to_nat i))) by lia. reflexivity.
Qed.

Lemma load_inv {A : Type} arr (l : list A) (i : Z) (v : A) :
  load arr l i = Ret v ->
  0 <= i < Z.of_nat (length l) /\ l !! Z.to_nat i = Some v.
Proof.
  unfold load. destruct (decide (0 <= i)); [|discriminate].
  destruct (l !! Z.to_nat i) eqn:E; [|discriminate].
  intros [= <-]. pose proof (lookup_lt_Some _ _ _ E). split; [lia | reflexivity].
Qed.

Lemma store_Ret {A : Type} arr (l : list A) (i : Z) (v : A) :
  0 <= i < Z.of_nat (length l) ->
  store arr l i v = Ret (<[Z.to_nat i := v]> l).
Proof. intros Hi. unfold store. rewrite decide_True by lia. reflexivity. Qed.

Lemma store_Unchecked {A : Type} arr (l : list A) (i : Z) (v : A) :
  ~ 0 <= i < Z.of_nat (length l) -> store arr l i v = Unchecked arr i.
Proof. intros Hi. unfold store. rewrite decide_False by lia. reflexivity. Qed.

Lemma store_inv {A : Type} arr (l l' : list A) (i : Z) (v : A) :
  store arr l i v = Ret l' ->
  0 <= i < Z.of_nat (length l) /\ l' = <[Z.to_nat i := v]> l.
Proof.
  unfold store. destruct (decide _); [|discriminate].
  intros [= <-]. split; [assumption | reflexivity].
Qed.

Lemma for_loop_S {S : Type} n i body (s : S) :
  for_loop (Datatypes.S n) i body s
  = body i s ≫= for_loop n (i + 1) body.
Proof. reflexivity. Qed.

(** An invariant of the body is an invariant of the loop. *)
Lemma for_loop_inv {S : Type} (P : S -> Prop) body :
  (forall i s s', P s -> body i s = Ret s' -> P s') ->
  forall n i (s s' : S), P s -> for_loop n i body s = Ret s' -> P s'.
Proof.
  intros Hbody. induction n as [|n IH]; intros i s s' HP; simpl.
  - intros [= <-]. assumption.
  - intros Hloop. apply bind_inv in Hloop as (s1 & Hb & Hloop). eauto.
Qed.

(** ** Machine integers *)

Arguments u8 : simpl never.
Arguments u16 : simpl never.

Lemma u8_is_u8 x : is_u8 (u8 x).
Proof. unfold is_u8, u8. apply Z.mod_pos_bound. lia. Qed.

Lemma u16_is_u16 x : is_u16 (u16 x).
Proof. unfold is_u16, u16. apply Z.mod_pos_bound. lia. Qed.

Lemma u8_id x : is_u8 x -> u8 x = x.
Proof. unfold is_u8, u8. intros. apply Z.mod_small. assumption. Qed.

Lemma u16_id x : is_u16 x -> u16 x = x.
Proof. unfold is_u16, u16. intros. apply Z.mod_small. assumption. Qed.

(** A mask that is a run of [k] ones from bit [n] on selects a digit. *)
Lemma land_field a n k :
  0 <= n -> 0 <= k ->
  Z.land a (Z.shiftl (Z.ones k) n) = 2 ^ n * ((a / 2 ^ n) mod 2 ^ k).
Proof.
  intros Hn Hk.
  rewrite <- Z.land_ones, <- Z.shiftr_div_pow2, Z.mul_comm, <- Z.shiftl_mul_pow2
    by assumption.
  apply Z.bits_inj'. intros j Hj.
  rewrite Z.land_spec.
  destruct (decide (j < n)) as [Hlt|Hge].
  - rewrite !Z.shiftl_spec_low by assumption. apply andb_false_r.
  - rewrite !Z.shiftl_spec by assumption.
    rewrite Z.land_spec, Z.shiftr_spec by lia.
    replace (j - n + n) with j by lia. reflexivity.
Qed.

Lemma land_0xF000 a : Z.land a 0xF000 = 4096 * ((a / 4096) mod 16).
Proof. apply (land_field a 12 4); lia. Qed.

Lemma land_0x0F00 a : Z.land a 0x0F00 = 256 * ((a / 256) mod 16).
Proof. apply (land_field a 8 4); lia. Qed.

Lemma land_0x00F0 a : Z.land a 0x00F0 = 16 * ((a / 16) mod 16).
Proof. apply (land_field a 4 4); lia. Qed.

Lemma land_0x000F a : Z.land a 0x000F = a mod 16.
Proof. apply (Z.land_ones a 4). lia. Qed.

Lemma land_0x00FF a : Z.land a 0x00FF = a mod 256.
Proof. apply (Z.land_ones a 8). lia. Qed.

Lemma land_0x0FFF a : Z.land a 0x0FFF = a mod 4096.
Proof. apply (Z.land_ones a 12). lia. Qed.

Lemma OP_X_eq op : OP_X op = (op / 256) mod 16.
Proof.
  unfold OP_X. rewrite land_0x0F00, Z.shiftr_div_pow2 by lia.
  change (2 ^ 8) with 256. rewrite Z.mul_comm, Z.div_mul by lia. reflexivity.
Qed.

Lemma OP_Y_eq op : OP_Y op = (op / 16) mod 16.
Proof.
  unfold OP_Y. rewrite land_0x00F0, Z.shiftr_div_pow2 by lia.
  change (2 ^ 4) with 16. rewrite Z.mul_comm, Z.div_mul by lia. reflexivity.
Qed.

Lemma OP_X_range op : 0 <= OP_X op < 16.
Proof. rewrite OP_X_eq. apply Z.mod_pos_bound. lia. Qed.

Lemma OP_Y_range op : 0 <= OP_Y op < 16.
Proof. rewrite OP_Y_eq. apply Z.mod_pos_bound. lia. Qed.

Lemma OP_N_range op : 0 <= OP_N op < 16.
Proof. unfold OP_N. rewrite land_0x000F. apply Z.mod_pos_bound. lia. Qed.

Lemma OP_NN_range op : 0 <= OP_NN op < 256.
Proof. unfold OP_NN. rewrite land_0x00FF. apply Z.mod_pos_bound. lia. Qed.

Lemma OP_NNN_range op : 0 <= OP_NNN op < 4096.
Proof. unfold OP_NNN. rewrite land_0x0FFF. apply Z.mod_pos_bound. lia. Qed.

(** ** Well-formed states *)

Lemma wf_b_sound s : wf_b s = true -> wf s.
Proof.
  unfold wf_b. rewrite !andb_true_iff, !bool_decide_eq_true.
  intros [[[[[[[[[[[[[? ?] ?] ?] ?] ?] Hm] Hv] Hs] ?] ?] ?] ?] ?].
  constructor; try assumption.
  - apply Forall_forall. intros x Hx. apply list_elem_of_In in Hx.
    rewrite forallb_forall in Hm. apply Hm in Hx.
    apply bool_decide_eq_true in Hx. exact Hx.
  - apply Forall_forall. intros x Hx. apply list_elem_of_In in Hx.
    rewrite forallb_forall in Hv. apply Hv in Hx.
    apply bool_decide_eq_true in Hx. exact Hx.
  - apply Forall_forall. intros x Hx. apply list_elem_of_In in Hx.
    rewrite forallb_forall in Hs. apply Hs in Hx.
    apply bool_decide_eq_true in Hx. exact Hx.
Qed.

Ltac wf_fields :=
  match goal with
  | H : wf _ |- _ => destruct H
  end; constructor; simpl in *; auto.

Lemma wf_set_pc x s : is_u16 x -> wf s -> wf (set_pc x s).
Proof. intros ? ?. wf_fields. Qed.

Lemma wf_set_I x s : is_u16 x -> wf s -> wf (set_I x s).
Proof. intros ? ?. wf_fields. Qed.

Lemma wf_set_sp x s : is_u16 x -> wf s -> wf (set_sp x s).
Proof. intros ? ?. wf_fields. Qed.

Lemma wf_set_opcode x s : wf s -> wf (set_opcode x s).
Proof. intros ?. wf_fields. Qed.

Lemma wf_set_breakIPF x s : wf s -> wf (set_breakIPF x s).
Proof. intros ?. wf_fields. Qed.

Lemma wf_set_draw x s : wf s -> wf (set_draw x s).
Proof. intros ?. wf_fields. Qed.

Lemma wf_set_running x s : wf s -> wf (set_running x s).
Proof. intros ?. wf_fields. Qed.

Lemma wf_set_log x s : wf s -> wf (set_log x s).
Proof. intros ?. wf_fields. Qed.

Lemma wf_set_rand_calls x s : wf s -> wf (set_rand_calls x s).
Proof. intros ?. wf_fields. Qed.

Lemma wf_set_delay_timer x s : is_u8 x -> wf s -> wf (set_delay_timer x s).
Proof. intros ? ?. wf_fields. Qed.

Lemma wf_set_sound_timer x s : is_u8 x -> wf s -> wf (set_sound_timer x s).
Proof. intros ? ?. wf_fields. Qed.

Lemma wf_set_V i v s :
  is_u8 v -> wf s -> wf (set_V (<[i := v]> (V s)) s).
Proof.
  intros ? ?. wf_fields.
  - rewrite length_insert. assumption.
  - apply Forall_insert; assumption.
Qed.

Lemma wf_set_memory i v s :
  is_u8 v -> wf s -> wf (set_memory (<[i := v]> (memory s)) s).
Proof.
  intros ? ?. wf_fields.
  - rewrite length_insert. assumption.
  - apply Forall_insert; assumption.
Qed.

Lemma wf_set_stack i v s :
  is_u16 v -> wf s -> wf (set_stack (<[i := v]> (stack s)) s).
Proof.
  intros ? ?. wf_fields.
  - rewrite length_insert. assumption.
  - apply Forall_insert; assumption.
Qed.

Lemma wf_set_gfx l s : length l = GFX_SIZE -> wf s -> wf (set_gfx l s).
Proof. intros ? ?. wf_fields. Qed.

Lemma wf_set_key l s : length l = NUM_KEYS -> wf s -> wf (set_key l s).
Proof. intros ? ?. wf_fields. Qed.

Lemma wf_advance op s : wf s -> wf (advance op s).
Proof.
  intros ?. unfold advance.
  apply wf_set_pc; [apply u16_is_u16|].
  apply wf_set_opcode, wf_set_breakIPF. assumption.
Qed.

Lemma reg_is_u8 s i : wf s -> 0 <= i < 16 -> is_u8 (reg s i).
Proof.
  intros Hwf Hi. unfold reg.
  apply (Forall_lookup_1 _ (V s) (Z.to_nat i)); [apply Hwf|].
  apply list_lookup_lookup_total_lt. rewrite (wf_V_len s Hwf).
  unfold NUM_REGS. lia.
Qed.

Lemma rdV_len s i :
  length (V s) = NUM_REGS -> 0 <= i < 16 -> rdV s i = Ret (reg s i).
Proof.
  intros Hlen Hi. unfold rdV, reg. apply load_Ret.
  rewrite Hlen. unfold NUM_REGS. lia.
Qed.

Lemma wrV_len s i v :
  length (V s) = NUM_REGS -> 0 <= i < 16 ->
  wrV i v s = Ret (set_V (<[Z.to_nat i := v]> (V s)) s).
Proof.
  intros Hlen Hi. unfold wrV. rewrite store_Ret; [reflexivity|].
  rewrite Hlen. unfold NUM_REGS. lia.
Qed.

Lemma lookup_total_insert_Z {A : Type} `{Inhabited A} (l : list A) i j v :
  0 <= i < Z.of_nat (length l) -> 0 <= j ->
  <[Z.to_nat i := v]> l !!! Z.to_nat j
  = if decide (i = j) then v else l !!! Z.to_nat j.
Proof.
  intros Hi Hj. destruct (decide (i = j)) as [->|Hne].
  - apply list_lookup_total_insert_eq. lia.
  - apply list_lookup_total_insert_ne. lia.
Qed.

(** [regs_run Hwf]: the reads and writes of registers at the head of the
    goal are in bounds, and are carried out. *)
Ltac regs_side Hwf :=
  first [ apply OP_X_range | apply OP_Y_range | lia
        | simpl; rewrite ?length_insert; apply (wf_V_len _ Hwf) ].

Ltac regs_step Hwf :=
  first [ rewrite rdV_len by regs_side Hwf
        | rewrite wrV_len by regs_side Hwf ];
  rewrite ?bind_Ret.

Ltac regs_run Hwf := repeat (regs_step Hwf).

(** [regs_read Hwf]: a goal on the registers after some writes. *)
Ltac regs_read Hwf :=
  unfold reg in *; simpl;
  rewrite ?lookup_total_insert_Z
    by (rewrite ?length_insert, ?(wf_V_len _ Hwf); unfold NUM_REGS; lia);
  repeat case_decide; try lia; try reflexivity.

(** ** Fetch and decode *)

Lemma fetch_inv s op :
  wf s -> fetch s = Ret op ->
  0 <= pc s /\ pc s + 2 <= 4096 /\
  op = Z.lor (Z.shiftl (byte_at s (pc s)) 8) (byte_at s (pc s + 1)).
Proof.
  intros Hwf. unfold fetch. intros H.
  apply bind_inv in H as (hi & Hhi & H).
  apply bind_inv in H as (lo & Hlo & H).
  apply load_inv in Hhi as [Hr1 Hhi]. apply load_inv in Hlo as [Hr2 Hlo].
  rewrite (wf_memory_len s Hwf) in Hr1, Hr2. unfold MEMORY_SIZE in *.
  injection H as <-. unfold byte_at.
  rewrite (list_lookup_total_correct _ _ _ Hhi).
  rewrite (list_lookup_total_correct _ _ _ Hlo). repeat split; lia.
Qed.

Lemma executeCycle_fetch s op :
  fetch s = Ret op -> executeCycle s = exec_op op s.
Proof. intros H. unfold executeCycle. rewrite H. reflexivity. Qed.

(** After a fetch [pc + 2] does not wrap. *)
Lemma pc_advance s op :
  wf s -> fetch s = Ret op -> pc (advance op s) = pc s + 2.
Proof.
  intros Hwf Hf. destruct (fetch_inv s op Hwf Hf) as (? & ? & _).
  simpl. unfold u16. apply Z.mod_small. lia.
Qed.

Lemma land_decode a m v m' v' :
  Z.land a m = v -> Z.land m m' = m' -> Z.land v m' = v' -> Z.land a m' = v'.
Proof. intros <- Hm <-. rewrite <- Z.land_assoc, Hm. reflexivity. Qed.

(** [decode H hi lo]: from the form [H] of the opcode, with the values [hi]
    and [lo] the two switches see, the goal [exec_op op s = ...] is reduced
    to the instruction. *)
Ltac decode H m1 v1 m2 v2 :=
  unfold exec_op, execute;
  change (opcode (advance ?op ?s)) with op;
  rewrite (land_decode _ _ _ m1 v1 H eq_refl eq_refl);
  try rewrite (land_decode _ _ _ m2 v2 H eq_refl eq_refl).

Lemma exec_00EE s : exec_op 0x00EE s = op_00EE (advance 0x00EE s).
Proof. reflexivity. Qed.

Lemma exec_2NNN op s :
  Z.land op 0xF000 = 0x2000 -> exec_op op s = op_2NNN (advance op s).
Proof. intros H. decode H 0xF000 0x2000 0xF000 0x2000. reflexivity. Qed.

Lemma exec_7XNN op s :
  Z.land op 0xF000 = 0x7000 -> exec_op op s = op_7XNN (advance op s).
Proof. intros H. decode H 0xF000 0x7000 0xF000 0x7000. reflexivity. Qed.

Lemma exec_8XY4 op s :
  Z.land op 0xF00F = 0x8004 -> exec_op op s = op_8XY4 (advance op s).
Proof. intros H. decode H 0xF000 0x8000 0x000F 0x4. reflexivity. Qed.

Lemma exec_8XY5 op s :
  Z.land op 0xF00F = 0x8005 -> exec_op op s = op_8XY5 (advance op s).
Proof. intros H. decode H 0xF000 0x8000 0x000F 0x5. reflexivity. Qed.

Lemma exec_8XY6 op s :
  Z.land op 0xF00F = 0x8006 -> exec_op op s = op_8XY6 (advance op s).
Proof. intros H. decode H 0xF000 0x8000 0x000F 0x6. reflexivity. Qed.

Lemma exec_8XY7 op s :
  Z.land op 0xF00F = 0x8007 -> exec_op op s = op_8XY7 (advance op s).
Proof. intros H. decode H 0xF000 0x8000 0x000F 0x7. reflexivity. Qed.

Lemma exec_DXYN op s :
  Z.land op 0xF000 = 0xD000 -> exec_op op s = op_DXYN (advance op s).
Proof. intros H. decode H 0xF000 0xD000 0xF000 0xD000. reflexivity. Qed.

Lemma exec_EX9E op s :
  Z.land op 0xF0FF = 0xE09E -> exec_op op s = op_EX9E (advance op s).
Proof. intros H. decode H 0xF000 0xE000 0x00FF 0x9E. reflexivity. Qed.

Lemma exec_EXA1 op s :
  Z.land op 0xF0FF = 0xE0A1 -> exec_op op s = op_EXA1 (advance op s).
Proof. intros H. decode H 0xF000 0xE000 0x00FF 0xA1. reflexivity. Qed.

Lemma exec_FX0A op s :
  Z.land op 0xF0FF = 0xF00A -> exec_op op s = op_FX0A (advance op s).
Proof. intros H. decode H 0xF000 0xF000 0x00FF 0x0A. reflexivity. Qed.

Lemma exec_FX33 op s :
  Z.land op 0xF0FF = 0xF033 -> exec_op op s = op_FX33 (advance op s).
Proof. intros H. decode H 0xF000 0xF000 0x00FF 0x33. reflexivity. Qed.

Lemma exec_FX55 op s :
  Z.land op 0xF0FF = 0xF055 -> exec_op op s = op_FX55 (advance op s).
Proof. intros H. decode H 0xF000 0xF000 0x00FF 0x55. reflexivity. Qed.

Lemma exec_FX65 op s :
  Z.land op 0xF0FF = 0xF065 -> exec_op op s = op_FX65 (advance op s).
Proof. intros H. decode H 0xF000 0xF000 0x00FF 0x65. reflexivity. Qed.

(** ** Unrecognised opcodes *)

(** The inner switch of the 8XY_ family has no case for a low nibble of 8
    and no default: the opcode is fetched, [pc] moves on, and that is all. *)
Lemma exec_8XY8_falls_through op s :
  Z.land op 0xF00F = 0x8008 -> exec_op op s = Ret (advance op s).
Proof. intros H. decode H 0xF000 0x8000 0x000F 0x8. reflexivity. Qed.

(** C1, at the failing input: ROM [80 08] is not an instruction of the
    machine, and the cycle that fetches 0x8008 returns with [running] still
    set and nothing logged; only [pc] has moved.  The specification asks
    for [UnknownOpcode] here. *)
Theorem C1_unknown_opcode_is_silent :
  fetch unknown_8008 = Ret 0x8008 /\
  executeCycle unknown_8008 = Ret (advance 0x8008 unknown_8008) /\
  running (advance 0x8008 unknown_8008) = true /\
  log (advance 0x8008 unknown_8008) = [] /\
  pc (advance 0x8008 unknown_8008) = 0x202.
Proof. vm_compute. repeat split; reflexivity. Qed.

(** ** cpu::init *)

Lemma init_spec s :
  exists s', init s = Ret s' /\
    pc s' = 0x200 /\ opcode s' = 0 /\ I s' = 0 /\ sp s' = 0 /\
    memory s' = chip8_fontset ++ replicate 4016 0 /\
    stack s' = replicate 16 0 /\
    gfx s' = replicate 2048 false /\
    key s' = replicate 16 false /\ prevKeys s' = replicate 16 false /\
    breakIPF s' = false /\ draw s' = false /\ running s' = true /\
    V s' = V s /\
    delay_timer s' = delay_timer s /\ sound_timer s' = sound_timer s.
Proof.
  eexists. split.
  - vm_compute. reflexivity.
  - vm_compute. repeat split; reflexivity.
Qed.

Lemma wf_boot : wf boot.
Proof. apply wf_b_sound. vm_compute. reflexivity. Qed.

(** C6, at the failing input: [init] on a machine whose timers are counting
    leaves both timers as they were, 60 and 30, where the specification
    has them cleared.  The rest of the state is reset ([init_spec]). *)
Theorem C6_init_keeps_timers :
  delay_timer used = 60 /\ sound_timer used = 30 /\
  exists s', init used = Ret s' /\
    delay_timer s' = 60 /\ sound_timer s' = 30 /\ pc s' = 0x200.
Proof.
  split; [reflexivity|]. split; [reflexivity|].
  eexists. split; [vm_compute; reflexivity|].
  vm_compute. repeat split; reflexivity.
Qed.

(** ** Register instructions *)

(** 8XY6 on every state: VF receives the low bit of the old [V[X]]. *)
Lemma op_8XY6_spec s op :
  wf s -> fetch s = Ret op -> Z.land op 0xF00F = 0x8006 ->
  exists s', executeCycle s = Ret s' /\
    reg s' 0xF = Z.land (reg s (OP_X op)) 1 /\
    (OP_X op <> 0xF ->
     reg s' (OP_X op) = Z.shiftr (reg s (OP_Y op)) 1 mod 256).
Proof.
  intros Hwf Hf H.
  rewrite (executeCycle_fetch _ _ Hf), exec_8XY6 by assumption.
  unfold op_8XY6. change (opcode (advance op s)) with op.
  pose proof (OP_X_range op) as HX. pose proof (OP_Y_range op) as HY.
  regs_run Hwf. eexists. split; [reflexivity|]. split.
  - regs_read Hwf.
  - intros HF. unfold u8. regs_read Hwf.
Qed.

(** C4, at the failing input: 8126 with V1 = 1 and V2 = 4.  The low bit of
    V2 is 0, which is what the specification puts in VF; the code puts the
    low bit of the old V1 there, 1.  V1 itself becomes V2 >> 1 = 2. *)
Theorem C4_8XY6_flag_from_VX :
  fetch shift_8126 = Ret 0x8126 /\
  reg shift_8126 1 = 1 /\ reg shift_8126 2 = 4 /\ Z.land 4 1 = 0 /\
  exists s', executeCycle shift_8126 = Ret s' /\
    reg s' 0xF = 1 /\ reg s' 1 = 2.
Proof.
  repeat (split; [reflexivity|]).
  eexists. split; [vm_compute; reflexivity|].
  split; reflexivity.
Qed.

(** C8 as stated fails for X = 0xF: 7F01 adds 1 to VF, so VF does not stay
    as it was. *)
Lemma C8_7XNN_changes_VF_counterexample :
  fetch add_7F01 = Ret 0x7F01 /\
  exists s', executeCycle add_7F01 = Ret s' /\
    reg add_7F01 0xF = 0 /\ reg s' 0xF = 1.
Proof.
  split; [reflexivity|].
  eexists. split; [vm_compute; reflexivity|]. split; reflexivity.
Qed.

(** C8, amended: 7XNN writes [(V[X] + NN) mod 256] to [V[X]] and changes no
    other register, so VF is as before unless X = 0xF.  8XY4, 8XY5 and
    8XY7 put the carry or no-borrow flag in VF for all X and Y, and leave
    the result modulo 256 in [V[X]] unless X = 0xF, where the flag
    replaces it.  8XY5 with [V[X] = V[Y] = 0] gives VF = 1 and the
    difference 0. *)
Theorem C8_arithmetic_wraps s op :
  wf s -> fetch s = Ret op ->
  let X := OP_X op in
  let vx := reg s (OP_X op) in
  let vy := reg s (OP_Y op) in
  let others_kept s' :=
    forall r, 0 <= r < 16 -> r <> X -> r <> 0xF -> reg s' r = reg s r in
  (Z.land op 0xF000 = 0x7000 ->
   exists s', executeCycle s = Ret s' /\
     reg s' X = (vx + OP_NN op) mod 256 /\
     (forall r, 0 <= r < 16 -> r <> X -> reg s' r = reg s r)) /\
  (Z.land op 0xF00F = 0x8004 ->
   exists s', executeCycle s = Ret s' /\
     reg s' 0xF = (if decide (vx + vy > 255) then 1 else 0) /\
     (X <> 0xF -> reg s' X = (vx + vy) mod 256) /\ others_kept s') /\
  (Z.land op 0xF00F = 0x8005 ->
   exists s', executeCycle s = Ret s' /\
     reg s' 0xF = (if decide (vx >= vy) then 1 else 0) /\
     (X <> 0xF -> reg s' X = (vx - vy) mod 256) /\ others_kept s' /\
     (vx = 0 -> vy = 0 -> reg s' 0xF = 1 /\ (X <> 0xF -> reg s' X = 0))) /\
  (Z.land op 0xF00F = 0x8007 ->
   exists s', executeCycle s = Ret s' /\
     reg s' 0xF = (if decide (vx <= vy) then 1 else 0) /\
     (X <> 0xF -> reg s' X = (vy - vx) mod 256) /\ others_kept s').
Proof.
  intros Hwf Hf X vx vy others_kept. subst X vx vy others_kept.
  pose proof (OP_X_range op) as HX. pose proof (OP_Y_range op) as HY.
  rewrite (executeCycle_fetch _ _ Hf).
  split; [|split; [|split]]; intros H.
  - rewrite exec_7XNN by assumption.
    unfold op_7XNN. change (opcode (advance op s)) with op.
    regs_run Hwf. eexists. split; [reflexivity|]. unfold u8. split.
    + regs_read Hwf.
    + intros r Hr Hne. regs_read Hwf.
  - rewrite exec_8XY4 by assumption.
    unfold op_8XY4. change (opcode (advance op s)) with op.
    regs_run Hwf. eexists. split; [reflexivity|]. unfold u8.
    split; [|split].
    + regs_read Hwf.
    + intros HF. regs_read Hwf.
    + intros r Hr Hne HF. regs_read Hwf.
  - rewrite exec_8XY5 by assumption.
    unfold op_8XY5. change (opcode (advance op s)) with op.
    regs_run Hwf. eexists. split; [reflexivity|]. unfold u8.
    split; [|split; [|split]].
    + regs_read Hwf.
    + intros HF. regs_read Hwf.
    + intros r Hr Hne HF. regs_read Hwf.
    + intros Hx Hy. split.
      * regs_read Hwf.
      * intros HF. regs_read Hwf. rewrite Hx, Hy. reflexivity.
  - rewrite exec_8XY7 by assumption.
    unfold op_8XY7. change (opcode (advance op s)) with op.
    regs_run Hwf. eexists. split; [reflexivity|]. unfold u8.
    split; [|split].
    + regs_read Hwf.
    + intros HF. regs_read Hwf.
    + intros r Hr Hne HF. regs_read Hwf.
Qed.

Lemma C8_arithmetic_wraps_witness :
  wf add_8014 /\ fetch add_8014 = Ret 0x8014 /\
  exists s', executeCycle add_8014 = Ret s' /\
    reg s' 0xF = 1 /\ reg s' 0 = 44.
Proof.
  assert (Hwf : wf add_8014) by (apply wf_b_sound; vm_compute; reflexivity).
  assert (Hf : fetch add_8014 = Ret 0x8014) by reflexivity.
  split; [exact Hwf|]. split; [exact Hf|].
  destruct (C8_arithmetic_wraps add_8014 0x8014 Hwf Hf) as (_ & H & _).
  destruct (H eq_refl) as (s' & He & HF & HX & _).
  exists s'. split; [exact He|]. split.
  - rewrite HF. reflexivity.
  - change (reg s' 0) with (reg s' (OP_X 0x8014)).
    rewrite HX; [reflexivity | vm_compute; discriminate].
Defined.

(** ** Keys *)

(** C10: EX9E and EXA1 index [key] with [V[X]] as it is.  When
    [V[X] <= 15] the access is inside the 16 keys, the cycle returns, and
    the next instruction is skipped or not by the state of that key; when
    [V[X] > 15] the access is outside the array. *)
Theorem C10_key_index_in_bounds s op :
  wf s -> fetch s = Ret op ->
  Z.land op 0xF0FF = 0xE09E \/ Z.land op 0xF0FF = 0xE0A1 ->
  let vx := reg s (OP_X op) in
  (vx <= 15 ->
   exists k, key s !! Z.to_nat vx = Some k /\
     executeCycle s
     = Ret (skip_if (if decide (Z.land op 0xF0FF = 0xE09E) then k else negb k)
                    (advance op s))) /\
  (15 < vx -> executeCycle s = Unchecked ArrKey vx).
Proof.
  intros Hwf Hf Hform vx. subst vx.
  pose proof (OP_X_range op) as HX.
  pose proof (reg_is_u8 s (OP_X op) Hwf HX) as [Hlo Hhi].
  pose proof (wf_key_len s Hwf) as Hlen. unfold NUM_KEYS in Hlen.
  rewrite (executeCycle_fetch _ _ Hf).
  assert (Hexec : exec_op op s
    = (k ← load ArrKey (key s) (reg s (OP_X op));
       mret (skip_if (if decide (Z.land op 0xF0FF = 0xE09E) then k
                      else negb k) (advance op s)))).
  { destruct Hform as [H|H].
    - rewrite exec_EX9E by assumption. unfold op_EX9E.
      change (opcode (advance op s)) with op. regs_run Hwf.
      destruct (decide _); [reflexivity | contradiction].
    - rewrite exec_EXA1 by assumption. unfold op_EXA1.
      change (opcode (advance op s)) with op. regs_run Hwf.
      destruct (decide _) as [E|_]; [|reflexivity].
      rewrite H in E. discriminate E. }
  rewrite Hexec. split; intros Hvx.
  - exists (key s !!! Z.to_nat (reg s (OP_X op))). split.
    + apply list_lookup_lookup_total_lt. lia.
    + rewrite load_Ret by lia. reflexivity.
  - rewrite load_Unchecked by lia. reflexivity.
Qed.

Lemma C10_key_index_in_bounds_witness :
  wf skip_E39E /\ fetch skip_E39E = Ret 0xE39E /\
  reg skip_E39E 3 = 7 /\
  executeCycle skip_E39E = Ret (set_pc 0x204 (advance 0xE39E skip_E39E)).
Proof.
  assert (Hwf : wf skip_E39E) by (apply wf_b_sound; vm_compute; reflexivity).
  assert (Hf : fetch skip_E39E = Ret 0xE39E) by reflexivity.
  split; [exact Hwf|]. split; [exact Hf|]. split; [reflexivity|].
  destruct (C10_key_index_in_bounds skip_E39E 0xE39E Hwf Hf (or_introl eq_refl))
    as [Hin _].
  destruct Hin as (k & Hk & He); [vm_compute; discriminate|].
  rewrite He. vm_compute in Hk. injection Hk as <-. reflexivity.
Defined.

(** The loop of FX0A when no key of its range was released. *)
Lemma key_scan_none n : forall i s,
  length (key s) = NUM_KEYS -> length (prevKeys s) = NUM_KEYS ->
  0 <= i -> i + Z.of_nat n <= 16 ->
  (forall j, i <= j < i + Z.of_nat n -> ~ released s j) ->
  key_scan n i s = Ret (false, s).
Proof.
  unfold NUM_KEYS.
  induction n as [|n IH]; intros i s Hk Hp Hi Hn Hnone; [reflexivity|].
  simpl key_scan. rewrite (load_Ret ArrPrevKeys) by lia. rewrite bind_Ret.
  assert (Hnot : ~ released s i) by (apply Hnone; lia).
  destruct (prevKeys s !!! Z.to_nat i) eqn:Ep.
  - rewrite (load_Ret ArrKey) by lia. rewrite !bind_Ret.
    destruct (key s !!! Z.to_nat i) eqn:Ek.
    + simpl. apply IH; try assumption; try lia. intros j Hj. apply Hnone. lia.
    + exfalso. apply Hnot. unfold released. split; [lia|]. split.
      * rewrite list_lookup_lookup_total_lt by lia. rewrite Ep. reflexivity.
      * rewrite list_lookup_lookup_total_lt by lia. rewrite Ek. reflexivity.
  - rewrite bind_Ret. apply IH; try assumption; try lia.
    intros j Hj. apply Hnone. lia.
Qed.

(** The loop of FX0A leaves at the first released key of its range. *)
Lemma key_scan_first n : forall i s k,
  length (key s) = NUM_KEYS -> length (prevKeys s) = NUM_KEYS ->
  length (V s) = NUM_REGS ->
  0 <= i -> i + Z.of_nat n <= 16 -> i <= k < i + Z.of_nat n ->
  released s k -> (forall j, i <= j < k -> ~ released s j) ->
  key_scan n i s
  = Ret (true, set_breakIPF true
           (set_V (<[Z.to_nat (OP_X (opcode s)) := k]> (V s)) s)).
Proof.
  unfold NUM_KEYS.
  induction n as [|n IH]; intros i s k Hk Hp Hv Hi Hn Hrange Hrel Hfirst;
    [lia|].
  simpl key_scan. rewrite (load_Ret ArrPrevKeys) by lia. rewrite bind_Ret.
  destruct (decide (i = k)) as [->|Hne].
  - destruct Hrel as (_ & Hpk & Hkk).
    rewrite (list_lookup_total_correct _ _ _ Hpk).
    rewrite (load_Ret ArrKey) by lia. rewrite !bind_Ret.
    rewrite (list_lookup_total_correct _ _ _ Hkk). simpl negb.
    rewrite wrV_len by (try assumption; apply OP_X_range). reflexivity.
  - assert (Hnot : ~ released s i) by (apply Hfirst; lia).
    assert (Hrest : key_scan n (i + 1) s
      = Ret (true, set_breakIPF true
           (set_V (<[Z.to_nat (OP_X (opcode s)) := k]> (V s)) s))).
    { apply IH; try assumption; try lia. intros j Hj. apply Hfirst. lia. }
    destruct (prevKeys s !!! Z.to_nat i) eqn:Ep.
    + rewrite (load_Ret ArrKey) by lia. rewrite !bind_Ret.
      destruct (key s !!! Z.to_nat i) eqn:Ek; [exact Hrest|].
      exfalso. apply Hnot. unfold released. split; [lia|]. split.
      * rewrite list_lookup_lookup_total_lt by lia. rewrite Ep. reflexivity.
      * rewrite list_lookup_lookup_total_lt by lia. rewrite Ek. reflexivity.
    + rewrite bind_Ret. exact Hrest.
Qed.

Lemma none_released_b_sound s :
  none_released_b s = true -> forall i, ~ released s i.
Proof.
  unfold none_released_b. rewrite forallb_forall. intros Hall i Hrel.
  assert (Hin : In i (seqZ 0 16)).
  { apply list_elem_of_In, elem_of_seqZ. destruct Hrel as [? _]. lia. }
  apply Hall in Hin. apply negb_true_iff, bool_decide_eq_false in Hin.
  contradiction.
Qed.

(** Below any bound, either no key was released or there is a first one. *)
Lemma first_released_below s (n : nat) :
  (forall j, 0 <= j < Z.of_nat n -> ~ released s j) \/
  (exists k, 0 <= k < Z.of_nat n /\ released s k /\
     forall j, 0 <= j < k -> ~ released s j).
Proof.
  induction n as [|n [IH|IH]].
  - left. intros j Hj. lia.
  - destruct (decide (released s (Z.of_nat n))) as [Hrel|Hnot].
    + right. exists (Z.of_nat n). split; [lia|]. split; [assumption|].
      intros j Hj. apply IH. lia.
    + left. intros j Hj.
      destruct (decide (j = Z.of_nat n)) as [->|Hne]; [assumption|].
      apply IH. lia.
  - right. destruct IH as (k & Hk & Hrel & Hfirst).
    exists k. split; [lia|]. split; assumption.
Qed.

Lemma first_released s :
  (exists i, released s i) ->
  exists k, released s k /\ forall j, released s j -> k <= j.
Proof.
  intros (i & Hi).
  destruct (first_released_below s 16) as [Hnone|(k & Hk & Hrel & Hfirst)].
  - exfalso. apply (Hnone i); [|assumption]. destruct Hi as [? _]. lia.
  - exists k. split; [assumption|]. intros j Hj.
    destruct (decide (k <= j)) as [|Hlt]; [assumption|].
    exfalso. apply (Hfirst j); [|assumption]. destruct Hj as [? _]. lia.
Qed.

(** FX0A with no released key: the cycle ends where it began. *)
Lemma FX0A_wait_cycle s op :
  wf s -> fetch s = Ret op -> Z.land op 0xF0FF = 0xF00A ->
  (forall i, ~ released s i) ->
  executeCycle s = Ret (set_pc (pc s) (advance op s)).
Proof.
  intros Hwf Hf H Hnone.
  rewrite (executeCycle_fetch _ _ Hf), exec_FX0A by assumption.
  unfold op_FX0A. rewrite key_scan_none.
  - rewrite bind_Ret. rewrite (pc_advance s op Hwf Hf).
    destruct (fetch_inv s op Hwf Hf) as (Hlo & Hhi & _).
    replace (u16 (pc s + 2 - 2)) with (pc s); [reflexivity|].
    unfold u16. rewrite Z.mod_small; lia.
  - apply (wf_key_len s Hwf).
  - apply (wf_prevKeys_len s Hwf).
  - lia.
  - simpl. lia.
  - intros j _. apply Hnone.
Qed.

Lemma FX0A_wait_cycles op (n : nat) : forall s,
  wf s -> fetch s = Ret op -> Z.land op 0xF0FF = 0xF00A ->
  (forall i, ~ released s i) ->
  exists s', cycles (S n) s = Ret s' /\ pc s' = pc s /\ V s' = V s.
Proof.
  induction n as [|n IH]; intros s Hwf Hf H Hnone.
  - exists (set_pc (pc s) (advance op s)).
    simpl cycles. rewrite (FX0A_wait_cycle s op) by assumption.
    repeat split.
  - assert (Hwf1 : wf (set_pc (pc s) (advance op s))).
    { apply wf_set_pc; [apply Hwf | apply wf_advance; assumption]. }
    destruct (IH (set_pc (pc s) (advance op s)) Hwf1 Hf H Hnone)
      as (s' & Hc & Hpc & HV).
    exists s'. split; [|split; assumption].
    change (cycles (S (S n)) s)
      with (s1 ← executeCycle s; cycles (S n) s1).
    rewrite (FX0A_wait_cycle s op) by assumption. exact Hc.
Qed.

(** C7: FX0A.  While no key that was pressed at the snapshot is released,
    any number of cycles leaves [pc] and the registers as they are.  Once
    such keys exist, one cycle puts the number of the first of them in
    [V[X]], sets [breakIPF] and leaves [pc] behind the instruction. *)
Theorem C7_FX0A_waits_for_release s op :
  wf s -> fetch s = Ret op -> Z.land op 0xF0FF = 0xF00A ->
  ((forall i, ~ released s i) ->
   forall n, exists s',
     cycles (S n) s = Ret s' /\ pc s' = pc s /\ V s' = V s) /\
  ((exists i, released s i) ->
   exists k s',
     released s k /\ (forall j, released s j -> k <= j) /\
     executeCycle s = Ret s' /\
     V s' = <[Z.to_nat (OP_X op) := k]> (V s) /\
     breakIPF s' = true /\ pc s' = pc s + 2).
Proof.
  intros Hwf Hf H. split.
  - intros Hnone n. apply (FX0A_wait_cycles op n s); assumption.
  - intros Hex. destruct (first_released s Hex) as (k & Hrel & Hleast).
    exists k. eexists. split; [exact Hrel|]. split; [exact Hleast|].
    rewrite (executeCycle_fetch _ _ Hf), exec_FX0A by assumption.
    unfold op_FX0A.
    rewrite (key_scan_first 16 0 (advance op s) k).
    + rewrite bind_Ret. split; [reflexivity|]. simpl.
      split; [reflexivity|]. split; [reflexivity|].
      destruct (fetch_inv s op Hwf Hf) as (Hlo & Hhi & _).
      unfold u16. rewrite Z.mod_small; lia.
    + apply (wf_key_len s Hwf).
    + apply (wf_prevKeys_len s Hwf).
    + apply (wf_V_len s Hwf).
    + lia.
    + simpl. lia.
    + destruct Hrel as [? _]. simpl. lia.
    + exact Hrel.
    + intros j Hj Hrj. specialize (Hleast j Hrj). lia.
Qed.


Lemma C7_FX0A_waits_for_release_witness :
  wf wait_F50A /\ fetch wait_F50A = Ret 0xF50A /\
  wf wait_released /\ fetch wait_released = Ret 0xF50A /\
  (exists s', cycles 3 wait_F50A = Ret s' /\
     pc s' = 0x200 /\ V s' = V wait_F50A) /\
  (exists s', executeCycle wait_released = Ret s' /\
     reg s' 5 = 9 /\ breakIPF s' = true /\ pc s' = 0x202).
Proof.
  assert (Hwf : wf wait_F50A) by (apply wf_b_sound; vm_compute; reflexivity).
  assert (Hf : fetch wait_F50A = Ret 0xF50A) by (vm_compute; reflexivity).
  assert (Hwf' : wf wait_released)
    by (apply wf_b_sound; vm_compute; reflexivity).
  assert (Hf' : fetch wait_released = Ret 0xF50A)
    by (vm_compute; reflexivity).
  assert (Hnone : none_released_b wait_F50A = true)
    by (vm_compute; reflexivity).
  assert (H9 : released wait_released 9)
    by (split; [lia|]; split; vm_compute; reflexivity).
  repeat (split; [assumption|]). split.
  - destruct (C7_FX0A_waits_for_release wait_F50A 0xF50A Hwf Hf eq_refl)
      as [Hwait _].
    apply (Hwait (none_released_b_sound wait_F50A Hnone) 2%nat).
  - destruct (C7_FX0A_waits_for_release wait_released 0xF50A Hwf' Hf' eq_refl)
      as [_ Hgo].
    destruct (Hgo (ex_intro _ 9 H9))
      as (k & s' & Hrel & Hleast & He & HV & Hb & Hpc).
    exists s'. split; [exact He|]. split; [|split; assumption].
    assert (Hk : k = 9).
    { specialize (Hleast 9 H9).
      destruct (decide (k = 9)) as [|Hne]; [assumption|].
      exfalso. destruct Hrel as (Hr & Hp & _).
      assert (Hc : k = 0 \/ k = 1 \/ k = 2 \/ k = 3 \/ k = 4 \/ k = 5 \/
                   k = 6 \/ k = 7 \/ k = 8) by lia.
      destruct Hc as [->|[->|[->|[->|[->|[->|[->|[->| ->]]]]]]]];
        vm_compute in Hp; discriminate Hp. }
    unfold reg. rewrite HV, Hk. vm_compute. reflexivity.
Defined.

(** ** FX55 and FX65 *)

(** One round of the loop of FX55. *)
Lemma store_reg_Ret s i :
  wf s -> 0 <= i < 16 -> I s < 4096 ->
  store_reg i s
  = Ret (set_I (I s + 1)
           (set_memory (<[Z.to_nat (I s) := reg s i]> (memory s)) s)).
Proof.
  intros Hwf Hi HI. pose proof (wf_I s Hwf) as [HI0 _].
  pose proof (wf_memory_len s Hwf) as Hlen. unfold MEMORY_SIZE in Hlen.
  unfold store_reg.
  rewrite rdV_len by (try apply (wf_V_len s Hwf); lia). rewrite bind_Ret.
  rewrite store_Ret by lia. rewrite bind_Ret. simpl I.
  unfold u16. rewrite Z.mod_small by lia. reflexivity.
Qed.

Lemma store_reg_Unchecked s i :
  wf s -> 0 <= i < 16 -> 4096 <= I s ->
  store_reg i s = Unchecked ArrMemory (I s).
Proof.
  intros Hwf Hi HI.
  pose proof (wf_memory_len s Hwf) as Hlen. unfold MEMORY_SIZE in Hlen.
  unfold store_reg.
  rewrite rdV_len by (try apply (wf_V_len s Hwf); lia). rewrite bind_Ret.
  rewrite store_Unchecked by lia. reflexivity.
Qed.

Lemma wf_store_reg s i :
  wf s -> 0 <= i < 16 -> I s < 4096 ->
  wf (set_I (I s + 1)
        (set_memory (<[Z.to_nat (I s) := reg s i]> (memory s)) s)).
Proof.
  intros Hwf Hi HI. pose proof (wf_I s Hwf) as [HI0 _].
  apply wf_set_I; [unfold is_u16; lia|].
  apply wf_set_memory; [apply reg_is_u8; assumption | assumption].
Qed.

(** The loop of FX55 over registers [i .. i + n - 1] when the addresses
    [I .. I + n - 1] lie inside the memory. *)
Lemma store_loop n : forall i s,
  wf s -> 0 <= i -> i + Z.of_nat n <= 16 -> I s + Z.of_nat n <= 4096 ->
  exists s', for_loop n i store_reg s = Ret s' /\ wf s' /\
    I s' = I s + Z.of_nat n /\ V s' = V s /\
    pc s' = pc s /\ running s' = running s /\ log s' = log s /\
    (forall j, 0 <= j < Z.of_nat n ->
       byte_at s' (I s + j) = reg s (i + j)) /\
    (forall a, 0 <= a -> ~ I s <= a < I s + Z.of_nat n ->
       byte_at s' a = byte_at s a).
Proof.
  induction n as [|n IH]; intros i s Hwf Hi Hn HI.
  - exists s. split; [reflexivity|]. split; [assumption|].
    split; [simpl; lia|]. do 4 (split; [reflexivity|]).
    split; intros; [lia | reflexivity].
  - pose proof (wf_I s Hwf) as [HI0 _].
    pose proof (wf_memory_len s Hwf) as Hlen. unfold MEMORY_SIZE in Hlen.
    rewrite for_loop_S, store_reg_Ret by (try assumption; lia).
    rewrite bind_Ret.
    set (s1 := set_I (I s + 1)
                 (set_memory (<[Z.to_nat (I s) := reg s i]> (memory s)) s)).
    assert (Hwf1 : wf s1) by (apply wf_store_reg; try assumption; lia).
    destruct (IH (i + 1) s1 Hwf1) as
      (s' & Hloop & Hwf' & HI' & HV' & Hpc' & Hrun' & Hlog' & Hin & Hout);
      [lia | lia | simpl; lia |].
    exists s'. split; [exact Hloop|]. split; [exact Hwf'|].
    split; [rewrite HI'; simpl; lia|].
    split; [exact HV'|]. split; [exact Hpc'|].
    split; [exact Hrun'|]. split; [exact Hlog'|]. split.
    + intros j Hj. destruct (decide (j = 0)) as [->|Hj0].
      * rewrite Hout by (simpl; lia). unfold byte_at. simpl.
        rewrite !Z.add_0_r, list_lookup_total_insert_eq by lia.
        reflexivity.
      * replace (I s + j) with (I s1 + (j - 1)) by (simpl; lia).
        rewrite Hin by lia. unfold reg. simpl. f_equal. f_equal. lia.
    + intros a Ha Hnot. rewrite Hout by (simpl; lia).
      unfold byte_at. simpl. apply list_lookup_total_insert_ne. lia.
Qed.

(** The loop of FX55 reaches an address outside the memory. *)
Lemma store_loop_unchecked n : forall i s,
  wf s -> 0 <= i -> i + Z.of_nat n <= 16 ->
  (0 < n)%nat -> 4096 < I s + Z.of_nat n ->
  exists a, 4096 <= a < I s + Z.of_nat n /\ I s <= a /\
    for_loop n i store_reg s = Unchecked ArrMemory a.
Proof.
  induction n as [|n IH]; intros i s Hwf Hi Hn Hpos HI; [lia|].
  - pose proof (wf_I s Hwf) as [HI0 HI1].
    pose proof (wf_memory_len s Hwf) as Hlen. unfold MEMORY_SIZE in Hlen.
    rewrite for_loop_S.
    destruct (decide (I s < 4096)) as [Hin|Hout].
    + rewrite store_reg_Ret by (try assumption; lia). rewrite bind_Ret.
      set (s1 := set_I (I s + 1)
                 (set_memory (<[Z.to_nat (I s) := reg s i]> (memory s)) s)).
      assert (Hwf1 : wf s1) by (apply wf_store_reg; try assumption; lia).
      destruct (IH (i + 1) s1 Hwf1) as (a & Ha & Hge & Hloop);
        [lia | lia | lia | simpl; lia |].
      exists a. simpl in Ha, Hge. split; [lia|]. split; [lia|].
      exact Hloop.
    + exists (I s). split; [lia|]. split; [lia|].
      rewrite store_reg_Unchecked by (try assumption; lia). reflexivity.
Qed.

Lemma byte_at_is_u8 s a : wf s -> 0 <= a < 4096 -> is_u8 (byte_at s a).
Proof.
  intros Hwf Ha. unfold byte_at.
  apply (Forall_lookup_1 _ (memory s) (Z.to_nat a)); [apply Hwf|].
  apply list_lookup_lookup_total_lt. rewrite (wf_memory_len s Hwf).
  unfold MEMORY_SIZE. lia.
Qed.

(** One round of the loop of FX65. *)
Lemma load_reg_Ret s i :
  wf s -> 0 <= i < 16 -> I s < 4096 ->
  load_reg i s
  = Ret (set_I (I s + 1)
           (set_V (<[Z.to_nat i := byte_at s (I s)]> (V s)) s)).
Proof.
  intros Hwf Hi HI. pose proof (wf_I s Hwf) as [HI0 _].
  pose proof (wf_memory_len s Hwf) as Hlen. unfold MEMORY_SIZE in Hlen.
  unfold load_reg. rewrite load_Ret by lia. rewrite bind_Ret.
  rewrite wrV_len by (try apply (wf_V_len s Hwf); lia). rewrite bind_Ret.
  simpl I. unfold u16. rewrite Z.mod_small by lia. reflexivity.
Qed.

Lemma load_reg_Unchecked s i :
  wf s -> 4096 <= I s -> load_reg i s = Unchecked ArrMemory (I s).
Proof.
  intros Hwf HI.
  pose proof (wf_memory_len s Hwf) as Hlen. unfold MEMORY_SIZE in Hlen.
  unfold load_reg. rewrite load_Unchecked by lia. reflexivity.
Qed.

Lemma wf_load_reg s i :
  wf s -> 0 <= i < 16 -> I s < 4096 ->
  wf (set_I (I s + 1)
        (set_V (<[Z.to_nat i := byte_at s (I s)]> (V s)) s)).
Proof.
  intros Hwf Hi HI. pose proof (wf_I s Hwf) as [HI0 _].
  apply wf_set_I; [unfold is_u16; lia|].
  apply wf_set_V; [apply byte_at_is_u8; [assumption | lia] | assumption].
Qed.

(** The loop of FX65 over registers [i .. i + n - 1] when the addresses
    [I .. I + n - 1] lie inside the memory. *)
Lemma load_loop n : forall i s,
  wf s -> 0 <= i -> i + Z.of_nat n <= 16 -> I s + Z.of_nat n <= 4096 ->
  exists s', for_loop n i load_reg s = Ret s' /\ wf s' /\
    I s' = I s + Z.of_nat n /\ memory s' = memory s /\
    pc s' = pc s /\ running s' = running s /\ log s' = log s /\
    (forall j, 0 <= j < Z.of_nat n ->
       reg s' (i + j) = byte_at s (I s + j)) /\
    (forall r, 0 <= r -> ~ i <= r < i + Z.of_nat n -> reg s' r = reg s r).
Proof.
  induction n as [|n IH]; intros i s Hwf Hi Hn HI.
  - exists s. split; [reflexivity|]. split; [assumption|].
    split; [simpl; lia|]. do 4 (split; [reflexivity|]).
    split; intros; [lia | reflexivity].
  - pose proof (wf_V_len s Hwf) as Hlen. unfold NUM_REGS in Hlen.
    rewrite for_loop_S, load_reg_Ret by (try assumption; lia).
    rewrite bind_Ret.
    set (s1 := set_I (I s + 1)
                 (set_V (<[Z.to_nat i := byte_at s (I s)]> (V s)) s)).
    assert (Hwf1 : wf s1) by (apply wf_load_reg; try assumption; lia).
    destruct (IH (i + 1) s1 Hwf1) as
      (s' & Hloop & Hwf' & HI' & Hm' & Hpc' & Hrun' & Hlog' & Hin & Hout);
      [lia | lia | simpl; lia |].
    exists s'. split; [exact Hloop|]. split; [exact Hwf'|].
    split; [rewrite HI'; simpl; lia|].
    split; [exact Hm'|]. split; [exact Hpc'|].
    split; [exact Hrun'|]. split; [exact Hlog'|]. split.
    + intros j Hj. destruct (decide (j = 0)) as [->|Hj0].
      * rewrite Hout by lia. unfold reg. simpl.
        rewrite !Z.add_0_r, list_lookup_total_insert_eq by lia.
        reflexivity.
      * replace (i + j) with (i + 1 + (j - 1)) by lia.
        rewrite Hin by lia. unfold byte_at. simpl. f_equal. f_equal. lia.
    + intros r Hr Hnot. rewrite Hout by lia.
      unfold reg. simpl. apply list_lookup_total_insert_ne. lia.
Qed.

(** The loop of FX65 reaches an address outside the memory. *)
Lemma load_loop_unchecked n : forall i s,
  wf s -> 0 <= i -> i + Z.of_nat n <= 16 ->
  (0 < n)%nat -> 4096 < I s + Z.of_nat n ->
  exists a, 4096 <= a < I s + Z.of_nat n /\ I s <= a /\
    for_loop n i load_reg s = Unchecked ArrMemory a.
Proof.
  induction n as [|n IH]; intros i s Hwf Hi Hn Hpos HI; [lia|].
  pose proof (wf_I s Hwf) as [HI0 HI1].
  rewrite for_loop_S.
  destruct (decide (I s < 4096)) as [Hin|Hout].
  - rewrite load_reg_Ret by (try assumption; lia). rewrite bind_Ret.
    set (s1 := set_I (I s + 1)
                 (set_V (<[Z.to_nat i := byte_at s (I s)]> (V s)) s)).
    assert (Hwf1 : wf s1) by (apply wf_load_reg; try assumption; lia).
    destruct (IH (i + 1) s1 Hwf1) as (a & Ha & Hge & Hloop);
      [lia | lia | lia | simpl; lia |].
    exists a. simpl in Ha, Hge. split; [lia|]. split; [lia|]. exact Hloop.
  - exists (I s). split; [lia|]. split; [lia|].
    rewrite load_reg_Unchecked by (try assumption; lia). reflexivity.
Qed.

(** C9 as stated fails: it holds for every X and every [I], but FX55 with
    X = 1 and I = 0xFFF, reached by ROM [AF FF F1 55], stores V0 at 0xFFF
    and then V1 at 0x1000, outside the memory; FX55 does not return, so
    [I] is not left advanced by X + 1 and there is nothing for FX65 to
    load back. *)
Lemma C9_round_trip_beyond_memory_counterexample :
  executeCycle store_at_end_rom = Ret store_at_end /\
  wf store_at_end /\ fetch store_at_end = Ret 0xF155 /\
  I store_at_end = 0xFFF /\ I store_at_end + OP_X 0xF155 > 0xFFF /\
  executeCycle store_at_end = Unchecked ArrMemory 0x1000 /\
  ~ (exists s1, executeCycle store_at_end = Ret s1 /\
       I s1 = I store_at_end + OP_X 0xF155 + 1).
Proof.
  assert (H : executeCycle store_at_end = Unchecked ArrMemory 0x1000)
    by (vm_compute; reflexivity).
  split; [vm_compute; reflexivity|].
  split; [apply wf_b_sound; vm_compute; reflexivity|].
  split; [vm_compute; reflexivity|]. split; [vm_compute; reflexivity|].
  split; [vm_compute; reflexivity|].
  split; [exact H|]. rewrite H. intros (s1 & Hs & _). discriminate Hs.
Qed.

(** C9, amended: FX55 when [I + X] is at most 0xFFF, an address of the
    memory, then FX65 with the same X on a machine that has the memory
    FX55 left and [I] back at its old value, whatever its registers.
    FX55 returns with [I] advanced by X + 1; FX65 returns with [I]
    advanced by X + 1 and with V0..VX as they were before FX55. *)
Theorem C9_FX55_FX65_round_trip s op :
  wf s -> fetch s = Ret op -> Z.land op 0xF0FF = 0xF055 ->
  I s + OP_X op <= 0xFFF ->
  exists s1, executeCycle s = Ret s1 /\ I s1 = I s + OP_X op + 1 /\
    forall s2 op2,
      wf s2 -> fetch s2 = Ret op2 -> Z.land op2 0xF0FF = 0xF065 ->
      OP_X op2 = OP_X op -> memory s2 = memory s1 -> I s2 = I s ->
      exists s3, executeCycle s2 = Ret s3 /\
        I s3 = I s2 + OP_X op + 1 /\
        forall r, 0 <= r <= OP_X op -> reg s3 r = reg s r.
Proof.
  intros Hwf Hf H HI. pose proof (OP_X_range op) as HX.
  rewrite (executeCycle_fetch _ _ Hf), exec_FX55 by assumption.
  unfold op_FX55. change (opcode (advance op s)) with op.
  destruct (store_loop (Z.to_nat (OP_X op + 1)) 0 (advance op s))
    as (s1 & Hloop & Hwf1 & HI1 & HV1 & _ & _ & _ & Hin & _);
    [apply wf_advance; assumption | lia | lia | simpl; lia |].
  exists s1. split; [exact Hloop|]. split; [rewrite HI1; simpl; lia|].
  intros s2 op2 Hwf2 Hf2 H2 HX2 Hm2 HI2.
  rewrite (executeCycle_fetch _ _ Hf2), exec_FX65 by assumption.
  unfold op_FX65. change (opcode (advance op2 s2)) with op2. rewrite HX2.
  destruct (load_loop (Z.to_nat (OP_X op + 1)) 0 (advance op2 s2))
    as (s3 & Hloop3 & _ & HI3 & _ & _ & _ & _ & Hin3 & _);
    [apply wf_advance; assumption | lia | lia | simpl; lia |].
  exists s3. split; [exact Hloop3|]. split; [rewrite HI3; simpl; lia|].
  intros r Hr. specialize (Hin3 r). specialize (Hin r).
  rewrite Z.add_0_l in Hin3, Hin. rewrite Hin3 by lia.
  unfold byte_at in *. simpl in *. rewrite Hm2, HI2. apply Hin. lia.
Qed.

Lemma C9_FX55_FX65_round_trip_witness :
  wf save_F355 /\ fetch save_F355 = Ret 0xF355 /\
  I save_F355 + OP_X 0xF355 <= 0xFFF /\
  wf restore_F365 /\ fetch restore_F365 = Ret 0xF365 /\
  exists s1 s3,
    executeCycle save_F355 = Ret s1 /\ I s1 = 0x304 /\
    executeCycle restore_F365 = Ret s3 /\ I s3 = 0x304 /\
    reg s3 0 = 11 /\ reg s3 1 = 22 /\ reg s3 2 = 33 /\ reg s3 3 = 44.
Proof.
  assert (Hwf : wf save_F355) by (apply wf_b_sound; vm_compute; reflexivity).
  assert (Hf : fetch save_F355 = Ret 0xF355) by (vm_compute; reflexivity).
  assert (HI : I save_F355 + OP_X 0xF355 <= 0xFFF)
    by (vm_compute; discriminate).
  assert (Hwf2 : wf restore_F365)
    by (apply wf_b_sound; vm_compute; reflexivity).
  assert (Hf2 : fetch restore_F365 = Ret 0xF365)
    by (vm_compute; reflexivity).
  repeat (split; [assumption|]).
  destruct (C9_FX55_FX65_round_trip save_F355 0xF355 Hwf Hf eq_refl HI)
    as (s1 & He1 & HI1 & Hback).
  destruct (Hback restore_F365 0xF365 Hwf2 Hf2 eq_refl eq_refl)
    as (s3 & He3 & HI3 & Hregs).
  - unfold restore_F365. rewrite He1. reflexivity.
  - reflexivity.
  - exists s1, s3. split; [exact He1|]. split; [exact HI1|].
    split; [exact He3|]. split; [exact HI3|].
    rewrite (Hregs 0), (Hregs 1), (Hregs 2), (Hregs 3)
      by (vm_compute; split; discriminate).
    vm_compute. repeat split; reflexivity.
Defined.

(** ** The call stack *)

(** 2NNN with room on the stack. *)
Lemma call_Ret s op :
  wf s -> Z.land op 0xF000 = 0x2000 -> sp s < 16 ->
  exec_op op s
  = Ret (set_pc (OP_NNN op)
           (set_sp (sp s + 1)
              (set_stack (<[Z.to_nat (sp s) := u16 (pc s + 2)]> (stack s))
                 (advance op s)))).
Proof.
  intros Hwf H Hsp. pose proof (wf_sp s Hwf) as [Hsp0 _].
  pose proof (wf_stack_len s Hwf) as Hlen. unfold STACK_SIZE in Hlen.
  rewrite exec_2NNN by assumption. unfold op_2NNN.
  assert (Hu : u16 (sp s + 1) = sp s + 1).
  { unfold u16. apply Z.mod_small. lia. }
  rewrite store_Ret by (simpl; lia). rewrite bind_Ret. simpl.
  rewrite Hu. reflexivity.
Qed.

(** 2NNN with a full stack writes [stack[16]]. *)
Lemma call_Unchecked s op :
  wf s -> Z.land op 0xF000 = 0x2000 -> 16 <= sp s ->
  exec_op op s = Unchecked ArrStack (sp s).
Proof.
  intros Hwf H Hsp.
  pose proof (wf_stack_len s Hwf) as Hlen. unfold STACK_SIZE in Hlen.
  rewrite exec_2NNN by assumption. unfold op_2NNN.
  rewrite store_Unchecked by (simpl; lia). reflexivity.
Qed.

(** 00EE with an address on the stack. *)
Lemma ret_Ret s :
  wf s -> 0 < sp s <= 16 ->
  exec_op 0x00EE s
  = Ret (set_pc (stack s !!! Z.to_nat (sp s - 1))
           (set_sp (sp s - 1) (advance 0x00EE s))).
Proof.
  intros Hwf Hsp.
  pose proof (wf_stack_len s Hwf) as Hlen. unfold STACK_SIZE in Hlen.
  assert (Hu : u16 (sp s - 1) = sp s - 1).
  { unfold u16. apply Z.mod_small. lia. }
  rewrite exec_00EE. unfold op_00EE. simpl. rewrite Hu.
  rewrite load_Ret by lia. reflexivity.
Qed.

(** 00EE with an empty stack: [sp] wraps and [stack[65535]] is read. *)
Lemma ret_Unchecked s :
  wf s -> sp s = 0 -> exec_op 0x00EE s = Unchecked ArrStack 65535.
Proof.
  intros Hwf Hsp.
  pose proof (wf_stack_len s Hwf) as Hlen. unfold STACK_SIZE in Hlen.
  rewrite exec_00EE. unfold op_00EE. simpl. rewrite Hsp.
  change (u16 (0 - 1)) with 65535.
  rewrite load_Unchecked by lia. reflexivity.
Qed.

Lemma last_state_cons s s' tr : last_state s (s' :: tr) = last_state s' tr.
Proof.
  unfold last_state. revert s s'. induction tr as [|s'' tr IH]; intros s s'.
  - reflexivity.
  - change (List.last (s' :: s'' :: tr) s) with (List.last (s'' :: tr) s).
    rewrite (IH s), (IH s'). reflexivity.
Qed.

Lemma last_state_app tr1 : forall s tr2,
  last_state s (tr1 ++ tr2) = last_state (last_state s tr1) tr2.
Proof.
  induction tr1 as [|s' tr1 IH]; intros s tr2; [reflexivity|].
  rewrite <- app_comm_cons, !last_state_cons. apply IH.
Qed.

Lemma exec_trace_cons op ops s :
  exec_trace (op :: ops) s
  = exec_op op s ≫= fun s' =>
      exec_trace ops s' ≫= fun tr => mret (s' :: tr).
Proof. reflexivity. Qed.

Lemma exec_trace_app ops1 : forall ops2 s,
  exec_trace (ops1 ++ ops2) s
  = exec_trace ops1 s ≫= fun tr1 =>
      exec_trace ops2 (last_state s tr1) ≫= fun tr2 => mret (tr1 ++ tr2).
Proof.
  induction ops1 as [|op ops1 IH]; intros ops2 s.
  - simpl. unfold last_state. simpl.
    destruct (exec_trace ops2 s); reflexivity.
  - rewrite <- app_comm_cons, !exec_trace_cons.
    destruct (exec_op op s) as [s'|]; [|reflexivity].
    cbn [mbind outcome_bind]. rewrite IH.
    destruct (exec_trace ops1 s') as [tr1|]; [|reflexivity].
    cbn [mbind outcome_bind mret outcome_ret]. rewrite last_state_cons.
    destruct (exec_trace ops2 (last_state s' tr1)); reflexivity.
Qed.

(** Nested calls while the stack has room. *)
Lemma calls_trace calls : forall s,
  wf s -> Forall (fun op => Z.land op 0xF000 = 0x2000) calls ->
  sp s + Z.of_nat (length calls) <= 16 ->
  exists tr, exec_trace calls s = Ret tr /\
    map pc tr = map OP_NNN calls /\
    wf (last_state s tr) /\
    sp (last_state s tr) = sp s + Z.of_nat (length calls) /\
    live_stack (last_state s tr)
    = live_stack s ++ return_addresses (pc s) calls.
Proof.
  induction calls as [|op calls IH]; intros s Hwf Hcalls Hroom.
  - exists []. unfold last_state. simpl. split; [reflexivity|].
    split; [reflexivity|]. split; [assumption|]. split; [lia|].
    rewrite app_nil_r. reflexivity.
  - apply Forall_cons in Hcalls as [Hop Hcalls].
    pose proof (wf_sp s Hwf) as [Hsp0 _].
    pose proof (wf_stack_len s Hwf) as Hlen. unfold STACK_SIZE in Hlen.
    rewrite length_cons in Hroom.
    set (s1 := set_pc (OP_NNN op)
           (set_sp (sp s + 1)
              (set_stack (<[Z.to_nat (sp s) := u16 (pc s + 2)]> (stack s))
                 (advance op s)))).
    assert (Hwf1 : wf s1).
    { pose proof (OP_NNN_range op).
      apply wf_set_pc; [unfold is_u16; lia|].
      apply wf_set_sp; [unfold is_u16; lia|].
      apply (wf_set_stack (Z.to_nat (sp s)) (u16 (pc s + 2)) (advance op s));
        [apply u16_is_u16 | apply wf_advance; assumption]. }
    destruct (IH s1 Hwf1 Hcalls) as (tr & Htr & Hpcs & Hwf' & Hsp' & Hlive);
      [simpl; lia|].
    exists (s1 :: tr).
    rewrite exec_trace_cons, call_Ret by (try assumption; lia).
    fold s1. rewrite bind_Ret, Htr, last_state_cons.
    split; [reflexivity|]. split; [simpl; rewrite Hpcs; reflexivity|].
    split; [exact Hwf'|]. split; [rewrite Hsp'; simpl; lia|].
    rewrite Hlive. simpl return_addresses. rewrite cons_middle, app_assoc.
    f_equal.
    unfold live_stack. simpl.
    replace (Z.to_nat (sp s + 1)) with (S (Z.to_nat (sp s))) by lia.
    rewrite (take_S_r _ _ (u16 (pc s + 2)))
      by (apply list_lookup_insert_eq; lia).
    rewrite take_insert_ge by lia. reflexivity.
Qed.

(** Returns while the stack holds addresses: they come back last in, first
    out. *)
Lemma returns_trace l : forall base s,
  wf s -> sp s <= 16 -> live_stack s = base ++ l ->
  exists tr, exec_trace (replicate (length l) 0x00EE) s = Ret tr /\
    map pc tr = reverse l /\
    sp (last_state s tr) = sp s - Z.of_nat (length l).
Proof.
  induction l as [|a l IH] using rev_ind; intros base s Hwf Hsp Hlive.
  - exists []. unfold last_state. simpl. repeat split. lia.
  - pose proof (wf_sp s Hwf) as [Hsp0 _].
    pose proof (wf_stack_len s Hwf) as Hlen. unfold STACK_SIZE in Hlen.
    assert (Hsize : Z.to_nat (sp s) = (length base + length l + 1)%nat).
    { apply (f_equal length) in Hlive. unfold live_stack in Hlive.
      rewrite length_take, !length_app in Hlive. simpl in Hlive. lia. }
    assert (Htop : stack s !!! Z.to_nat (sp s - 1) = a).
    { apply list_lookup_total_correct.
      assert (Hl : live_stack s !! (length base + length l)%nat = Some a).
      { rewrite Hlive, app_assoc.
        rewrite lookup_app_r by (rewrite length_app; lia).
        rewrite length_app.
        replace (length base + length l - (length base + length l))%nat
          with 0%nat by lia. reflexivity. }
      unfold live_stack in Hl. apply lookup_take_Some in Hl as [Hl _].
      replace (Z.to_nat (sp s - 1)) with (length base + length l)%nat by lia.
      exact Hl. }
    set (s1 := set_pc a (set_sp (sp s - 1) (advance 0x00EE s))).
    assert (Hwf1 : wf s1).
    { apply wf_set_pc.
      - rewrite <- Htop.
        apply (Forall_lookup_1 _ (stack s) (Z.to_nat (sp s - 1)));
          [apply Hwf|]. apply list_lookup_lookup_total_lt. lia.
      - apply wf_set_sp; [unfold is_u16; lia|]. apply wf_advance. assumption. }
    destruct (IH base s1 Hwf1) as (tr & Htr & Hpcs & Hsp').
    + simpl. lia.
    + unfold live_stack in *. simpl.
      replace (Z.to_nat (sp s - 1)) with (length base + length l)%nat by lia.
      apply (f_equal (take (length base + length l))) in Hlive.
      rewrite take_take in Hlive.
      replace ((length base + length l) `min` Z.to_nat (sp s))%nat
        with (length base + length l)%nat in Hlive by lia.
      rewrite Hlive, app_assoc, take_app_length'
        by (rewrite length_app; reflexivity). reflexivity.
    + exists (s1 :: tr). rewrite length_app, Nat.add_1_r.
      change (replicate (S (length l)) 238)
        with (238 :: replicate (length l) 238).
      rewrite exec_trace_cons, ret_Ret by (try assumption; lia).
      rewrite Htop. fold s1. rewrite bind_Ret, Htr, last_state_cons.
      split; [reflexivity|]. split.
      * simpl. rewrite Hpcs, reverse_app. reflexivity.
      * rewrite Hsp'. simpl. lia.
Qed.

(** C3 as stated fails where it asks for reports: the 17th nested call of
    [deep_rom] writes [stack[16]], and a return as the first instruction
    reads [stack[65535]]; neither cycle returns with the machine stopped. *)
Lemma C3_no_stack_report_counterexample :
  cycles 17 (with_rom deep_rom boot) = Unchecked ArrStack 16 /\
  ~ halted (cycles 17 (with_rom deep_rom boot)) /\
  executeCycle return_first = Unchecked ArrStack 65535 /\
  ~ halted (executeCycle return_first).
Proof.
  assert (H1 : cycles 17 (with_rom deep_rom boot) = Unchecked ArrStack 16)
    by (vm_compute; reflexivity).
  assert (H2 : executeCycle return_first = Unchecked ArrStack 65535)
    by (vm_compute; reflexivity).
  split; [exact H1|]. split; [|split; [exact H2|]].
  - rewrite H1. intros (s' & Hs & _). discriminate Hs.
  - rewrite H2. intros (s' & Hs & _). discriminate Hs.
Qed.

(** C3, amended: from an empty stack, 16 nested calls followed by 16
    returns run to the end, and the returns visit the addresses behind the
    calls in reverse order, leaving the stack empty.  The stack is not
    guarded: a 17th nested call writes [stack[16]], outside the array, and
    a return on the empty stack reads [stack[65535]]; nothing is
    reported. *)
Theorem C3_stack_discipline s calls :
  wf s -> sp s = 0 -> length calls = 16%nat ->
  Forall (fun op => Z.land op 0xF000 = 0x2000) calls ->
  (exists tr,
     exec_trace (calls ++ replicate 16 0x00EE) s = Ret tr /\
     map pc tr
     = map OP_NNN calls ++ reverse (return_addresses (pc s) calls) /\
     sp (last_state s tr) = 0) /\
  (forall op, Z.land op 0xF000 = 0x2000 ->
     exec_trace (calls ++ [op]) s = Unchecked ArrStack 16) /\
  exec_op 0x00EE s = Unchecked ArrStack 65535.
Proof.
  intros Hwf Hsp Hlen Hcalls.
  destruct (calls_trace calls s Hwf Hcalls)
    as (tr1 & Htr1 & Hpcs1 & Hwf1 & Hsp1 & Hlive1); [lia|].
  assert (Hra : length (return_addresses (pc s) calls) = 16%nat).
  { rewrite <- Hlen. clear. generalize (pc s).
    induction calls as [|op calls IH]; intros p; simpl; [|rewrite IH];
      reflexivity. }
  split; [|split].
  - destruct (returns_trace (return_addresses (pc s) calls) (live_stack s)
                (last_state s tr1) Hwf1) as (tr2 & Htr2 & Hpcs2 & Hsp2);
      [lia | exact Hlive1 |].
    exists (tr1 ++ tr2). rewrite exec_trace_app, Htr1, bind_Ret.
    rewrite Hra in Htr2. rewrite Htr2, bind_Ret.
    split; [reflexivity|]. split.
    + rewrite map_app, Hpcs1, Hpcs2. reflexivity.
    + rewrite last_state_app, Hsp2, Hsp1, Hra. lia.
  - intros op Hop. rewrite exec_trace_app, Htr1, bind_Ret.
    rewrite exec_trace_cons, call_Unchecked by (try assumption; lia).
    rewrite Hsp1, Hsp, Hlen. reflexivity.
  - apply ret_Unchecked; assumption.
Qed.

Lemma C3_stack_discipline_witness :
  wf (with_rom nested_rom boot) /\ sp (with_rom nested_rom boot) = 0 /\
  length nested_calls = 16%nat /\
  (exists tr,
     exec_trace (nested_calls ++ replicate 16 0x00EE)
                (with_rom nested_rom boot) = Ret tr /\
     map pc tr
     = [0x204; 0x208; 0x20C; 0x210; 0x214; 0x218; 0x21C; 0x220;
        0x224; 0x228; 0x22C; 0x230; 0x234; 0x238; 0x23C; 0x240;
        0x23E; 0x23A; 0x236; 0x232; 0x22E; 0x22A; 0x226; 0x222;
        0x21E; 0x21A; 0x216; 0x212; 0x20E; 0x20A; 0x206; 0x202]) /\
  exec_trace (nested_calls ++ [0x2300]) (with_rom nested_rom boot)
  = Unchecked ArrStack 16.
Proof.
  assert (Hwf : wf (with_rom nested_rom boot))
    by (apply wf_b_sound; vm_compute; reflexivity).
  assert (Hcalls : Forall (fun op => Z.land op 0xF000 = 0x2000) nested_calls)
    by (repeat constructor).
  destruct (C3_stack_discipline (with_rom nested_rom boot) nested_calls
              Hwf eq_refl eq_refl Hcalls) as ((tr & Htr & Hpcs & _) & Hfull & _).
  split; [exact Hwf|]. split; [reflexivity|]. split; [reflexivity|]. split.
  - exists tr. split; [exact Htr|]. rewrite Hpcs. vm_compute. reflexivity.
  - apply Hfull. reflexivity.
Defined.

(** The same on the machine itself: [nested_rom] holds the 16 calls and the
    16 returns, and 32 cycles bring [pc] back behind the first call with
    the stack empty. *)
Lemma nested_rom_cycles :
  exists s', cycles 32 (with_rom nested_rom boot) = Ret s' /\
    pc s' = 0x202 /\ sp s' = 0.
Proof.
  eexists. split; [vm_compute; reflexivity|]. split; reflexivity.
Qed.

(** ** DXYN *)

Lemma draw_frame_refl s :
  length (gfx s) = GFX_SIZE -> length (V s) = NUM_REGS -> draw_frame s s.
Proof. intros. repeat split; assumption. Qed.

Lemma toggled_none s : toggled (fun _ => False) s s.
Proof. intros p Hp. split; [contradiction | reflexivity]. Qed.

Lemma toggled_ext (T T' : nat -> Prop) s s' :
  (forall p, T p <-> T' p) -> toggled T s s' -> toggled T' s s'.
Proof.
  intros Hext Ht p Hp. destruct (Ht p Hp) as [Hin Hout]. split.
  - intros HT. apply Hin, Hext, HT.
  - intros HT. apply Hout. intros HT'. apply HT, Hext, HT'.
Qed.

(** Two rounds that flip disjoint sets of pixels. *)
Lemma toggled_trans (T1 T2 : nat -> Prop) s s1 s2 :
  length (gfx s1) = GFX_SIZE ->
  (forall p, T1 p -> T2 p -> False) ->
  toggled T1 s s1 -> toggled T2 s1 s2 ->
  toggled (fun p => T1 p \/ T2 p) s s2.
Proof.
  intros _ Hdisj H1 H2 p Hp.
  destruct (H1 p Hp) as [H1in H1out]. destruct (H2 p Hp) as [H2in H2out].
  split.
  - intros [HT|HT].
    + rewrite H2out, H1in; [reflexivity | assumption | eauto].
    + rewrite H2in, H1out; [reflexivity | eauto | assumption].
  - intros Hnot. rewrite H2out, H1out; [reflexivity | tauto | tauto].
Qed.

(** A loop whose rounds flip disjoint sets of pixels flips their union. *)
Lemma for_loop_toggled (P : cpu -> Prop) (T : Z -> nat -> Prop)
    (body : Z -> cpu -> outcome cpu) (lo hi : Z) :
  (forall s, P s -> length (gfx s) = GFX_SIZE) ->
  (forall i s, lo <= i < hi -> P s ->
     exists s', body i s = Ret s' /\ P s' /\ toggled (T i) s s') ->
  (forall i j p, lo <= i < hi -> lo <= j < hi -> T i p -> T j p -> i = j) ->
  forall n i s, lo <= i -> i + Z.of_nat n <= hi -> P s ->
    exists s', for_loop n i body s = Ret s' /\ P s' /\
      toggled (fun p => exists j, i <= j < i + Z.of_nat n /\ T j p) s s'.
Proof.
  intros Hlen Hbody Hdisj. induction n as [|n IH]; intros i s Hi Hn HP.
  - exists s. split; [reflexivity|]. split; [assumption|].
    apply (toggled_ext (fun _ => False)); [|apply toggled_none].
    intros p. split; [contradiction|]. intros (j & Hj & _). lia.
  - destruct (Hbody i s) as (s1 & Hb & HP1 & Ht1); [lia | assumption |].
    destruct (IH (i + 1) s1) as (s' & Hloop & HP' & Ht'); [lia | lia | assumption |].
    exists s'. rewrite for_loop_S, Hb, bind_Ret.
    split; [exact Hloop|]. split; [exact HP'|].
    apply (toggled_ext
             (fun p => T i p \/
                       exists j, i + 1 <= j < i + 1 + Z.of_nat n /\ T j p)).
    + intros p. split.
      * intros [HT|(j & Hj & HT)]; [exists i | exists j]; split;
          try assumption; lia.
      * intros (j & Hj & HT). destruct (decide (j = i)) as [->|Hne].
        -- left. assumption.
        -- right. exists j. split; [lia | assumption].
    + apply (toggled_trans _ _ s s1 s'); try assumption.
      * apply Hlen. assumption.
      * intros p HT (j & Hj & HTj).
        assert (i = j) by (apply (Hdisj i j p); try assumption; lia). lia.
Qed.

(** One bit of a sprite row. *)
Lemma draw_bit_spec s0 x y height pixel bit s :
  0 <= x < 64 -> 0 <= bit -> draw_frame s0 s ->
  exists s', draw_bit x y height pixel bit s = Ret s' /\
    draw_frame s0 s' /\ toggled (bit_hits x y height pixel bit) s s'.
Proof.
  intros Hx Hbit (Hm & HI & Hg & Hv & Hr & Hl & Hpc).
  unfold GFX_SIZE in Hg.
  unfold draw_bit.
  destruct (decide (x + bit > 64)) as [Hskip|Hcol].
  { exists s. split; [reflexivity|]. split; [repeat split; assumption|].
    apply (toggled_ext (fun _ => False)); [|apply toggled_none].
    intros p. split; [contradiction|]. intros (Hc & _). lia. }
  destruct (decide (Z.land pixel (Z.shiftr 128 bit) <> 0)) as [Hset|Hclear].
  2:{ exists s. split; [reflexivity|]. split; [repeat split; assumption|].
      apply (toggled_ext (fun _ => False)); [|apply toggled_none].
      intros p. split; [contradiction|]. intros (_ & Hc & _). contradiction. }
  pose proof (Z.mod_pos_bound (x + bit) 64 ltac:(lia)) as HdX.
  pose proof (Z.mod_pos_bound (y + height) 32 ltac:(lia)) as HdY.
  assert (HuX : u16 ((x + bit) mod 64) = (x + bit) mod 64)
    by (apply u16_id; unfold is_u16; lia).
  assert (HuY : u16 ((y + height) mod 32) = (y + height) mod 32)
    by (apply u16_id; unfold is_u16; lia).
  rewrite HuX, HuY.
  set (index := (x + bit) mod 64 + (y + height) mod 32 * 64).
  assert (Hidx : 0 <= index < 2048) by (unfold index; lia).
  assert (Hu : u16 index = index) by (apply u16_id; unfold is_u16; lia).
  rewrite Hu.
  rewrite (load_Ret ArrGfx) by lia. rewrite bind_Ret.
  assert (Hgoal : forall s1 : cpu,
    gfx s1 = gfx s -> draw_frame s0 s1 ->
    exists s',
      (load ArrGfx (gfx s1) index ≫= fun g =>
       store ArrGfx (gfx s1) index (xorb g true) ≫= fun l =>
       mret (set_gfx l s1)) = Ret s' /\
      draw_frame s0 s' /\
      toggled (bit_hits x y height pixel bit) s s').
  { intros s1 Hg1 (Hm1 & HI1 & Hgl1 & Hv1 & Hr1 & Hl1 & Hpc1).
    unfold GFX_SIZE in Hgl1.
    rewrite (load_Ret ArrGfx) by lia. rewrite bind_Ret.
    rewrite store_Ret by lia. rewrite bind_Ret.
    eexists. split; [reflexivity|]. split.
    - repeat split; simpl; try assumption.
      rewrite length_insert. assumption.
    - intros p Hp. unfold GFX_SIZE in Hp. simpl. rewrite Hg1. split.
      + intros (_ & _ & Hpi). fold index in Hpi.
        replace (Z.to_nat index) with p by lia.
        rewrite list_lookup_total_insert_eq by lia.
        apply xorb_true_r.
      + intros Hnot. apply list_lookup_total_insert_ne.
        intros Heq. apply Hnot. repeat split; try assumption; try lia. }
  destruct (gfx s !!! Z.to_nat index).
  - rewrite wrV_len by (try assumption; lia). rewrite bind_Ret.
    apply Hgoal; [reflexivity|].
    repeat split; simpl; try assumption.
    rewrite length_insert. assumption.
  - change (mret s ≫= ?f) with (f s). cbv beta.
    apply Hgoal; [reflexivity|]. repeat split; assumption.
Qed.

(** Two bits of a row flip different pixels. *)
Lemma bit_hits_inj x y height pixel b b' p :
  0 <= b < 8 -> 0 <= b' < 8 ->
  bit_hits x y height pixel b p -> bit_hits x y height pixel b' p -> b = b'.
Proof.
  intros Hb Hb' (_ & _ & Hp) (_ & _ & Hp').
  rewrite Hp in Hp'. clear Hp.
  pose proof (Z.div_mod (x + b) 64 ltac:(lia)).
  pose proof (Z.div_mod (x + b') 64 ltac:(lia)).
  pose proof (Z.mod_pos_bound (x + b) 64 ltac:(lia)).
  pose proof (Z.mod_pos_bound (x + b') 64 ltac:(lia)).
  lia.
Qed.

(** Two rows of a sprite flip different pixels. *)
Lemma row_hits_inj s0 x y h h' p :
  0 <= h < 16 -> 0 <= h' < 16 ->
  row_hits s0 x y h p -> row_hits s0 x y h' p -> h = h'.
Proof.
  intros Hh Hh' (_ & b & _ & _ & _ & Hp) (_ & b' & _ & _ & _ & Hp').
  rewrite Hp in Hp'. clear Hp.
  pose proof (Z.mod_pos_bound (x + b) 64 ltac:(lia)).
  pose proof (Z.mod_pos_bound (x + b') 64 ltac:(lia)).
  pose proof (Z.div_mod (y + h) 32 ltac:(lia)).
  pose proof (Z.div_mod (y + h') 32 ltac:(lia)).
  pose proof (Z.mod_pos_bound (y + h) 32 ltac:(lia)).
  pose proof (Z.mod_pos_bound (y + h') 32 ltac:(lia)).
  lia.
Qed.

(** One row of a sprite whose byte lies inside the memory, or which is
    skipped. *)
Lemma draw_row_spec s0 x y height s :
  wf s0 -> 0 <= x < 64 -> 0 <= height ->
  (y + height <= 32 -> I s0 + height < 4096) ->
  draw_frame s0 s ->
  exists s', draw_row x y height s = Ret s' /\
    draw_frame s0 s' /\ toggled (row_hits s0 x y height) s s'.
Proof.
  intros Hwf Hx Hh Hmem Hfr. unfold draw_row.
  destruct (decide (y + height > 32)) as [Hskip|Hin].
  { exists s. split; [reflexivity|]. split; [assumption|].
    apply (toggled_ext (fun _ => False)); [|apply toggled_none].
    intros p. split; [contradiction|]. intros (Hc & _). lia. }
  pose proof (wf_I s0 Hwf) as [HI0 _].
  pose proof (wf_memory_len s0 Hwf) as Hlen. unfold MEMORY_SIZE in Hlen.
  destruct Hfr as (Hm & HI & Hrest). rewrite Hm, HI.
  rewrite load_Ret by lia. rewrite bind_Ret.
  destruct (for_loop_toggled (draw_frame s0)
              (bit_hits x y height (byte_at s0 (I s0 + height)))
              (draw_bit x y height (byte_at s0 (I s0 + height))) 0 8)
    with (n := 8%nat) (i := 0) (s := s) as (s' & Hloop & Hfr' & Ht).
  - intros s1 Hs1. apply Hs1.
  - intros i s1 Hi Hs1. apply (draw_bit_spec s0); try assumption; lia.
  - intros i j p Hi Hj. apply bit_hits_inj; assumption.
  - lia.
  - simpl. lia.
  - split; [assumption|]. split; assumption.
  - exists s'. split; [exact Hloop|]. split; [exact Hfr'|].
    refine (toggled_ext _ _ _ _ _ Ht).
    intros p. unfold row_hits. simpl. split.
    + intros (j & Hj & HT). split; [lia|]. exists j. split; [lia | assumption].
    + intros (_ & j & Hj & HT). exists j. split; [lia | assumption].
Qed.

(** The whole draw, when the sprite rows that are not skipped lie inside
    the memory. *)
Lemma op_DXYN_spec s :
  wf s ->
  let x := reg s (OP_X (opcode s)) mod 64 in
  let y := reg s (OP_Y (opcode s)) mod 32 in
  let n := OP_N (opcode s) in
  (forall h, 0 <= h < n -> y + h <= 32 -> I s + h < 4096) ->
  exists s', op_DXYN s = Ret s' /\
    running s' = running s /\ log s' = log s /\ pc s' = pc s /\
    breakIPF s' = true /\ draw s' = true /\
    toggled (fun p => exists h, 0 <= h < n /\ row_hits s x y h p) s s'.
Proof.
  intros Hwf x y n Hmem.
  pose proof (OP_X_range (opcode s)) as HX.
  pose proof (OP_Y_range (opcode s)) as HY.
  pose proof (OP_N_range (opcode s)) as HN. fold n in HN.
  pose proof (Z.mod_pos_bound (reg s (OP_X (opcode s))) 64 ltac:(lia)) as Hx.
  pose proof (Z.mod_pos_bound (reg s (OP_Y (opcode s))) 32 ltac:(lia)) as Hy.
  fold x in Hx. fold y in Hy.
  unfold op_DXYN. regs_run Hwf. fold x y n.
  rewrite (u16_id x), (u16_id y), (u16_id n) by (unfold is_u16; lia).
  set (sa := set_V (<[Z.to_nat 15 := 0]> (V s)) s).
  assert (Hfr : draw_frame s sa).
  { repeat split; simpl; try apply Hwf.
    rewrite length_insert. apply Hwf. }
  destruct (for_loop_toggled (draw_frame s) (row_hits s x y)
              (draw_row x y) 0 n)
    with (n := Z.to_nat n) (i := 0) (s := sa) as (s' & Hloop & Hfr' & Ht).
  - intros s1 Hs1. apply Hs1.
  - intros i s1 Hi Hs1. apply draw_row_spec; try assumption; try lia.
    intros Hrow. apply Hmem; assumption.
  - intros i j p Hi Hj. apply row_hits_inj; lia.
  - lia.
  - lia.
  - exact Hfr.
  - rewrite Hloop, bind_Ret. eexists. split; [reflexivity|].
    destruct Hfr' as (_ & _ & _ & _ & Hr & Hl & Hpc). simpl.
    repeat (split; [assumption || reflexivity|]).
    refine (toggled_ext _ _ _ _ _ Ht).
    intros p. split; intros (h & Hh & HT); exists h; (split; [lia | exact HT]).
Qed.

(** The rows loop reads a row outside the memory. *)
Lemma draw_rows_unchecked s0 x y (n : nat) : forall h s,
  wf s0 -> 0 <= x < 64 -> 0 <= h -> draw_frame s0 s ->
  (exists r, h <= r < h + Z.of_nat n /\ y + r <= 32 /\ 4096 <= I s0 + r) ->
  exists r, h <= r < h + Z.of_nat n /\ y + r <= 32 /\ 4096 <= I s0 + r /\
    for_loop n h (draw_row x y) s = Unchecked ArrMemory (I s0 + r).
Proof.
  induction n as [|n IH]; intros h s Hwf Hx Hh Hfr (r & Hr & Hrow & Hout);
    [lia|].
  pose proof (wf_memory_len s0 Hwf) as Hlen. unfold MEMORY_SIZE in Hlen.
  rewrite for_loop_S.
  destruct (decide (y + h <= 32 /\ 4096 <= I s0 + h)) as [[Hrow0 Hout0]|Hok].
  - exists h. split; [lia|]. split; [assumption|]. split; [assumption|].
    unfold draw_row. rewrite decide_False by lia.
    destruct Hfr as (Hm & HI & _). rewrite Hm, HI.
    rewrite load_Unchecked by lia. reflexivity.
  - destruct (draw_row_spec s0 x y h s) as (s1 & Hb & Hfr1 & _);
      try assumption; [lia|].
    rewrite Hb, bind_Ret.
    destruct (IH (h + 1) s1 Hwf Hx ltac:(lia) Hfr1) as (r' & Hr' & Hres).
    + exists r. split; [|split; assumption].
      destruct (decide (r = h)) as [->|]; [|lia]. exfalso. apply Hok. lia.
    + exists r'. split; [lia | exact Hres].
Qed.

(** C5 as stated fails at the exact boundary.  The glyph rows F0 and 90
    are drawn from column 61 of row 31.  Row 1 has [y + row = 32] and is
    not skipped: its bit 0 lights pixel (61, 0).  Bit 3 of row 0 has
    [x + bit = 64] and is not skipped: it lights pixel (0, 31). *)
Lemma C5_exact_boundary_is_drawn_counterexample :
  fetch draw_D012 = Ret 0xD012 /\
  reg draw_D012 0 mod 64 = 61 /\ reg draw_D012 1 mod 32 = 31 /\
  byte_at draw_D012 0 = 0xF0 /\ byte_at draw_D012 1 = 0x90 /\
  exists s', executeCycle draw_D012 = Ret s' /\
    pixel_at draw_D012 61 0 = false /\ pixel_at s' 61 0 = true /\
    pixel_at draw_D012 0 31 = false /\ pixel_at s' 0 31 = true.
Proof.
  repeat (split; [vm_compute; reflexivity|]).
  eexists. split; [vm_compute; reflexivity|].
  vm_compute. repeat split; reflexivity.
Qed.

(** C5, amended: with [x = V[X] mod 64] and [y = V[Y] mod 32], the draw
    flips exactly the pixels [((x + bit) mod 64, (y + row) mod 32)] of the
    set sprite bits with [y + row <= 32] and [x + bit <= 64].  So a row
    with [y + row = 32] is drawn in row 0 and a bit with [x + bit = 64] in
    column 0; rows beyond 32 and bits beyond 64 are skipped.  The sprite
    rows that are read lie inside the memory. *)
Theorem C5_draw_boundary s op :
  wf s -> fetch s = Ret op -> Z.land op 0xF000 = 0xD000 ->
  let x := reg s (OP_X op) mod 64 in
  let y := reg s (OP_Y op) mod 32 in
  (forall row, 0 <= row < OP_N op -> y + row <= 32 -> I s + row <= 0xFFF) ->
  exists s', executeCycle s = Ret s' /\
    forall cx cy, 0 <= cx < 64 -> 0 <= cy < 32 ->
      let drawn :=
        exists row bit,
          0 <= row < OP_N op /\ 0 <= bit < 8 /\
          y + row <= 32 /\ x + bit <= 64 /\
          Z.land (byte_at s (I s + row)) (Z.shiftr 0x80 bit) <> 0 /\
          cx = (x + bit) mod 64 /\ cy = (y + row) mod 32 in
      (drawn -> pixel_at s' cx cy = negb (pixel_at s cx cy)) /\
      (~ drawn -> pixel_at s' cx cy = pixel_at s cx cy).
Proof.
  intros Hwf Hf H x y Hmem.
  rewrite (executeCycle_fetch _ _ Hf), exec_DXYN by assumption.
  destruct (op_DXYN_spec (advance op s)) as (s' & He & _ & _ & _ & _ & _ & Ht).
  - apply wf_advance. assumption.
  - intros h Hh Hrow. specialize (Hmem h Hh Hrow). simpl. lia.
  - exists s'. split; [exact He|]. intros cx cy Hcx Hcy drawn.
    destruct (Ht (Z.to_nat (cx + cy * 64))) as [Hin Hout];
      [unfold GFX_SIZE; lia|].
    assert (Hiff : drawn <->
      exists h, 0 <= h < OP_N (opcode (advance op s)) /\
        row_hits (advance op s) x y h (Z.to_nat (cx + cy * 64))).
    { subst drawn. unfold row_hits, bit_hits.
      change (opcode (advance op s)) with op.
      change (byte_at (advance op s)) with (byte_at s).
      change (I (advance op s)) with (I s). split.
      - intros (row & bit & Hr & Hb & Hy & Hx & Hset & -> & ->).
        exists row. split; [assumption|]. split; [assumption|].
        exists bit. repeat split; try assumption; lia.
      - intros (row & Hr & Hy & bit & Hb & Hx & Hset & Hp).
        exists row, bit.
        pose proof (Z.mod_pos_bound (x + bit) 64 ltac:(lia)).
        pose proof (Z.mod_pos_bound (y + row) 32 ltac:(lia)).
        repeat split; try assumption; lia. }
    unfold pixel_at. change (gfx (advance op s)) with (gfx s) in Hin, Hout.
    split.
    + intros Hd. apply Hin, Hiff, Hd.
    + intros Hd. apply Hout. intros Hr. apply Hd, Hiff, Hr.
Qed.

Lemma C5_draw_boundary_witness :
  wf draw_D012 /\ fetch draw_D012 = Ret 0xD012 /\
  exists s', executeCycle draw_D012 = Ret s' /\
    pixel_at s' 61 0 = negb (pixel_at draw_D012 61 0) /\
    pixel_at s' 5 5 = pixel_at draw_D012 5 5.
Proof.
  assert (Hwf : wf draw_D012) by (apply wf_b_sound; vm_compute; reflexivity).
  assert (Hf : fetch draw_D012 = Ret 0xD012) by (vm_compute; reflexivity).
  split; [exact Hwf|]. split; [exact Hf|].
  destruct (C5_draw_boundary draw_D012 0xD012 Hwf Hf eq_refl) as (s' & He & Hpix).
  - intros row Hrow _. change (I draw_D012) with 0.
    change (OP_N 0xD012) with 2 in Hrow. lia.
  - exists s'. split; [exact He|]. split.
    + apply (Hpix 61 0); [lia | lia |].
      exists 1, 0. change (OP_N 0xD012) with 2.
      repeat split; try lia; vm_compute; discriminate.
    + apply (Hpix 5 5); [lia | lia |].
      intros (row & bit & Hr & Hb & _ & _ & _ & Hcx & _).
      change (reg draw_D012 (OP_X 53266) `mod` 64) with 61 in Hcx.
      assert (Hc : bit = 0 \/ bit = 1 \/ bit = 2 \/ bit = 3 \/ bit = 4 \/
                   bit = 5 \/ bit = 6 \/ bit = 7) by lia.
      destruct Hc as [->|[->|[->|[->|[->|[->|[->| ->]]]]]]];
        vm_compute in Hcx; discriminate Hcx.
Defined.

(** ** Memory accesses through I *)

(** FX33 inside the memory. *)
Lemma op_FX33_Ret s :
  wf s -> I s + 2 < 4096 ->
  let number := reg s (OP_X (opcode s)) in
  op_FX33 s
  = Ret (set_memory
           (<[Z.to_nat (I s + 2) := u8 (number mod 10)]>
              (<[Z.to_nat (I s + 1) := u8 (number / 10 mod 10)]>
                 (<[Z.to_nat (I s) := u8 (number / 100)]> (memory s)))) s).
Proof.
  intros Hwf HI number. pose proof (wf_I s Hwf) as [HI0 _].
  pose proof (wf_memory_len s Hwf) as Hlen. unfold MEMORY_SIZE in Hlen.
  pose proof (OP_X_range (opcode s)) as HX.
  unfold op_FX33. regs_run Hwf. fold number.
  rewrite store_Ret by lia. rewrite bind_Ret. simpl.
  rewrite store_Ret by (rewrite length_insert; lia). rewrite bind_Ret. simpl.
  rewrite store_Ret by (rewrite !length_insert; lia). reflexivity.
Qed.

(** FX33 at the end of the memory: one of its three stores is outside. *)
Lemma op_FX33_Unchecked s :
  wf s -> 4096 <= I s + 2 ->
  exists a, 4096 <= a /\ I s <= a <= I s + 2 /\
    op_FX33 s = Unchecked ArrMemory a.
Proof.
  intros Hwf HI. pose proof (wf_I s Hwf) as [HI0 _].
  pose proof (wf_memory_len s Hwf) as Hlen. unfold MEMORY_SIZE in Hlen.
  pose proof (OP_X_range (opcode s)) as HX.
  unfold op_FX33. regs_run Hwf.
  destruct (decide (I s < 4096)) as [H0|H0].
  2:{ exists (I s). split; [lia|]. split; [lia|].
      rewrite store_Unchecked by lia. reflexivity. }
  rewrite store_Ret by lia. rewrite bind_Ret. simpl.
  destruct (decide (I s + 1 < 4096)) as [H1|H1].
  2:{ exists (I s + 1). split; [lia|]. split; [lia|].
      rewrite store_Unchecked by (rewrite length_insert; lia). reflexivity. }
  rewrite store_Ret by (rewrite length_insert; lia). rewrite bind_Ret. simpl.
  exists (I s + 2). split; [lia|]. split; [lia|].
  rewrite store_Unchecked by (rewrite !length_insert; lia). reflexivity.
Qed.

(** C2 as stated fails: FX33 with I = 0xFFF stores the hundreds at 0xFFF
    and then the tens at 0x1000, outside the memory; the cycle does not
    return with the machine stopped. *)
Lemma C2_access_beyond_memory_counterexample :
  fetch bcd_at_end = Ret 0xF033 /\ I bcd_at_end + 1 > 0xFFF /\
  executeCycle bcd_at_end = Unchecked ArrMemory 0x1000 /\
  ~ halted (executeCycle bcd_at_end).
Proof.
  assert (H : executeCycle bcd_at_end = Unchecked ArrMemory 0x1000)
    by (vm_compute; reflexivity).
  split; [vm_compute; reflexivity|]. split; [vm_compute; reflexivity|].
  split; [exact H|]. rewrite H. intros (s' & Hs & _). discriminate Hs.
Qed.

(** C2, amended: the accesses through I are not guarded.  FX33 reaches
    [I .. I + 2], FX55 and FX65 reach [I .. I + X], and DXYN reads
    [I + row] for the rows [row < N] with [y + row <= 32].  When all of
    these are at most 0xFFF the cycle returns, the machine still running
    as before and nothing logged; when one of them is above 0xFFF the
    cycle makes an access above 0xFFF, outside the array. *)
Theorem C2_memory_access_unchecked s op :
  wf s -> fetch s = Ret op ->
  let ok :=
    exists s', executeCycle s = Ret s' /\
      running s' = running s /\ log s' = log s in
  let outside lo hi :=
    exists a, 0xFFF < a /\ lo <= a <= hi /\
      executeCycle s = Unchecked ArrMemory a in
  let y := reg s (OP_Y op) mod 32 in
  (Z.land op 0xF0FF = 0xF033 ->
   (I s + 2 <= 0xFFF -> ok) /\
   (0xFFF < I s + 2 -> outside (I s) (I s + 2))) /\
  (Z.land op 0xF0FF = 0xF055 \/ Z.land op 0xF0FF = 0xF065 ->
   (I s + OP_X op <= 0xFFF -> ok) /\
   (0xFFF < I s + OP_X op -> outside (I s) (I s + OP_X op))) /\
  (Z.land op 0xF000 = 0xD000 ->
   ((forall row, 0 <= row < OP_N op -> y + row <= 32 ->
       I s + row <= 0xFFF) -> ok) /\
   ((exists row, 0 <= row < OP_N op /\ y + row <= 32 /\
       0xFFF < I s + row) ->
    exists row, 0 <= row < OP_N op /\ y + row <= 32 /\
      0xFFF < I s + row /\
      executeCycle s = Unchecked ArrMemory (I s + row))).
Proof.
  intros Hwf Hf ok outside y. subst ok outside y.
  pose proof (wf_advance op s Hwf) as Hwfa.
  pose proof (OP_X_range op) as HX.
  rewrite (executeCycle_fetch _ _ Hf).
  split; [|split].
  - intros H. rewrite exec_FX33 by assumption. split; intros HI.
    + rewrite op_FX33_Ret by (try assumption; simpl; lia).
      eexists. split; [reflexivity|]. split; reflexivity.
    + destruct (op_FX33_Unchecked (advance op s) Hwfa) as (a & Ha & Hr & He);
        [simpl; lia|].
      exists a. simpl in Hr. split; [lia|]. split; [lia | exact He].
  - intros [H|H].
    + rewrite exec_FX55 by assumption. unfold op_FX55.
      change (opcode (advance op s)) with op. split; intros HI.
      * destruct (store_loop (Z.to_nat (OP_X op + 1)) 0 (advance op s))
          as (s' & He & _ & _ & _ & _ & Hr & Hl & _);
          [assumption | lia | lia | simpl; lia |].
        exists s'. split; [exact He|]. split; assumption.
      * destruct (store_loop_unchecked (Z.to_nat (OP_X op + 1)) 0
                    (advance op s)) as (a & Ha & Hge & He);
          [assumption | lia | lia | lia | simpl; lia |].
        exists a. simpl in Ha, Hge. split; [lia|]. split; [lia | exact He].
    + rewrite exec_FX65 by assumption. unfold op_FX65.
      change (opcode (advance op s)) with op. split; intros HI.
      * destruct (load_loop (Z.to_nat (OP_X op + 1)) 0 (advance op s))
          as (s' & He & _ & _ & _ & _ & Hr & Hl & _);
          [assumption | lia | lia | simpl; lia |].
        exists s'. split; [exact He|]. split; assumption.
      * destruct (load_loop_unchecked (Z.to_nat (OP_X op + 1)) 0
                    (advance op s)) as (a & Ha & Hge & He);
          [assumption | lia | lia | lia | simpl; lia |].
        exists a. simpl in Ha, Hge. split; [lia|]. split; [lia | exact He].
  - intros H. rewrite exec_DXYN by assumption. split.
    + intros Hmem.
      destruct (op_DXYN_spec (advance op s) Hwfa)
        as (s' & He & Hr & Hl & _).
      * intros h Hh Hrow. specialize (Hmem h Hh Hrow). simpl. lia.
      * exists s'. split; [exact He|]. split; assumption.
    + intros Hrow.
      pose proof (OP_Y_range op) as HY.
      pose proof (OP_N_range op) as HN.
      pose proof (Z.mod_pos_bound (reg s (OP_X op)) 64 ltac:(lia)) as Hx.
      pose proof (Z.mod_pos_bound (reg s (OP_Y op)) 32 ltac:(lia)) as Hy.
      unfold op_DXYN. change (opcode (advance op s)) with op.
      regs_run Hwfa.
      change (reg (advance op s)) with (reg s).
      rewrite (u16_id (reg s (OP_X op) mod 64)),
        (u16_id (reg s (OP_Y op) mod 32)), (u16_id (OP_N op))
        by (unfold is_u16; lia).
      destruct (draw_rows_unchecked (advance op s)
                  (reg s (OP_X op) mod 64) (reg s (OP_Y op) mod 32)
                  (Z.to_nat (OP_N op)) 0
                  (set_V (<[Z.to_nat 15 := 0]> (V (advance op s)))
                     (advance op s)))
        as (r & Hr & Hyr & Hout & He); try assumption; try lia.
      * repeat split; simpl; try apply Hwf.
        rewrite length_insert. apply Hwf.
      * destruct Hrow as (r & Hr & Hyr & Hout). exists r.
        simpl. repeat split; lia.
      * exists r. simpl in Hout. repeat split; try lia.
        rewrite He. reflexivity.
Qed.

Lemma C2_memory_access_unchecked_witness :
  wf bcd_F033 /\ fetch bcd_F033 = Ret 0xF033 /\
  wf bcd_at_end /\ fetch bcd_at_end = Ret 0xF033 /\
  (exists s', executeCycle bcd_F033 = Ret s' /\
     running s' = running bcd_F033 /\ log s' = log bcd_F033) /\
  (exists a, 0xFFF < a /\ executeCycle bcd_at_end = Unchecked ArrMemory a).
Proof.
  assert (Hwf : wf bcd_F033) by (apply wf_b_sound; vm_compute; reflexivity).
  assert (Hf : fetch bcd_F033 = Ret 0xF033) by (vm_compute; reflexivity).
  assert (Hwf' : wf bcd_at_end)
    by (apply wf_b_sound; vm_compute; reflexivity).
  assert (Hf' : fetch bcd_at_end = Ret 0xF033) by (vm_compute; reflexivity).
  repeat (split; [assumption|]). split.
  - destruct (C2_memory_access_unchecked bcd_F033 0xF033 Hwf Hf)
      as (H33 & _).
    destruct (H33 eq_refl) as [Hin _]. apply Hin. vm_compute. discriminate.
  - destruct (C2_memory_access_unchecked bcd_at_end 0xF033 Hwf' Hf')
      as (H33 & _).
    destruct (H33 eq_refl) as [_ Hout].
    destruct Hout as (a & Ha & _ & He); [vm_compute; reflexivity|].
    exists a. split; assumption.
Defined.

(** * Further properties of the code *)

(** ** All opcodes *)

(** The two switches of [execute] reach an instruction or fall through an
    inner switch; the [default] label of the outer switch has no opcode
    left. *)
Lemma execute_cases (Q : outcome cpu -> Prop) s :
  Q (Ret s) ->
  Q (op_00E0 s) -> Q (op_00EE s) -> Q (op_1NNN s) -> Q (op_2NNN s) ->
  Q (op_3XNN s) -> Q (op_4XNN s) -> Q (op_5XY0 s) -> Q (op_6XNN s) ->
  Q (op_7XNN s) -> Q (op_8XY0 s) -> Q (op_logic Z.lor s) ->
  Q (op_logic Z.land s) -> Q (op_logic Z.lxor s) -> Q (op_8XY4 s) ->
  Q (op_8XY5 s) -> Q (op_8XY6 s) -> Q (op_8XY7 s) -> Q (op_8XYE s) ->
  Q (op_9XY0 s) -> Q (op_ANNN s) -> Q (op_BNNN s) -> Q (op_CXNN s) ->
  Q (op_DXYN s) -> Q (op_EX9E s) -> Q (op_EXA1 s) -> Q (op_FX0A s) ->
  Q (op_FX07 s) -> Q (op_FX15 s) -> Q (op_FX18 s) -> Q (op_FX1E s) ->
  Q (op_FX29 s) -> Q (op_FX33 s) -> Q (op_FX55 s) -> Q (op_FX65 s) ->
  Q (execute s).
Proof.
  intros. unfold execute. rewrite land_0xF000.
  pose proof (Z.mod_pos_bound (opcode s / 4096) 16 ltac:(lia)) as Hk.
  set (k := (opcode s / 4096) mod 16) in *.
  assert (Hc : k = 0 \/ k = 1 \/ k = 2 \/ k = 3 \/ k = 4 \/ k = 5 \/ k = 6 \/
               k = 7 \/ k = 8 \/ k = 9 \/ k = 10 \/ k = 11 \/ k = 12 \/
               k = 13 \/ k = 14 \/ k = 15) by lia.
  clearbody k.
  destruct Hc as [->|[->|[->|[->|[->|[->|[->|[->|[->|[->|[->|[->|[->|[->|[->| ->]]]]]]]]]]]]]]];
    match goal with
    | |- context [4096 * ?c] =>
        let v := eval vm_compute in (4096 * c) in change (4096 * c) with v
    end; cbv iota; try assumption;
    repeat case_match; assumption.
Qed.

(** [invert_run]: a run that returned is taken apart into its steps. *)
Ltac invert_step :=
  match goal with
  | H : Ret _ = Ret _ |- _ => injection H as H; try subst
  | H : mret _ = Ret _ |- _ => change (@mret outcome _ _ ?x) with (Ret x) in H
  | H : Unchecked _ _ = Ret _ |- _ => discriminate H
  | H : _ ≫= _ = Ret _ |- _ =>
      let a := fresh "a" in let Ha := fresh "Ha" in
      apply bind_inv in H as (a & Ha & H)
  | H : rdV _ _ = Ret _ |- _ => unfold rdV in H
  | H : wrV _ _ _ = Ret _ |- _ => unfold wrV in H
  | H : store _ _ _ _ = Ret _ |- _ =>
      let Hr := fresh "Hr" in apply store_inv in H as [Hr ->]
  | H : load _ _ _ = Ret _ |- _ =>
      let Hr := fresh "Hr" in let Hv := fresh "Hv" in
      apply load_inv in H as [Hr Hv]
  | H : (if ?c then _ else _) = Ret _ |- _ => destruct c
  | H : (let '(_, _) := ?p in _) = Ret _ |- _ => destruct p
  end.

Ltac invert_run := repeat invert_step.

Lemma untouched_refl s : untouched s s.
Proof. repeat split. Qed.

Lemma untouched_trans s1 s2 s3 :
  untouched s1 s2 -> untouched s2 s3 -> untouched s1 s3.
Proof.
  intros (? & ? & ? & ? & ?) (? & ? & ? & ? & ?).
  repeat split; congruence.
Qed.

Lemma key_scan_untouched n : forall i s b s',
  key_scan n i s = Ret (b, s') -> untouched s s'.
Proof.
  induction n as [|n IH]; intros i s b s' H; simpl in H.
  - invert_run. apply untouched_refl.
  - apply bind_inv in H as (p & _ & H).
    apply bind_inv in H as (hit & _ & H).
    destruct hit.
    + invert_run. repeat split.
    + eapply IH. exact H.
Qed.

Lemma for_loop_untouched body :
  (forall i s s', body i s = Ret s' -> untouched s s') ->
  forall n i s s', for_loop n i body s = Ret s' -> untouched s s'.
Proof.
  intros Hbody n i s s' H.
  apply (for_loop_inv (untouched s) body) with (n := n) (i := i) (s := s);
    [|apply untouched_refl | exact H].
  intros j s1 s2 Hs1 Hb. eapply untouched_trans; [exact Hs1 | eauto].
Qed.

Lemma draw_bit_untouched x y h pixel i s s' :
  draw_bit x y h pixel i s = Ret s' -> untouched s s'.
Proof. unfold draw_bit. intros H. invert_run; repeat split. Qed.

Lemma draw_row_untouched x y i s s' :
  draw_row x y i s = Ret s' -> untouched s s'.
Proof.
  unfold draw_row. intros H. destruct (decide _); invert_run.
  - apply untouched_refl.
  - eapply for_loop_untouched; [|exact H].
    intros. eapply draw_bit_untouched. eassumption.
Qed.

Lemma store_reg_untouched i s s' : store_reg i s = Ret s' -> untouched s s'.
Proof. unfold store_reg. intros H. invert_run. repeat split. Qed.

Lemma load_reg_untouched i s s' : load_reg i s = Ret s' -> untouched s s'.
Proof. unfold load_reg. intros H. invert_run. repeat split. Qed.

Lemma execute_untouched s s' : execute s = Ret s' -> untouched s s'.
Proof.
  revert s'. apply execute_cases; intros s' H;
    try (unfold op_00E0, op_00EE, op_1NNN, op_2NNN, op_3XNN, op_4XNN,
           op_5XY0, op_6XNN, op_7XNN, op_8XY0, op_logic, op_8XY4, op_8XY5,
           op_8XY6, op_8XY7, op_8XYE, op_9XY0, op_ANNN, op_BNNN, op_CXNN,
           op_EX9E, op_EXA1, op_FX07, op_FX15, op_FX18, op_FX1E, op_FX29,
           op_FX33, skip_if in H;
         invert_run; repeat split; simpl; repeat case_match; reflexivity).
  - (* DXYN *)
    unfold op_DXYN in H. invert_run.
    match goal with
    | Hl : for_loop _ _ _ _ = Ret _ |- _ =>
        apply for_loop_untouched in Hl;
          [destruct Hl as (? & ? & ? & ? & ?)
          |intros; eapply draw_row_untouched; eassumption]
    end.
    repeat split; assumption.
  - (* FX0A *)
    unfold op_FX0A in H. apply bind_inv in H as ([b s1] & Hscan & H).
    apply key_scan_untouched in Hscan.
    destruct b; invert_run; destruct Hscan as (? & ? & ? & ? & ?);
      repeat split; assumption.
  - unfold op_FX55 in H. eapply for_loop_untouched; [|exact H].
    intros. eapply store_reg_untouched. eassumption.
  - unfold op_FX65 in H. eapply for_loop_untouched; [|exact H].
    intros. eapply load_reg_untouched. eassumption.
Qed.

(** X1: no cycle stops the machine or logs anything, whatever the opcode,
    and none writes the key matrices: a cycle that returns leaves
    [running], [log], [key], [prevKeys] and [rand_out] as they were. *)
Theorem executeCycle_reports_nothing s s' :
  executeCycle s = Ret s' ->
  running s' = running s /\ log s' = log s /\
  key s' = key s /\ prevKeys s' = prevKeys s.
Proof.
  unfold executeCycle. intros H. apply bind_inv in H as (op & _ & H).
  apply execute_untouched in H. destruct H as (? & ? & ? & ? & ?).
  repeat split; assumption.
Qed.

(** ** The well-formed states are closed under the cycle *)

Lemma land_1_is_u8 x : is_u8 (Z.land x 1).
Proof.
  unfold is_u8. change 1 with (Z.ones 1). rewrite Z.land_ones by lia.
  pose proof (Z.mod_pos_bound x (2 ^ 1) ltac:(lia)). lia.
Qed.

Lemma is_u8_land_255 x : is_u8 x <-> Z.land x 255 = x.
Proof.
  unfold is_u8. change 255 with (Z.ones 8). rewrite Z.land_ones by lia.
  change (2 ^ 8) with 256. split.
  - intros. apply Z.mod_small. assumption.
  - intros <-. apply Z.mod_pos_bound. lia.
Qed.

Lemma lor_is_u8 a b : is_u8 a -> is_u8 b -> is_u8 (Z.lor a b).
Proof.
  rewrite !is_u8_land_255. intros Ha Hb.
  rewrite Z.land_lor_distr_l, Ha, Hb. reflexivity.
Qed.

Lemma land_is_u8 a b : is_u8 a -> is_u8 b -> is_u8 (Z.land a b).
Proof.
  rewrite !is_u8_land_255. intros Ha Hb.
  rewrite <- Z.land_assoc, Hb. reflexivity.
Qed.

Lemma lxor_is_u8 a b : is_u8 a -> is_u8 b -> is_u8 (Z.lxor a b).
Proof.
  rewrite !is_u8_land_255. intros Ha Hb.
  rewrite <- Ha, <- Hb at 2. rewrite <- Ha at 2.
  apply Z.bits_inj'. intros n Hn.
  rewrite !Z.land_spec, !Z.lxor_spec, !Z.land_spec.
  destruct (Z.testbit a n), (Z.testbit b n), (Z.testbit 255 n); reflexivity.
Qed.

Lemma OP_NN_is_u8 op : is_u8 (OP_NN op).
Proof. apply OP_NN_range. Qed.

Lemma OP_NNN_is_u16 op : is_u16 (OP_NNN op).
Proof. pose proof (OP_NNN_range op). unfold is_u16. lia. Qed.

Lemma flag_is_u8 (P : Prop) `{Decision P} :
  is_u8 (if decide P then 1 else 0).
Proof. unfold is_u8. destruct (decide P); lia. Qed.

(** [solve_wf]: the state is a stack of field updates on a well-formed
    state, each with a value of its type. *)
Ltac solve_range :=
  first
    [ assumption
    | apply u8_is_u8 | apply u16_is_u16
    | apply OP_NN_is_u8 | apply OP_NNN_is_u16
    | apply flag_is_u8 | apply land_1_is_u8
    | apply lor_is_u8; solve_range
    | apply land_is_u8; solve_range
    | apply lxor_is_u8; solve_range
    | match goal with
      | Hv : ?l !! _ = Some ?v |- is_u8 ?v =>
          eapply (Forall_lookup_1 _ l); [|exact Hv]; solve_range
      | Hv : ?l !! _ = Some ?v |- is_u16 ?v =>
          eapply (Forall_lookup_1 _ l); [|exact Hv]; solve_range
      | Hwf : wf ?s |- Forall is_u8 (V ?s) => apply (wf_V s Hwf)
      | Hwf : wf ?s |- Forall is_u8 (memory ?s) => apply (wf_memory s Hwf)
      | Hwf : wf ?s |- Forall is_u16 (stack ?s) => apply (wf_stack s Hwf)
      | Hwf : wf ?s |- is_u8 (delay_timer ?s) => apply (wf_delay_timer s Hwf)
      | Hwf : wf ?s |- is_u16 (pc ?s) => apply (wf_pc s Hwf)
      | |- Forall _ (<[_ := _]> _) => apply Forall_insert; solve_range
      | |- Forall _ (_ (set_V _ _)) => simpl; solve_range
      | |- is_u8 _ => unfold is_u8; lia
      | |- is_u16 _ => unfold is_u16; lia
      end ].

Ltac solve_wf :=
  repeat first
    [ assumption
    | apply wf_set_pc; [solve_range|]
    | apply wf_set_I; [solve_range|]
    | apply wf_set_sp; [solve_range|]
    | match goal with
      | |- wf (set_V (<[?i := ?v]> _) ?s0) =>
          apply (wf_set_V i v s0); [solve_range|]
      | |- wf (set_memory (<[?i := ?v]> _) ?s0) =>
          apply (wf_set_memory i v s0); [solve_range|]
      | |- wf (set_stack (<[?i := ?v]> _) ?s0) =>
          apply (wf_set_stack i v s0); [solve_range|]
      end
    | apply wf_set_delay_timer; [solve_range|]
    | apply wf_set_sound_timer; [solve_range|]
    | apply wf_set_gfx; [rewrite ?length_insert, ?length_replicate; try reflexivity|]
    | apply wf_set_opcode | apply wf_set_breakIPF | apply wf_set_draw
    | apply wf_set_running | apply wf_set_log | apply wf_set_rand_calls ].

Lemma draw_bit_wf x y h pixel i s s' :
  wf s -> draw_bit x y h pixel i s = Ret s' -> wf s'.
Proof.
  intros Hwf H. unfold draw_bit in H. invert_run; simpl in *; solve_wf.
  all: rewrite ?length_insert; apply Hwf.
Qed.

Lemma draw_row_wf x y i s s' : wf s -> draw_row x y i s = Ret s' -> wf s'.
Proof.
  intros Hwf H. unfold draw_row in H. destruct (decide _); invert_run.
  - assumption.
  - apply (for_loop_inv wf (draw_bit x y i a)) in H; [assumption| |assumption].
    intros j s1 s2 Hs1. apply draw_bit_wf. assumption.
Qed.

Lemma store_reg_wf i s s' : wf s -> store_reg i s = Ret s' -> wf s'.
Proof. intros Hwf H. unfold store_reg in H. invert_run. simpl. solve_wf. Qed.

Lemma load_reg_wf i s s' : wf s -> load_reg i s = Ret s' -> wf s'.
Proof. intros Hwf H. unfold load_reg in H. invert_run. simpl. solve_wf. Qed.

Lemma key_scan_wf n : forall i s b s',
  wf s -> 0 <= i -> i + Z.of_nat n <= 256 ->
  key_scan n i s = Ret (b, s') -> wf s'.
Proof.
  induction n as [|n IH]; intros i s b s' Hwf Hi Hn H; simpl in H.
  - invert_run. assumption.
  - apply bind_inv in H as (p & _ & H).
    apply bind_inv in H as (hit & _ & H).
    destruct hit.
    + invert_run. solve_wf.
    + apply (IH (i + 1) s b s'); try assumption; lia.
Qed.

Lemma execute_wf s s' : wf s -> execute s = Ret s' -> wf s'.
Proof.
  intros Hwf. revert s'. apply execute_cases; intros s' H;
    try (unfold op_00E0, op_00EE, op_1NNN, op_2NNN, op_3XNN, op_4XNN,
           op_5XY0, op_6XNN, op_7XNN, op_8XY0, op_logic, op_8XY4, op_8XY5,
           op_8XY6, op_8XY7, op_8XYE, op_9XY0, op_ANNN, op_BNNN, op_CXNN,
           op_EX9E, op_EXA1, op_FX07, op_FX15, op_FX18, op_FX1E, op_FX29,
           op_FX33, skip_if in H;
         cbv zeta in H; invert_run; simpl in *; repeat case_match;
         solve_wf; fail).
  - (* DXYN *)
    unfold op_DXYN in H. invert_run.
    match goal with
    | Hl : for_loop _ _ _ _ = Ret _ |- _ =>
        apply (for_loop_inv wf) in Hl;
          [|intros j s1 s2 Hs1; apply draw_row_wf; assumption|solve_wf]
    end.
    solve_wf.
  - (* FX0A *)
    unfold op_FX0A in H. apply bind_inv in H as ([b s1] & Hscan & H).
    apply key_scan_wf in Hscan; [|assumption|lia|simpl; lia].
    destruct b; invert_run; solve_wf.
  - unfold op_FX55 in H. apply (for_loop_inv wf) in H; [assumption| |assumption].
    intros j s1 s2 Hs1. apply store_reg_wf. assumption.
  - unfold op_FX65 in H. apply (for_loop_inv wf) in H; [assumption| |assumption].
    intros j s1 s2 Hs1. apply load_reg_wf. assumption.
Qed.

(** One cycle that returns keeps the state well-formed. *)
Lemma executeCycle_wf s s' : wf s -> executeCycle s = Ret s' -> wf s'.
Proof.
  intros Hwf H. unfold executeCycle in H.
  apply bind_inv in H as (op & _ & H).
  apply (execute_wf (advance op s)); [apply wf_advance|]; assumption.
Qed.

(** X2: the cycles keep the state well-formed: after any number of cycles
    that return, every array still has its extent and every register,
    timer, address and byte still fits its type. *)
Theorem cycles_wf n : forall s s', wf s -> cycles n s = Ret s' -> wf s'.
Proof.
  induction n as [|n IH]; intros s s' Hwf H; simpl in H.
  - injection H as <-. assumption.
  - apply bind_inv in H as (s1 & H1 & H). apply (IH s1); [|assumption].
    apply (executeCycle_wf s); assumption.
Qed.

Lemma land_0xF00F a :
  Z.land a 0xF00F = Z.lor (Z.land a 0xF000) (Z.land a 0x000F).
Proof. rewrite <- Z.land_lor_distr_r. reflexivity. Qed.

Lemma land_0xF0FF a :
  Z.land a 0xF0FF = Z.lor (Z.land a 0xF000) (Z.land a 0x00FF).
Proof. rewrite <- Z.land_lor_distr_r. reflexivity. Qed.

(** The decoder, with the form of the opcode for each instruction it can
    reach; [Q (Ret s)] is for the forms without a case. *)
Lemma execute_forms (Q : outcome cpu -> Prop) s :
  let op := opcode s in
  Q (Ret s) ->
  (Z.land op 0xF00F = 0x0000 -> Q (op_00E0 s)) ->
  (Z.land op 0xF00F = 0x000E -> Q (op_00EE s)) ->
  (Z.land op 0xF000 = 0x1000 -> Q (op_1NNN s)) ->
  (Z.land op 0xF000 = 0x2000 -> Q (op_2NNN s)) ->
  (Z.land op 0xF000 = 0x3000 -> Q (op_3XNN s)) ->
  (Z.land op 0xF000 = 0x4000 -> Q (op_4XNN s)) ->
  (Z.land op 0xF000 = 0x5000 -> Q (op_5XY0 s)) ->
  (Z.land op 0xF000 = 0x6000 -> Q (op_6XNN s)) ->
  (Z.land op 0xF000 = 0x7000 -> Q (op_7XNN s)) ->
  (Z.land op 0xF00F = 0x8000 -> Q (op_8XY0 s)) ->
  (Z.land op 0xF00F = 0x8001 -> Q (op_logic Z.lor s)) ->
  (Z.land op 0xF00F = 0x8002 -> Q (op_logic Z.land s)) ->
  (Z.land op 0xF00F = 0x8003 -> Q (op_logic Z.lxor s)) ->
  (Z.land op 0xF00F = 0x8004 -> Q (op_8XY4 s)) ->
  (Z.land op 0xF00F = 0x8005 -> Q (op_8XY5 s)) ->
  (Z.land op 0xF00F = 0x8006 -> Q (op_8XY6 s)) ->
  (Z.land op 0xF00F = 0x8007 -> Q (op_8XY7 s)) ->
  (Z.land op 0xF00F = 0x800E -> Q (op_8XYE s)) ->
  (Z.land op 0xF000 = 0x9000 -> Q (op_9XY0 s)) ->
  (Z.land op 0xF000 = 0xA000 -> Q (op_ANNN s)) ->
  (Z.land op 0xF000 = 0xB000 -> Q (op_BNNN s)) ->
  (Z.land op 0xF000 = 0xC000 -> Q (op_CXNN s)) ->
  (Z.land op 0xF000 = 0xD000 -> Q (op_DXYN s)) ->
  (Z.land op 0xF0FF = 0xE09E -> Q (op_EX9E s)) ->
  (Z.land op 0xF0FF = 0xE0A1 -> Q (op_EXA1 s)) ->
  (Z.land op 0xF0FF = 0xF00A -> Q (op_FX0A s)) ->
  (Z.land op 0xF0FF = 0xF007 -> Q (op_FX07 s)) ->
  (Z.land op 0xF0FF = 0xF015 -> Q (op_FX15 s)) ->
  (Z.land op 0xF0FF = 0xF018 -> Q (op_FX18 s)) ->
  (Z.land op 0xF0FF = 0xF01E -> Q (op_FX1E s)) ->
  (Z.land op 0xF0FF = 0xF029 -> Q (op_FX29 s)) ->
  (Z.land op 0xF0FF = 0xF033 -> Q (op_FX33 s)) ->
  (Z.land op 0xF0FF = 0xF055 -> Q (op_FX55 s)) ->
  (Z.land op 0xF0FF = 0xF065 -> Q (op_FX65 s)) ->
  Q (execute s).
Proof.
  intros op. subst op. intros.
  pose proof (land_0xF00F (opcode s)) as Hlo.
  pose proof (land_0xF0FF (opcode s)) as Hlo2.
  unfold execute. rewrite land_0xF000 in *.
  pose proof (Z.mod_pos_bound (opcode s / 4096) 16 ltac:(lia)) as Hk.
  set (k := (opcode s / 4096) mod 16) in *.
  assert (Hc : k = 0 \/ k = 1 \/ k = 2 \/ k = 3 \/ k = 4 \/ k = 5 \/ k = 6 \/
               k = 7 \/ k = 8 \/ k = 9 \/ k = 10 \/ k = 11 \/ k = 12 \/
               k = 13 \/ k = 14 \/ k = 15) by lia.
  clearbody k.
  destruct Hc as [->|[->|[->|[->|[->|[->|[->|[->|[->|[->|[->|[->|[->|[->|[->| ->]]]]]]]]]]]]]]];
    match goal with
    | |- context [4096 * ?c] =>
        let v := eval vm_compute in (4096 * c) in
        change (4096 * c) with v in *
    end; cbv iota; try (auto; fail);
    repeat case_match; try assumption;
    match goal with
    | Hf : _ -> Q ?x |- Q ?x => apply Hf; first [exact Hlo | exact Hlo2]
    end.
Qed.

Ltac keeps_trans :=
  unfold draw_keeps, store_keeps, load_keeps, rest_kept;
  intros; repeat match goal with H : _ /\ _ |- _ => destruct H end;
  repeat split; congruence.

Lemma draw_keeps_trans s1 s2 s3 :
  draw_keeps s1 s2 -> draw_keeps s2 s3 -> draw_keeps s1 s3.
Proof. keeps_trans. Qed.

Lemma store_keeps_trans s1 s2 s3 :
  store_keeps s1 s2 -> store_keeps s2 s3 -> store_keeps s1 s3.
Proof. keeps_trans. Qed.

Lemma load_keeps_trans s1 s2 s3 :
  load_keeps s1 s2 -> load_keeps s2 s3 -> load_keeps s1 s3.
Proof. keeps_trans. Qed.

(** A relation between states that is reflexive, transitive and kept by
    the body is kept by the loop. *)
Lemma for_loop_rel (R : cpu -> cpu -> Prop) body :
  (forall s, R s s) ->
  (forall s1 s2 s3, R s1 s2 -> R s2 s3 -> R s1 s3) ->
  (forall i s s', body i s = Ret s' -> R s s') ->
  forall n i s s', for_loop n i body s = Ret s' -> R s s'.
Proof.
  intros Hrefl Htrans Hbody n i s s' H.
  apply (for_loop_inv (R s) body) with (n := n) (i := i) (s := s);
    [|apply Hrefl | exact H].
  intros j s1 s2 Hs1 Hb. eapply Htrans; [exact Hs1 | eauto].
Qed.

Lemma draw_bit_keeps x y h pixel i s s' :
  draw_bit x y h pixel i s = Ret s' -> draw_keeps s s'.
Proof. unfold draw_bit. intros H. invert_run; repeat split. Qed.

Lemma draw_row_keeps x y i s s' :
  draw_row x y i s = Ret s' -> draw_keeps s s'.
Proof.
  unfold draw_row. intros H. destruct (decide _); invert_run.
  - repeat split.
  - apply (for_loop_rel draw_keeps) in H; [assumption | | |].
    + repeat split.
    + apply draw_keeps_trans.
    + intros. eapply draw_bit_keeps. eassumption.
Qed.

Lemma draw_rows_keep x y n i s s' :
  for_loop n i (draw_row x y) s = Ret s' -> draw_keeps s s'.
Proof.
  apply (for_loop_rel draw_keeps).
  - repeat split.
  - apply draw_keeps_trans.
  - intros. eapply draw_row_keeps. eassumption.
Qed.

Lemma store_regs_keep n i s s' :
  for_loop n i store_reg s = Ret s' -> store_keeps s s'.
Proof.
  apply (for_loop_rel store_keeps).
  - repeat split.
  - apply store_keeps_trans.
  - intros j s1 s2 H. unfold store_reg in H. invert_run. repeat split.
Qed.

Lemma load_regs_keep n i s s' :
  for_loop n i load_reg s = Ret s' -> load_keeps s s'.
Proof.
  apply (for_loop_rel load_keeps).
  - repeat split.
  - apply load_keeps_trans.
  - intros j s1 s2 H. unfold load_reg in H. invert_run. repeat split.
Qed.

Lemma key_scan_keeps n : forall i s b s',
  key_scan n i s = Ret (b, s') -> load_keeps s s' /\ I s' = I s.
Proof.
  induction n as [|n IH]; intros i s b s' H; simpl in H.
  - invert_run. repeat split.
  - apply bind_inv in H as (p & _ & H).
    apply bind_inv in H as (hit & _ & H).
    destruct hit.
    + invert_run. repeat split.
    + eapply IH. exact H.
Qed.

Lemma execute_writes s s' :
  execute s = Ret s' ->
  let op := opcode s in
  (Z.land op 0xF0FF <> 0xF033 -> Z.land op 0xF0FF <> 0xF055 ->
   memory s' = memory s) /\
  (Z.land op 0xF000 <> 0xD000 -> Z.land op 0xF00F <> 0x0000 ->
   gfx s' = gfx s) /\
  (Z.land op 0xF000 <> 0x2000 -> stack s' = stack s) /\
  (Z.land op 0xF000 <> 0xA000 -> Z.land op 0xF0FF <> 0xF01E ->
   Z.land op 0xF0FF <> 0xF029 -> Z.land op 0xF0FF <> 0xF055 ->
   Z.land op 0xF0FF <> 0xF065 -> I s' = I s) /\
  (Z.land op 0xF0FF <> 0xF015 -> delay_timer s' = delay_timer s) /\
  (Z.land op 0xF0FF <> 0xF018 -> sound_timer s' = sound_timer s).
Proof.
  intros He op. subst op. revert s' He.
  apply execute_forms; intros;
    match goal with Hrun : _ = Ret _ |- _ => rename Hrun into Hexec end;
    try (unfold op_00E0, op_00EE, op_1NNN, op_2NNN, op_3XNN, op_4XNN,
           op_5XY0, op_6XNN, op_7XNN, op_8XY0, op_logic, op_8XY4, op_8XY5,
           op_8XY6, op_8XY7, op_8XYE, op_9XY0, op_ANNN, op_BNNN, op_CXNN,
           op_EX9E, op_EXA1, op_FX07, op_FX15, op_FX18, op_FX1E, op_FX29,
           op_FX33, skip_if in Hexec;
         cbv zeta in Hexec; invert_run;
         repeat split; intros; simpl; repeat case_match;
         first [reflexivity | contradiction]).
  - (* DXYN *)
    unfold op_DXYN in Hexec. invert_run.
    match goal with
    | Hl : for_loop _ _ _ _ = Ret _ |- _ =>
        apply draw_rows_keep in Hl;
          destruct Hl as (? & ? & ? & ? & ? & ? & ? & ?)
    end.
    repeat split; intros; simpl; first [assumption | contradiction].
  - (* FX0A *)
    unfold op_FX0A in Hexec.
    apply bind_inv in Hexec as ([b s1] & Hscan & Hexec).
    apply key_scan_keeps in Hscan.
    destruct Hscan as ((? & ? & ? & ? & ? & ? & ? & ?) & ?).
    destruct b; invert_run; repeat split; intros; simpl; assumption.
  - unfold op_FX55 in Hexec. apply store_regs_keep in Hexec.
    destruct Hexec as (? & ? & ? & ? & ? & ? & ? & ?).
    repeat split; intros; first [assumption | contradiction].
  - unfold op_FX65 in Hexec. apply load_regs_keep in Hexec.
    destruct Hexec as (? & ? & ? & ? & ? & ? & ? & ?).
    repeat split; intros; first [assumption | contradiction].
Qed.

(** X3: which instruction can write which part of the machine.  A cycle
    that returns has changed the memory only if it ran FX33 or FX55, the
    frame buffer only if it ran DXYN or an opcode 0__0, the stack only if
    it ran 2NNN, [I] only if it ran ANNN, FX1E, FX29, FX55 or FX65, the
    delay timer only if it ran FX15 and the sound timer only if it ran
    FX18.  In particular no cycle counts a timer down. *)
Theorem executeCycle_writes s op s' :
  fetch s = Ret op -> executeCycle s = Ret s' ->
  (Z.land op 0xF0FF <> 0xF033 -> Z.land op 0xF0FF <> 0xF055 ->
   memory s' = memory s) /\
  (Z.land op 0xF000 <> 0xD000 -> Z.land op 0xF00F <> 0x0000 ->
   gfx s' = gfx s) /\
  (Z.land op 0xF000 <> 0x2000 -> stack s' = stack s) /\
  (Z.land op 0xF000 <> 0xA000 -> Z.land op 0xF0FF <> 0xF01E ->
   Z.land op 0xF0FF <> 0xF029 -> Z.land op 0xF0FF <> 0xF055 ->
   Z.land op 0xF0FF <> 0xF065 -> I s' = I s) /\
  (Z.land op 0xF0FF <> 0xF015 -> delay_timer s' = delay_timer s) /\
  (Z.land op 0xF0FF <> 0xF018 -> sound_timer s' = sound_timer s).
Proof.
  intros Hf He. rewrite (executeCycle_fetch _ _ Hf) in He.
  exact (execute_writes (advance op s) s' He).
Qed.

(** ** Fetch *)

Lemma big_endian_word hi lo :
  is_u8 hi -> is_u8 lo ->
  Z.lor (Z.shiftl hi 8) lo = 256 * hi + lo /\ 0 <= 256 * hi + lo <= 0xFFFF.
Proof.
  intros Hhi Hlo. split; [|unfold is_u8 in *; lia].
  rewrite Z.shiftl_mul_pow2 by lia. change (2 ^ 8) with 256.
  rewrite <- Z.add_nocarry_lor; [lia|].
  apply is_u8_land_255 in Hlo. rewrite <- Hlo.
  rewrite (Z.land_comm lo 255), Z.land_assoc. change 255 with (Z.ones 8).
  rewrite (Z.land_ones (hi * 256)) by lia. change (2 ^ 8) with 256.
  rewrite Z.mod_mul by lia. reflexivity.
Qed.

(** With [pc + 1] inside the memory the opcode is the big-endian word at
    [pc]. *)
Lemma fetch_inside s :
  wf s -> pc s + 1 <= 0xFFF ->
  fetch s = Ret (256 * byte_at s (pc s) + byte_at s (pc s + 1)) /\
  0 <= 256 * byte_at s (pc s) + byte_at s (pc s + 1) <= 0xFFFF.
Proof.
  intros Hwf Hpc. pose proof (wf_pc s Hwf) as [Hpc0 _].
  pose proof (wf_memory_len s Hwf) as Hlen. unfold MEMORY_SIZE in Hlen.
  destruct (big_endian_word (byte_at s (pc s)) (byte_at s (pc s + 1)))
    as [Hw Hr]; try (apply byte_at_is_u8; [assumption | lia]).
  split; [|exact Hr]. unfold fetch.
  rewrite !load_Ret by lia. rewrite !bind_Ret.
  unfold byte_at in Hw. rewrite Hw. reflexivity.
Qed.

(** With [pc + 1] beyond the memory the fetch reads outside it. *)
Lemma fetch_outside s :
  wf s -> 0xFFF < pc s + 1 ->
  exists a, 0xFFF < a /\ pc s <= a <= pc s + 1 /\
    executeCycle s = Unchecked ArrMemory a.
Proof.
  intros Hwf Hpc. pose proof (wf_pc s Hwf) as [Hpc0 _].
  pose proof (wf_memory_len s Hwf) as Hlen. unfold MEMORY_SIZE in Hlen.
  unfold executeCycle, fetch.
  destruct (decide (pc s < 4096)) as [Hin|Hout].
  - exists (pc s + 1). split; [lia|]. split; [lia|].
    rewrite (load_Ret ArrMemory (memory s) (pc s)) by lia.
    rewrite bind_Ret, load_Unchecked by lia. reflexivity.
  - exists (pc s). split; [lia|]. split; [lia|].
    rewrite (load_Unchecked ArrMemory (memory s) (pc s)) by lia.
    reflexivity.
Qed.

(** X4: the fetch.  With [pc + 1] inside the memory the opcode is the
    big-endian word at [pc], a 16-bit value; with [pc + 1] beyond 0xFFF
    the cycle reads the memory outside its 4096 bytes. *)
Theorem fetch_bounds s :
  wf s ->
  (pc s + 1 <= 0xFFF ->
   fetch s = Ret (256 * byte_at s (pc s) + byte_at s (pc s + 1)) /\
   0 <= 256 * byte_at s (pc s) + byte_at s (pc s + 1) <= 0xFFFF) /\
  (0xFFF < pc s + 1 ->
   exists a, 0xFFF < a /\ pc s <= a <= pc s + 1 /\
     executeCycle s = Unchecked ArrMemory a).
Proof.
  intros Hwf. split; intros Hpc.
  - apply fetch_inside; assumption.
  - apply fetch_outside; assumption.
Qed.

Lemma fetch_bounds_witness :
  wf boot /\ pc boot + 1 <= 0xFFF /\ fetch boot = Ret 0 /\
  wf (set_pc 0xFFF boot) /\
  exists a, 0xFFF < a /\ executeCycle (set_pc 0xFFF boot) = Unchecked ArrMemory a.
Proof.
  assert (Hwf : wf boot) by (apply wf_b_sound; vm_compute; reflexivity).
  assert (Hwf' : wf (set_pc 0xFFF boot))
    by (apply wf_b_sound; vm_compute; reflexivity).
  assert (Hpc : pc boot + 1 <= 0xFFF) by (vm_compute; discriminate).
  split; [exact Hwf|]. split; [exact Hpc|]. split; [|split; [exact Hwf'|]].
  - destruct (fetch_bounds boot Hwf) as [Hin _].
    destruct (Hin Hpc) as [Hf _]. rewrite Hf. vm_compute. reflexivity.
  - destruct (fetch_bounds (set_pc 0xFFF boot) Hwf') as [_ Hout].
    destruct Hout as (a & Ha & _ & He); [vm_compute; reflexivity|].
    exists a. split; assumption.
Defined.

(** ** Skips and jumps *)

Lemma exec_1NNN op s :
  Z.land op 0xF000 = 0x1000 -> exec_op op s = op_1NNN (advance op s).
Proof. intros H. decode H 0xF000 0x1000 0xF000 0x1000. reflexivity. Qed.

Lemma exec_3XNN op s :
  Z.land op 0xF000 = 0x3000 -> exec_op op s = op_3XNN (advance op s).
Proof. intros H. decode H 0xF000 0x3000 0xF000 0x3000. reflexivity. Qed.

Lemma exec_4XNN op s :
  Z.land op 0xF000 = 0x4000 -> exec_op op s = op_4XNN (advance op s).
Proof. intros H. decode H 0xF000 0x4000 0xF000 0x4000. reflexivity. Qed.

Lemma exec_5XY0 op s :
  Z.land op 0xF000 = 0x5000 -> exec_op op s = op_5XY0 (advance op s).
Proof. intros H. decode H 0xF000 0x5000 0xF000 0x5000. reflexivity. Qed.

Lemma exec_9XY0 op s :
  Z.land op 0xF000 = 0x9000 -> exec_op op s = op_9XY0 (advance op s).
Proof. intros H. decode H 0xF000 0x9000 0xF000 0x9000. reflexivity. Qed.

Lemma exec_BNNN op s :
  Z.land op 0xF000 = 0xB000 -> exec_op op s = op_BNNN (advance op s).
Proof. intros H. decode H 0xF000 0xB000 0xF000 0xB000. reflexivity. Qed.

Lemma skip_if_advance c op s :
  wf s -> fetch s = Ret op ->
  skip_if c (advance op s) = fetched op (pc s + (if c then 4 else 2)) s.
Proof.
  intros Hwf Hf. destruct (fetch_inv s op Hwf Hf) as (Hlo & Hhi & _).
  unfold skip_if, fetched. destruct c.
  - rewrite (pc_advance s op Hwf Hf).
    replace (u16 (pc s + 2 + 2)) with (pc s + 4)
      by (unfold u16; rewrite Z.mod_small; lia).
    reflexivity.
  - unfold advance. cbv zeta.
    replace (u16 (pc (set_opcode op (set_breakIPF false s)) + 2))
      with (pc s + 2) by (simpl; unfold u16; rewrite Z.mod_small; lia).
    reflexivity.
Qed.

(** X5: the four skip instructions.  3XNN skips when [V[X] = NN], 4XNN
    when [V[X] <> NN], 5XY_ when [V[X] = V[Y]] and 9XY_ when
    [V[X] <> V[Y]], the last two whatever the low nibble.  The cycle
    leaves [pc] 4 bytes on when it skips and 2 bytes on when it does not,
    and changes nothing else but [opcode] and [breakIPF]. *)
Theorem skip_instructions s op :
  wf s -> fetch s = Ret op ->
  let vx := reg s (OP_X op) in
  let vy := reg s (OP_Y op) in
  let result (c : bool) :=
    Ret (fetched op (pc s + (if c then 4 else 2)) s) in
  (Z.land op 0xF000 = 0x3000 ->
   executeCycle s = result (bool_decide (vx = OP_NN op))) /\
  (Z.land op 0xF000 = 0x4000 ->
   executeCycle s = result (bool_decide (vx <> OP_NN op))) /\
  (Z.land op 0xF000 = 0x5000 ->
   executeCycle s = result (bool_decide (vx = vy))) /\
  (Z.land op 0xF000 = 0x9000 ->
   executeCycle s = result (bool_decide (vx <> vy))).
Proof.
  intros Hwf Hf vx vy result. subst vx vy result.
  pose proof (wf_advance op s Hwf) as Hwfa.
  rewrite (executeCycle_fetch _ _ Hf).
  repeat split; intros H.
  - rewrite exec_3XNN by assumption. unfold op_3XNN.
    change (opcode (advance op s)) with op. regs_run Hwfa.
    change (mret ?x) with (Ret x). rewrite skip_if_advance by assumption.
    reflexivity.
  - rewrite exec_4XNN by assumption. unfold op_4XNN.
    change (opcode (advance op s)) with op. regs_run Hwfa.
    change (mret ?x) with (Ret x). rewrite skip_if_advance by assumption.
    reflexivity.
  - rewrite exec_5XY0 by assumption. unfold op_5XY0.
    change (opcode (advance op s)) with op. regs_run Hwfa.
    change (mret ?x) with (Ret x). rewrite skip_if_advance by assumption.
    reflexivity.
  - rewrite exec_9XY0 by assumption. unfold op_9XY0.
    change (opcode (advance op s)) with op. regs_run Hwfa.
    change (mret ?x) with (Ret x). rewrite skip_if_advance by assumption.
    reflexivity.
Qed.

(** X6: the two jumps.  1NNN leaves [pc = NNN]; BNNN leaves
    [pc = NNN + V[0]], which can lie beyond the memory: when
    [NNN + V[0]] is above 0xFFE the next cycle fetches outside the 4096
    bytes. *)
Theorem jump_instructions s op :
  wf s -> fetch s = Ret op ->
  (Z.land op 0xF000 = 0x1000 ->
   executeCycle s = Ret (fetched op (OP_NNN op) s)) /\
  (Z.land op 0xF000 = 0xB000 ->
   executeCycle s = Ret (fetched op (OP_NNN op + reg s 0) s) /\
   (0xFFE < OP_NNN op + reg s 0 ->
    exists a, 0xFFF < a /\ cycles 2 s = Unchecked ArrMemory a)).
Proof.
  intros Hwf Hf. pose proof (wf_advance op s Hwf) as Hwfa.
  pose proof (OP_NNN_range op) as HN.
  pose proof (reg_is_u8 s 0 Hwf ltac:(lia)) as HV0. unfold is_u8 in HV0.
  rewrite (executeCycle_fetch _ _ Hf). split; intros H.
  - rewrite exec_1NNN by assumption. reflexivity.
  - assert (He : exec_op op s = Ret (fetched op (OP_NNN op + reg s 0) s)).
    { rewrite exec_BNNN by assumption. unfold op_BNNN.
      change (opcode (advance op s)) with op. regs_run Hwfa.
      change (reg (advance op s) 0) with (reg s 0).
      unfold u16. rewrite Z.mod_small by lia. reflexivity. }
    split; [exact He|]. intros Hfar.
    assert (Hwf1 : wf (fetched op (OP_NNN op + reg s 0) s)).
    { unfold fetched. apply wf_set_pc; [unfold is_u16; lia|].
      apply wf_set_opcode, wf_set_breakIPF. assumption. }
    destruct (fetch_outside _ Hwf1) as (a & Ha & _ & Hun); [simpl; lia|].
    exists a. split; [exact Ha|].
    change (cycles 2 s) with (executeCycle s ≫= cycles 1).
    rewrite (executeCycle_fetch _ _ Hf), He, bind_Ret.
    change (cycles 1 ?x) with (executeCycle x ≫= cycles 0).
    rewrite Hun. reflexivity.
Qed.

(** ** More register instructions *)

Lemma exec_8XY1 op s :
  Z.land op 0xF00F = 0x8001 -> exec_op op s = op_logic Z.lor (advance op s).
Proof. intros H. decode H 0xF000 0x8000 0x000F 0x1. reflexivity. Qed.

Lemma exec_8XY2 op s :
  Z.land op 0xF00F = 0x8002 -> exec_op op s = op_logic Z.land (advance op s).
Proof. intros H. decode H 0xF000 0x8000 0x000F 0x2. reflexivity. Qed.

Lemma exec_8XY3 op s :
  Z.land op 0xF00F = 0x8003 -> exec_op op s = op_logic Z.lxor (advance op s).
Proof. intros H. decode H 0xF000 0x8000 0x000F 0x3. reflexivity. Qed.

Lemma exec_8XYE op s :
  Z.land op 0xF00F = 0x800E -> exec_op op s = op_8XYE (advance op s).
Proof. intros H. decode H 0xF000 0x8000 0x000F 0xE. reflexivity. Qed.

Lemma exec_CXNN op s :
  Z.land op 0xF000 = 0xC000 -> exec_op op s = op_CXNN (advance op s).
Proof. intros H. decode H 0xF000 0xC000 0xF000 0xC000. reflexivity. Qed.

Lemma exec_FX07 op s :
  Z.land op 0xF0FF = 0xF007 -> exec_op op s = op_FX07 (advance op s).
Proof. intros H. decode H 0xF000 0xF000 0x00FF 0x07. reflexivity. Qed.

Lemma exec_FX15 op s :
  Z.land op 0xF0FF = 0xF015 -> exec_op op s = op_FX15 (advance op s).
Proof. intros H. decode H 0xF000 0xF000 0x00FF 0x15. reflexivity. Qed.

Lemma exec_FX18 op s :
  Z.land op 0xF0FF = 0xF018 -> exec_op op s = op_FX18 (advance op s).
Proof. intros H. decode H 0xF000 0xF000 0x00FF 0x18. reflexivity. Qed.

Lemma exec_FX1E op s :
  Z.land op 0xF0FF = 0xF01E -> exec_op op s = op_FX1E (advance op s).
Proof. intros H. decode H 0xF000 0xF000 0x00FF 0x1E. reflexivity. Qed.

Lemma exec_FX29 op s :
  Z.land op 0xF0FF = 0xF029 -> exec_op op s = op_FX29 (advance op s).
Proof. intros H. decode H 0xF000 0xF000 0x00FF 0x29. reflexivity. Qed.

Lemma exec_00E0 op s :
  Z.land op 0xF00F = 0x0000 -> exec_op op s = op_00E0 (advance op s).
Proof. intros H. decode H 0xF000 0x0000 0x000F 0x0. reflexivity. Qed.

Lemma exec_0__E op s :
  Z.land op 0xF00F = 0x000E -> exec_op op s = op_00EE (advance op s).
Proof. intros H. decode H 0xF000 0x0000 0x000F 0xE. reflexivity. Qed.

(** The high bit of a byte. *)
Lemma high_bit v :
  is_u8 v -> Z.land (Z.shiftr (Z.land v 0x80) 7) 1 = v / 128.
Proof.
  intros Hv. unfold is_u8 in Hv.
  assert (E : Z.land v 0x80 = 128 * ((v / 128) mod 2))
    by (apply (land_field v 7 1); lia).
  rewrite E, Z.shiftr_div_pow2 by lia. change (2 ^ 7) with 128.
  rewrite (Z.mul_comm 128), Z.div_mul by lia.
  rewrite (Z.land_ones _ 1) by lia. change (2 ^ 1) with 2.
  rewrite Z.mod_mod by lia. apply Z.mod_small.
  split; [apply Z.div_pos; lia | apply Z.div_lt_upper_bound; lia].
Qed.

(** X7: 8XYE shifts [V[Y]] left by one bit into [V[X]] and nothing is
    lost: VF receives bit 7 of [V[Y]], and for X other than 0xF
    [2 * V[Y] = 256 * VF + V[X]] afterwards.  The other registers are
    kept. *)
Theorem shift_left_8XYE s op :
  wf s -> fetch s = Ret op -> Z.land op 0xF00F = 0x800E ->
  let vy := reg s (OP_Y op) in
  exists s', executeCycle s = Ret s' /\
    reg s' 0xF = vy / 128 /\ 0 <= reg s' 0xF <= 1 /\
    (OP_X op <> 0xF ->
     reg s' (OP_X op) = (2 * vy) mod 256 /\
     2 * vy = 256 * reg s' 0xF + reg s' (OP_X op)) /\
    (forall r, 0 <= r < 16 -> r <> OP_X op -> r <> 0xF ->
       reg s' r = reg s r).
Proof.
  intros Hwf Hf H vy. subst vy.
  pose proof (OP_X_range op) as HX. pose proof (OP_Y_range op) as HY.
  pose proof (reg_is_u8 s (OP_Y op) Hwf HY) as Hvy.
  rewrite (executeCycle_fetch _ _ Hf), exec_8XYE by assumption.
  unfold op_8XYE. change (opcode (advance op s)) with op.
  regs_run Hwf. unfold reg. simpl.
  rewrite !(list_lookup_total_insert_eq (V s))
    by (rewrite (wf_V_len _ Hwf); unfold NUM_REGS; lia).
  rewrite (high_bit (V s !!! Z.to_nat (OP_Y op))) by exact Hvy.
  eexists. split; [reflexivity|].
  unfold is_u8 in Hvy.
  assert (Hq : 0 <= reg s (OP_Y op) / 128 <= 1).
  { split; [apply Z.div_pos; lia|].
    assert (reg s (OP_Y op) / 128 < 2)
      by (apply Z.div_lt_upper_bound; lia). lia. }
  split; [|split; [|split]].
  - regs_read Hwf.
  - regs_read Hwf.
  - intros HF. unfold u8. rewrite Z.shiftl_mul_pow2 by lia.
    change (2 ^ 1) with 2. split.
    + regs_read Hwf. f_equal. lia.
    + regs_read Hwf.
      pose proof (Z.div_mod (V s !!! Z.to_nat (OP_Y op) * 2) 256 ltac:(lia)).
      pose proof (Z.mod_pos_bound (V s !!! Z.to_nat (OP_Y op) * 2) 256
                    ltac:(lia)).
      pose proof (Z.div_mod (V s !!! Z.to_nat (OP_Y op)) 128 ltac:(lia)).
      pose proof (Z.mod_pos_bound (V s !!! Z.to_nat (OP_Y op)) 128
                    ltac:(lia)).
      lia.
  - intros r Hr Hne HF. regs_read Hwf.
Qed.

(** X8: 8XY1, 8XY2 and 8XY3 put the bitwise or, and, xor of [V[X]] and
    [V[Y]] in [V[X]] and then force VF to 0, so with X = 0xF the result is
    lost; the other registers are kept. *)
Theorem logic_ops_clear_VF s op :
  wf s -> fetch s = Ret op ->
  let vx := reg s (OP_X op) in
  let vy := reg s (OP_Y op) in
  forall f : Z -> Z -> Z,
    (Z.land op 0xF00F = 0x8001 /\ f = Z.lor) \/
    (Z.land op 0xF00F = 0x8002 /\ f = Z.land) \/
    (Z.land op 0xF00F = 0x8003 /\ f = Z.lxor) ->
    exists s', executeCycle s = Ret s' /\
      reg s' 0xF = 0 /\
      (OP_X op <> 0xF -> reg s' (OP_X op) = f vx vy) /\
      (forall r, 0 <= r < 16 -> r <> OP_X op -> r <> 0xF ->
         reg s' r = reg s r).
Proof.
  intros Hwf Hf vx vy f Hform. subst vx vy.
  pose proof (OP_X_range op) as HX. pose proof (OP_Y_range op) as HY.
  rewrite (executeCycle_fetch _ _ Hf).
  assert (He : exec_op op s = op_logic f (advance op s)).
  { destruct Hform as [[H ->]|[[H ->]|[H ->]]].
    - apply exec_8XY1. assumption.
    - apply exec_8XY2. assumption.
    - apply exec_8XY3. assumption. }
  rewrite He. unfold op_logic. change (opcode (advance op s)) with op.
  regs_run Hwf. eexists. split; [reflexivity|]. split; [|split].
  - regs_read Hwf.
  - intros HF. regs_read Hwf.
  - intros r Hr Hne HF. regs_read Hwf.
Qed.

(** X9: CXNN takes one number from [rand()], and [V[X]] receives its low
    byte masked by NN: a byte all of whose bits are bits of NN.  The other
    registers are kept. *)
Theorem random_CXNN s op :
  wf s -> fetch s = Ret op -> Z.land op 0xF000 = 0xC000 ->
  exists s', executeCycle s = Ret s' /\
    rand_calls s' = S (rand_calls s) /\
    reg s' (OP_X op)
    = Z.land (rand_out s (rand_calls s) mod 256) (OP_NN op) /\
    Z.land (reg s' (OP_X op)) (OP_NN op) = reg s' (OP_X op) /\
    is_u8 (reg s' (OP_X op)) /\
    (forall r, 0 <= r < 16 -> r <> OP_X op -> reg s' r = reg s r).
Proof.
  intros Hwf Hf H.
  pose proof (OP_X_range op) as HX.
  rewrite (executeCycle_fetch _ _ Hf), exec_CXNN by assumption.
  unfold op_CXNN. cbv zeta.
  cbn [rand_out rand_calls opcode advance set_pc set_opcode set_breakIPF
       set_rand_calls].
  rewrite wrV_len by (try apply (wf_V_len s Hwf); assumption).
  cbn [V advance set_pc set_opcode set_breakIPF set_rand_calls].
  assert (Hb : is_u8 (Z.land (rand_out s (rand_calls s) mod 256) (OP_NN op))).
  { apply land_is_u8; [|apply OP_NN_is_u8].
    unfold is_u8. apply Z.mod_pos_bound. lia. }
  rewrite (u8_id _ Hb).
  eexists. split; [reflexivity|]. split; [reflexivity|].
  assert (Hx : reg (set_V (<[Z.to_nat (OP_X op) :=
                  Z.land (rand_out s (rand_calls s) mod 256) (OP_NN op)]>
                  (V s)) s) (OP_X op)
               = Z.land (rand_out s (rand_calls s) mod 256) (OP_NN op))
    by (regs_read Hwf).
  unfold reg in *. simpl in *. rewrite Hx.
  split; [reflexivity|]. split; [|split; [exact Hb|]].
  - rewrite <- Z.land_assoc, Z.land_diag. reflexivity.
  - intros r Hr Hne. regs_read Hwf.
Qed.

(** ** The index register *)

Lemma exec_ANNN op s :
  Z.land op 0xF000 = 0xA000 -> exec_op op s = op_ANNN (advance op s).
Proof. intros H. decode H 0xF000 0xA000 0xF000 0xA000. reflexivity. Qed.

(** X10: the instructions that set [I].  ANNN gives [I = NNN] and FX29
    [I = 5 * V[X]], both inside the memory; FX1E gives
    [I = (I + V[X]) mod 65536] with no flag, which can lie beyond 0xFFF.
    The registers are kept by all three. *)
Theorem index_instructions s op :
  wf s -> fetch s = Ret op ->
  let vx := reg s (OP_X op) in
  (Z.land op 0xF000 = 0xA000 ->
   exists s', executeCycle s = Ret s' /\ V s' = V s /\
     I s' = OP_NNN op /\ I s' <= 0xFFF) /\
  (Z.land op 0xF0FF = 0xF029 ->
   exists s', executeCycle s = Ret s' /\ V s' = V s /\
     I s' = 5 * vx /\ I s' + 4 <= 0xFFF) /\
  (Z.land op 0xF0FF = 0xF01E ->
   exists s', executeCycle s = Ret s' /\ V s' = V s /\
     I s' = (I s + vx) mod 65536).
Proof.
  intros Hwf Hf vx. subst vx.
  pose proof (OP_X_range op) as HX. pose proof (OP_NNN_range op) as HN.
  pose proof (reg_is_u8 s (OP_X op) Hwf HX) as Hvx. unfold is_u8 in Hvx.
  rewrite (executeCycle_fetch _ _ Hf). split; [|split]; intros H.
  - rewrite exec_ANNN by assumption. eexists. split; [reflexivity|].
    simpl. repeat split; lia.
  - rewrite exec_FX29 by assumption. unfold op_FX29.
    change (opcode (advance op s)) with op. regs_run Hwf.
    eexists. split; [reflexivity|]. simpl.
    change (reg (advance op s)) with (reg s).
    unfold u16. rewrite Z.mod_small by lia. repeat split; lia.
  - rewrite exec_FX1E by assumption. unfold op_FX1E.
    change (opcode (advance op s)) with op. regs_run Hwf.
    eexists. split; [reflexivity|]. simpl. repeat split.
Qed.

(** X11: FX29 finds the glyphs.  On a machine whose first 80 bytes are the
    font table, as [init] leaves them, FX29 with a digit [V[X] <= 15]
    leaves [I] at five bytes that are the rows of the glyph of that
    digit. *)
Theorem font_address_FX29 s op :
  wf s -> fetch s = Ret op -> Z.land op 0xF0FF = 0xF029 ->
  take 80 (memory s) = chip8_fontset -> reg s (OP_X op) <= 15 ->
  exists s', executeCycle s = Ret s' /\
    forall row, 0 <= row < 5 ->
      byte_at s' (I s' + row)
      = chip8_fontset !!! Z.to_nat (5 * reg s (OP_X op) + row).
Proof.
  intros Hwf Hf H Hfont Hd.
  pose proof (OP_X_range op) as HX.
  pose proof (reg_is_u8 s (OP_X op) Hwf HX) as Hvx. unfold is_u8 in Hvx.
  rewrite (executeCycle_fetch _ _ Hf), exec_FX29 by assumption.
  unfold op_FX29. change (opcode (advance op s)) with op. regs_run Hwf.
  eexists. split; [reflexivity|]. intros row Hrow.
  unfold byte_at. simpl. change (reg (advance op s)) with (reg s).
  unfold u16. rewrite Z.mod_small by lia.
  rewrite <- Hfont, lookup_total_take, decide_True by lia.
  f_equal. lia.
Qed.

(** ** FX33 *)

(** X12: FX33 with [I .. I + 2] inside the memory stores the three decimal
    digits of [V[X]], hundreds first: each is a digit, together they give
    [V[X]] back, and no other byte, no register and not [I] is
    changed. *)
Theorem bcd_FX33 s op :
  wf s -> fetch s = Ret op -> Z.land op 0xF0FF = 0xF033 ->
  I s + 2 <= 0xFFF ->
  exists s', executeCycle s = Ret s' /\
    let h := byte_at s' (I s) in
    let t := byte_at s' (I s + 1) in
    let o := byte_at s' (I s + 2) in
    100 * h + 10 * t + o = reg s (OP_X op) /\
    0 <= h <= 2 /\ 0 <= t <= 9 /\ 0 <= o <= 9 /\
    (forall a, 0 <= a -> ~ I s <= a <= I s + 2 ->
       byte_at s' a = byte_at s a) /\
    V s' = V s /\ I s' = I s.
Proof.
  intros Hwf Hf H HI.
  pose proof (wf_advance op s Hwf) as Hwfa.
  pose proof (OP_X_range op) as HX.
  pose proof (reg_is_u8 s (OP_X op) Hwf HX) as Hvx. unfold is_u8 in Hvx.
  pose proof (wf_I s Hwf) as [HI0 _].
  pose proof (wf_memory_len s Hwf) as Hlen. unfold MEMORY_SIZE in Hlen.
  rewrite (executeCycle_fetch _ _ Hf), exec_FX33 by assumption.
  rewrite op_FX33_Ret by (try assumption; simpl; lia).
  change (opcode (advance op s)) with op.
  change (reg (advance op s)) with (reg s).
  change (I (advance op s)) with (I s).
  change (memory (advance op s)) with (memory s).
  set (v := reg s (OP_X op)) in *.
  assert (Hh : u8 (v / 100) = v / 100).
  { apply u8_id. unfold is_u8.
    split; [apply Z.div_pos; lia | apply Z.div_lt_upper_bound; lia]. }
  assert (Ht : u8 (v / 10 mod 10) = v / 10 mod 10).
  { apply u8_id. unfold is_u8.
    pose proof (Z.mod_pos_bound (v / 10) 10 ltac:(lia)). lia. }
  assert (Ho : u8 (v mod 10) = v mod 10).
  { apply u8_id. unfold is_u8.
    pose proof (Z.mod_pos_bound v 10 ltac:(lia)). lia. }
  rewrite Hh, Ht, Ho.
  eexists. split; [reflexivity|]. unfold byte_at. simpl.
  rewrite !lookup_total_insert_Z by (rewrite ?length_insert; lia).
  repeat case_decide; try lia.
  split; [|split; [|split; [|split; [|split; [|split; reflexivity]]]]].
  - pose proof (Z.div_mod v 10 ltac:(lia)).
    pose proof (Z.div_mod (v / 10) 10 ltac:(lia)).
    assert (v / 10 / 10 = v / 100) by (rewrite Z.div_div by lia; reflexivity).
    lia.
  - split; [apply Z.div_pos; lia|].
    assert (v / 100 < 3) by (apply Z.div_lt_upper_bound; lia). lia.
  - pose proof (Z.mod_pos_bound (v / 10) 10 ltac:(lia)). lia.
  - pose proof (Z.mod_pos_bound v 10 ltac:(lia)). lia.
  - intros a Ha Hnot.
    rewrite !lookup_total_insert_Z by (rewrite ?length_insert; lia).
    rewrite !decide_False by lia. reflexivity.
Qed.

(** ** Family 0 *)

(** X13: the decoder of family 0 looks at the low nibble only.  Every
    opcode 0__0, 00E0 and the 0x0000 of empty memory alike, clears the
    screen: all 64 x 32 pixels are off afterwards, [breakIPF] is set, the
    [draw] flag is left as it was, and [pc] is 2 bytes on.  Every opcode
    0__E returns like 00EE: with [0 < sp <= 16] it pops [stack[sp - 1]]
    into [pc]. *)
Theorem family_0_low_nibble s op :
  wf s -> fetch s = Ret op ->
  (Z.land op 0xF00F = 0x0000 ->
   exists s', executeCycle s = Ret s' /\
     gfx s' = replicate 2048 false /\
     (forall cx cy, 0 <= cx < 64 -> 0 <= cy < 32 ->
        pixel_at s' cx cy = false) /\
     breakIPF s' = true /\ draw s' = draw s /\ pc s' = pc s + 2 /\
     V s' = V s /\ memory s' = memory s) /\
  (Z.land op 0xF00F = 0x000E -> 0 < sp s <= 16 ->
   exists s', executeCycle s = Ret s' /\
     pc s' = stack s !!! Z.to_nat (sp s - 1) /\ sp s' = sp s - 1 /\
     stack s' = stack s).
Proof.
  intros Hwf Hf. rewrite (executeCycle_fetch _ _ Hf). split; intros H.
  - rewrite exec_00E0 by assumption. unfold op_00E0.
    eexists. split; [reflexivity|]. split; [reflexivity|]. split.
    + intros cx cy Hcx Hcy. unfold pixel_at.
      cbn [gfx set_gfx set_breakIPF].
      apply list_lookup_total_correct, lookup_replicate_2. lia.
    + split; [reflexivity|]. split; [reflexivity|].
      split; [apply (pc_advance s op Hwf Hf)|]. split; reflexivity.
  - intros Hsp. rewrite exec_0__E by assumption.
    pose proof (wf_stack_len s Hwf) as Hlen. unfold STACK_SIZE in Hlen.
    assert (Hu : u16 (sp s - 1) = sp s - 1)
      by (unfold u16; apply Z.mod_small; lia).
    unfold op_00EE. simpl. rewrite Hu.
    rewrite load_Ret by lia. eexists. split; [reflexivity|].
    repeat split.
Qed.

(** ** cpu::timers *)

Lemma timers_step s :
  wf s ->
  let s' := snd (timers s) in
  wf s' /\
  delay_timer s' = Z.max 0 (delay_timer s - 1) /\
  sound_timer s' = Z.max 0 (sound_timer s - 1) /\
  fst (timers s) = bool_decide (1 < sound_timer s) /\
  memory s' = memory s /\ V s' = V s /\ pc s' = pc s /\ I s' = I s /\
  gfx s' = gfx s /\ key s' = key s.
Proof.
  intros Hwf.
  pose proof (wf_delay_timer s Hwf) as Hd. pose proof (wf_sound_timer s Hwf) as Hs.
  unfold is_u8 in Hd, Hs. unfold timers.
  destruct (decide (sound_timer s > 0)) as [Hs0|Hs0];
    destruct (decide (delay_timer _ > 0)) as [Hd0|Hd0]; simpl in *.
  all: repeat match goal with
         | |- context [u8 (?x - 1)] =>
             replace (u8 (x - 1)) with (x - 1)
               by (unfold u8; rewrite Z.mod_small; lia)
         end.
  all: split; [solve_wf; unfold is_u8; lia|].
  all: repeat split; try lia.
  all: apply bool_decide_ext; lia.
Qed.

(** X14: [timers] counts both timers down to 0 and never below.  After [n]
    calls the delay timer is [max 0 (delay_timer - n)] and the sound
    timer [max 0 (sound_timer - n)]; a call answers whether the sound
    timer is still above 0 after it, which is whether it was above 1
    before.  Memory, registers, [pc], [I], screen and keys are not
    touched, and the state stays well-formed. *)
Theorem timers_count_down s (n : nat) :
  wf s ->
  let s' := ticks n s in
  wf s' /\
  delay_timer s' = Z.max 0 (delay_timer s - Z.of_nat n) /\
  sound_timer s' = Z.max 0 (sound_timer s - Z.of_nat n) /\
  fst (timers s') = bool_decide (Z.of_nat n + 1 < sound_timer s) /\
  memory s' = memory s /\ V s' = V s /\ pc s' = pc s /\ I s' = I s /\
  gfx s' = gfx s /\ key s' = key s.
Proof.
  revert s. induction n as [|n IH]; intros s Hwf; cbv zeta.
  - destruct (timers_step s Hwf) as (_ & _ & _ & Hflag & _).
    pose proof (wf_delay_timer s Hwf) as Hd.
    pose proof (wf_sound_timer s Hwf) as Hs. unfold is_u8 in Hd, Hs.
    change (ticks 0 s) with s.
    split; [assumption|]. split; [lia|]. split; [lia|].
    split; [rewrite Hflag; apply bool_decide_ext; lia|]. repeat split.
  - destruct (timers_step s Hwf)
      as (Hwf1 & Hd1 & Hs1 & _ & Hm1 & HV1 & Hpc1 & HI1 & Hg1 & Hk1).
    destruct (IH (snd (timers s)) Hwf1)
      as (Hwf' & Hd' & Hs' & Hflag' & Hm' & HV' & Hpc' & HI' & Hg' & Hk').
    change (ticks (S n) s) with (ticks n (snd (timers s))).
    split; [assumption|].
    split; [rewrite Hd', Hd1; lia|]. split; [rewrite Hs', Hs1; lia|].
    split; [rewrite Hflag', Hs1; apply bool_decide_ext; lia|].
    repeat split; congruence.
Qed.

Lemma timers_count_down_witness :
  wf used /\
  delay_timer (ticks 45 used) = 15 /\ sound_timer (ticks 45 used) = 0 /\
  fst (timers (ticks 28 used)) = true /\
  fst (timers (ticks 29 used)) = false.
Proof.
  assert (Hwf : wf used) by (apply wf_b_sound; vm_compute; reflexivity).
  split; [exact Hwf|].
  destruct (timers_count_down used 45 Hwf) as (_ & Hd & Hs & _).
  destruct (timers_count_down used 28 Hwf) as (_ & _ & _ & H28 & _).
  destruct (timers_count_down used 29 Hwf) as (_ & _ & _ & H29 & _).
  split; [rewrite Hd; reflexivity|]. split; [rewrite Hs; reflexivity|].
  split; [rewrite H28; reflexivity | rewrite H29; reflexivity].
Defined.

(** The delay timer after [n] calls of [timers]. *)
Lemma ticks_delay (n : nat) : forall s,
  wf s ->
  wf (ticks n s) /\
  delay_timer (ticks n s) = Z.max 0 (delay_timer s - Z.of_nat n).
Proof.
  induction n as [|n IH]; intros s Hwf.
  - pose proof (wf_delay_timer s Hwf) as Hd. unfold is_u8 in Hd.
    change (ticks 0 s) with s. split; [assumption | lia].
  - destruct (timers_step s Hwf) as (Hwf1 & Hd1 & _).
    destruct (IH (snd (timers s)) Hwf1) as (Hwf' & Hd').
    change (ticks (S n) s) with (ticks n (snd (timers s))).
    split; [assumption|]. rewrite Hd', Hd1. lia.
Qed.

(** X15: the delay timer from a program's side.  FX15 puts [V[X]] in the
    delay timer; after [n] calls of [timers], FX07 reads
    [max 0 (V[X] - n)] into its register. *)
Theorem delay_timer_round_trip s op :
  wf s -> fetch s = Ret op -> Z.land op 0xF0FF = 0xF015 ->
  exists s1, executeCycle s = Ret s1 /\ delay_timer s1 = reg s (OP_X op) /\
    forall (n : nat) op2,
      fetch (ticks n s1) = Ret op2 -> Z.land op2 0xF0FF = 0xF007 ->
      exists s3, executeCycle (ticks n s1) = Ret s3 /\
        reg s3 (OP_X op2) = Z.max 0 (reg s (OP_X op) - Z.of_nat n).
Proof.
  intros Hwf Hf H. pose proof (OP_X_range op) as HX.
  pose proof (reg_is_u8 s (OP_X op) Hwf HX) as Hvx.
  rewrite (executeCycle_fetch _ _ Hf), exec_FX15 by assumption.
  unfold op_FX15. change (opcode (advance op s)) with op. regs_run Hwf.
  change (reg (advance op s)) with (reg s).
  eexists. split; [reflexivity|]. split; [reflexivity|].
  intros n op2 Hf2 H2.
  set (s1 := set_delay_timer (reg s (OP_X op)) (advance op s)) in *.
  assert (Hwf1 : wf s1)
    by (apply wf_set_delay_timer; [assumption | apply wf_advance; assumption]).
  destruct (ticks_delay n s1 Hwf1) as (Hwf2 & Hd2).
  pose proof (OP_X_range op2) as HX2.
  rewrite (executeCycle_fetch _ _ Hf2), exec_FX07 by assumption.
  unfold op_FX07. change (opcode (advance op2 _)) with op2.
  rewrite wrV_len by (try apply (wf_V_len _ Hwf2); assumption).
  eexists. split; [reflexivity|].
  unfold reg at 1. simpl.
  rewrite list_lookup_total_insert_eq
    by (rewrite (wf_V_len _ Hwf2); unfold NUM_REGS; lia).
  exact Hd2.
Qed.

(** ** cpu::loadRom *)

(** A file of 1 to 3584 bytes is accepted and lies at 0x200 onwards. *)
Lemma loadRom_accepts s (rom : list Z) :
  wf s -> Forall is_u8 rom ->
  let n := Z.of_nat (length rom) in
  1 <= n <= 3584 ->
  exists s', loadRom (Some rom) s = RomRet true s' /\ wf s' /\
    log s' = log s /\ V s' = V s /\ pc s' = pc s /\ gfx s' = gfx s /\
    (forall i, 0 <= i < n ->
       byte_at s' (0x200 + i) = rom !!! Z.to_nat i) /\
    (forall a, 0 <= a -> ~ 0x200 <= a < 0x200 + n ->
       byte_at s' a = byte_at s a).
Proof.
  intros Hwf Hrom n Hn.
  pose proof (wf_memory_len s Hwf) as Hlen. unfold MEMORY_SIZE in Hlen.
  unfold loadRom. rewrite Hlen. fold n.
  rewrite decide_False by lia. cbv zeta.
  rewrite !(decide_False (P := n = 0)) by lia.
  rewrite decide_False by lia.
  eexists. split; [reflexivity|].
  assert (Hl : length (take 512 (memory s) ++ rom
                       ++ drop (512 + length rom) (memory s)) = 4096%nat).
  { rewrite !length_app, length_take, length_drop. lia. }
  split; [|split; [reflexivity|split; [reflexivity|split;
           [reflexivity|split; [reflexivity|split]]]]].
  - destruct Hwf. unfold with_rom.
    constructor;
      cbn [memory V I pc stack sp gfx key prevKeys delay_timer
           sound_timer set_memory]; try assumption.
    apply Forall_app. split; [apply Forall_take; assumption|].
    apply Forall_app. split; [assumption|].
    apply Forall_drop. assumption.
  - intros i Hi. unfold byte_at, with_rom. cbn [memory set_memory].
    rewrite lookup_total_app_r by (rewrite length_take; lia).
    rewrite length_take.
    replace (Z.to_nat (512 + i) - 512 `min` length (memory s))%nat
      with (Z.to_nat i) by lia.
    apply lookup_total_app_l. lia.
  - intros a Ha Hnot. unfold byte_at, with_rom. cbn [memory set_memory].
    destruct (decide (a < 512)) as [Hlow|Hhigh].
    + rewrite lookup_total_app_l by (rewrite length_take; lia).
      rewrite lookup_total_take, decide_True by lia. reflexivity.
    + rewrite lookup_total_app_r by (rewrite length_take; lia).
      rewrite length_take.
      rewrite lookup_total_app_r by lia.
      rewrite lookup_total_drop. f_equal. lia.
Qed.

(** X16: [loadRom].  A file of 1 to 3584 bytes is accepted: its bytes lie
    at 0x200 onwards, the rest of the memory and of the machine is as
    before.  A longer file and an empty file are refused with the machine
    unchanged but for the log.  A path that cannot be opened ends in
    [fclose(NULL)]. *)
Theorem loadRom_cases s (rom : list Z) :
  wf s -> Forall is_u8 rom ->
  let n := Z.of_nat (length rom) in
  (1 <= n <= 3584 ->
   exists s', loadRom (Some rom) s = RomRet true s' /\ wf s' /\
     log s' = log s /\ V s' = V s /\ pc s' = pc s /\ gfx s' = gfx s /\
     (forall i, 0 <= i < n ->
        byte_at s' (0x200 + i) = rom !!! Z.to_nat i) /\
     (forall a, 0 <= a -> ~ 0x200 <= a < 0x200 + n ->
        byte_at s' a = byte_at s a)) /\
  (3584 < n ->
   loadRom (Some rom) s
   = RomRet false (SDL_Log "ERROR: Rom size is too big" s)) /\
  (n = 0 ->
   loadRom (Some rom) s
   = RomRet false (SDL_Log "ERROR: loading rom into memory" s)) /\
  loadRom None s = RomFcloseNull (SDL_Log "ERROR: incorrect file path" s).
Proof.
  intros Hwf Hrom n.
  split; [apply loadRom_accepts; assumption|].
  pose proof (wf_memory_len s Hwf) as Hlen. unfold MEMORY_SIZE in Hlen.
  unfold loadRom. rewrite Hlen. fold n.
  split; [|split].
  - intros Hn. rewrite decide_True by lia. reflexivity.
  - intros Hn. rewrite decide_False by lia. cbv zeta.
    rewrite !(decide_True (P := n = 0)) by lia.
    rewrite decide_True by lia. reflexivity.
  - reflexivity.
Qed.

(** ** Start-up *)

(** [init] on a well-formed machine gives a well-formed machine. *)
Lemma init_wf s : wf s -> exists s', init s = Ret s' /\ wf s'.
Proof.
  intros Hwf. destruct Hwf. destruct s. simpl in *. eexists. split.
  - vm_compute. reflexivity.
  - constructor; simpl; try assumption; try reflexivity;
      try (unfold is_u16; lia).
    + change (Forall is_u8 (chip8_fontset ++ replicate 4016 0)).
      apply Forall_app. split.
      * repeat constructor; unfold is_u8; lia.
      * apply Forall_replicate. unfold is_u8. lia.
    + change (Forall is_u16 (replicate 16 0)).
      apply Forall_replicate. unfold is_u16. lia.
Qed.

(** X17: [init] on any well-formed machine gives a well-formed machine, and
    doing it twice is doing it once. *)
Theorem init_wf_idempotent s :
  wf s ->
  exists s', init s = Ret s' /\ wf s' /\ init s' = Ret s'.
Proof.
  intros Hwf. destruct (init_wf s Hwf) as (s' & Hi & Hwf').
  exists s'. split; [exact Hi|]. split; [exact Hwf'|].
  destruct s. vm_compute in Hi. injection Hi as <-. vm_compute. reflexivity.
Qed.

(** X18: the start-up sequence.  [init] and then [loadRom] of a file of 2 to
    3584 bytes give a well-formed machine with the font table still in
    its first 80 bytes and [pc = 0x200]; its first fetch reads the first
    two bytes of the file as one big-endian opcode. *)
Theorem boot_sequence s (rom : list Z) :
  wf s -> Forall is_u8 rom -> 2 <= Z.of_nat (length rom) <= 3584 ->
  exists s1 s2,
    init s = Ret s1 /\ loadRom (Some rom) s1 = RomRet true s2 /\
    wf s2 /\ pc s2 = 0x200 /\ take 80 (memory s2) = chip8_fontset /\
    fetch s2 = Ret (256 * rom !!! 0%nat + rom !!! 1%nat).
Proof.
  intros Hwf Hrom Hn.
  destruct (init_wf s Hwf) as (s1 & Hi & Hwf1).
  destruct (init_spec s) as (s1' & Hi' & Hpc & _ & _ & _ & Hm & _).
  rewrite Hi in Hi'. injection Hi' as <-.
  destruct (loadRom_accepts s1 rom Hwf1 Hrom)
    as (s2 & Hl & Hwf2 & _ & _ & Hpc2 & _ & Hin & Hout); [lia|].
  exists s1, s2. split; [exact Hi|]. split; [exact Hl|].
  split; [exact Hwf2|]. split; [congruence|]. split.
  - apply list_eq_same_length with (n := 80%nat).
    + reflexivity.
    + rewrite length_take, (wf_memory_len s2 Hwf2). reflexivity.
    + intros i x y Hi80 Hx Hy.
      apply lookup_take_Some in Hx as [Hx _].
      assert (Hb : byte_at s2 (Z.of_nat i) = byte_at s1 (Z.of_nat i))
        by (apply Hout; lia).
      unfold byte_at in Hb. rewrite !Nat2Z.id in Hb.
      apply list_lookup_total_correct in Hx. rewrite Hx, Hm in Hb.
      rewrite lookup_total_app_l in Hb by (simpl; lia).
      apply list_lookup_total_correct in Hy. congruence.
  - destruct (fetch_inside s2 Hwf2) as [Hf _]; [lia|].
    rewrite Hf, Hpc2, Hpc.
    pose proof (Hin 0 ltac:(lia)) as H0. rewrite Z.add_0_r in H0.
    pose proof (Hin 1 ltac:(lia)) as H1.
    rewrite H0, H1. reflexivity.
Qed.

Lemma boot_sequence_witness :
  wf blank /\
  exists s1 s2,
    init blank = Ret s1 /\ loadRom (Some [0x12; 0x34; 0x56]) s1 = RomRet true s2 /\
    fetch s2 = Ret 0x1234.
Proof.
  assert (Hwf : wf blank) by (apply wf_b_sound; vm_compute; reflexivity).
  split; [exact Hwf|].
  destruct (boot_sequence blank [0x12; 0x34; 0x56] Hwf)
    as (s1 & s2 & Hi & Hl & _ & _ & _ & Hf).
  - repeat constructor; unfold is_u8; lia.
  - simpl. lia.
  - exists s1, s2. split; [exact Hi|]. split; [exact Hl|]. exact Hf.
Defined.

(** ** cpu::keyDown and cpu::keyUp *)

(** A key event with a key number 0 to 15. *)
Lemma key_event_inside s (k : Z) (pressed : bool) :
  wf s -> 0 <= k <= 15 ->
  exists s', (if pressed then keyDown k s else keyUp k s) = Ret s' /\ wf s' /\
    key s' !! Z.to_nat k = Some pressed /\
    (forall j, j <> Z.to_nat k -> key s' !! j = key s !! j) /\
    prevKeys s' = prevKeys s /\ memory s' = memory s /\ V s' = V s /\
    pc s' = pc s /\ gfx s' = gfx s.
Proof.
  intros Hwf Hk.
  pose proof (wf_key_len s Hwf) as Hlen. unfold NUM_KEYS in Hlen.
  assert (He : (if pressed then keyDown k s else keyUp k s)
               = (l ← store ArrKey (key s) k pressed; mret (set_key l s)))
    by (destruct pressed; reflexivity).
  rewrite He, store_Ret by lia. eexists. split; [reflexivity|].
  split; [apply wf_set_key;
          [rewrite length_insert; exact (wf_key_len s Hwf) | assumption]|].
  split; [apply list_lookup_insert_eq; lia|].
  split; [intros j Hj; apply list_lookup_insert_ne; congruence|].
  repeat split.
Qed.

(** X19: [keyDown] and [keyUp] with a key number 0 to 15 set and clear that
    key and no other, and leave the snapshot [prevKeys] and the rest of
    the machine alone; with any other number they write outside the key
    matrix. *)
Theorem key_events s (k : Z) (pressed : bool) :
  wf s ->
  let event := if pressed then keyDown k s else keyUp k s in
  (0 <= k <= 15 ->
   exists s', event = Ret s' /\ wf s' /\
     key s' !! Z.to_nat k = Some pressed /\
     (forall j, j <> Z.to_nat k -> key s' !! j = key s !! j) /\
     prevKeys s' = prevKeys s /\ memory s' = memory s /\ V s' = V s /\
     pc s' = pc s /\ gfx s' = gfx s) /\
  (~ 0 <= k <= 15 -> event = Unchecked ArrKey k).
Proof.
  intros Hwf event. split; intros Hk.
  - apply key_event_inside; assumption.
  - pose proof (wf_key_len s Hwf) as Hlen. unfold NUM_KEYS in Hlen.
    assert (He : event
                 = (l ← store ArrKey (key s) k pressed; mret (set_key l s)))
      by (subst event; destruct pressed; reflexivity).
    rewrite He, store_Unchecked by lia. reflexivity.
Qed.

Lemma key_events_witness :
  wf boot /\
  (exists s', keyDown 7 boot = Ret s' /\ key s' !! 7%nat = Some true) /\
  keyUp 16 boot = Unchecked ArrKey 16.
Proof.
  assert (Hwf : wf boot) by (apply wf_b_sound; vm_compute; reflexivity).
  split; [exact Hwf|]. split.
  - destruct (key_events boot 7 true Hwf) as [Hin _].
    destruct Hin as (s' & He & _ & Hk & _); [lia|].
    exists s'. split; [exact He | exact Hk].
  - destruct (key_events boot 16 false Hwf) as [_ Hout]. apply Hout. lia.
Defined.

(** X20: a key event and the key instructions.  After [keyDown k], EX9E
    with [V[X] = k] skips and EXA1 does not; after [keyUp k] it is the
    other way round. *)
Theorem key_event_then_skip s (k : Z) (pressed : bool) op :
  wf s -> 0 <= k <= 15 -> fetch s = Ret op -> reg s (OP_X op) = k ->
  exists s1, (if pressed then keyDown k s else keyUp k s) = Ret s1 /\
    (Z.land op 0xF0FF = 0xE09E ->
     exists s', executeCycle s1 = Ret s' /\
       pc s' = pc s + (if pressed then 4 else 2)) /\
    (Z.land op 0xF0FF = 0xE0A1 ->
     exists s', executeCycle s1 = Ret s' /\
       pc s' = pc s + (if pressed then 2 else 4)).
Proof.
  intros Hwf Hk Hf HVX.
  destruct (key_event_inside s k pressed Hwf Hk)
    as (s1 & He & Hwf1 & Hkey & _ & _ & Hm & HV & Hpc & _).
  exists s1. split; [exact He|].
  assert (Hf1 : fetch s1 = Ret op) by (unfold fetch; rewrite Hm, Hpc; exact Hf).
  pose proof (OP_X_range op) as HX.
  assert (Hreg : reg s1 (OP_X op) = k) by (unfold reg; rewrite HV; exact HVX).
  pose proof (wf_key_len s1 Hwf1) as Hlen. unfold NUM_KEYS in Hlen.
  destruct (fetch_inv s op Hwf Hf) as (Hlo & Hhi & _).
  rewrite (executeCycle_fetch _ _ Hf1).
  split; intros H.
  - rewrite exec_EX9E by assumption. unfold op_EX9E.
    change (opcode (advance op s1)) with op. regs_run Hwf1.
    change (reg (advance op s1)) with (reg s1). rewrite Hreg.
    change (key (advance op s1)) with (key s1).
    rewrite load_Ret by lia. rewrite bind_Ret.
    rewrite (list_lookup_total_correct _ _ _ Hkey).
    eexists. split; [reflexivity|].
    rewrite skip_if_advance by assumption. simpl. rewrite Hpc. reflexivity.
  - rewrite exec_EXA1 by assumption. unfold op_EXA1.
    change (opcode (advance op s1)) with op. regs_run Hwf1.
    change (reg (advance op s1)) with (reg s1). rewrite Hreg.
    change (key (advance op s1)) with (key s1).
    rewrite load_Ret by lia. rewrite bind_Ret.
    rewrite (list_lookup_total_correct _ _ _ Hkey).
    eexists. split; [reflexivity|].
    rewrite skip_if_advance by assumption. simpl. rewrite Hpc.
    destruct pressed; reflexivity.
Qed.

Lemma key_event_then_skip_witness :
  wf skip_E39E /\ fetch skip_E39E = Ret 0xE39E /\ reg skip_E39E 3 = 7 /\
  exists s1 s', keyUp 7 skip_E39E = Ret s1 /\
    executeCycle s1 = Ret s' /\ pc s' = 0x202.
Proof.
  assert (Hwf : wf skip_E39E) by (apply wf_b_sound; vm_compute; reflexivity).
  assert (Hf : fetch skip_E39E = Ret 0xE39E) by (vm_compute; reflexivity).
  assert (Hr : reg skip_E39E (OP_X 0xE39E) = 7) by (vm_compute; reflexivity).
  split; [exact Hwf|]. split; [exact Hf|]. split; [exact Hr|].
  destruct (key_event_then_skip skip_E39E 7 false 0xE39E Hwf ltac:(lia) Hf Hr)
    as (s1 & He & H9E & _).
  destruct (H9E eq_refl) as (s' & Hc & Hpc).
  exists s1, s'. split; [exact He|]. split; [exact Hc|]. exact Hpc.
Defined.

(** ** FX55 and FX65, the whole effect *)

(** X21: FX55 with [I + X] inside the memory stores [V[0] .. V[X]] at
    [I .. I + X], changes no other byte and no register, and leaves [I]
    behind the last byte written. *)
Theorem store_registers_FX55 s op :
  wf s -> fetch s = Ret op -> Z.land op 0xF0FF = 0xF055 ->
  I s + OP_X op <= 0xFFF ->
  exists s', executeCycle s = Ret s' /\
    (forall i, 0 <= i <= OP_X op -> byte_at s' (I s + i) = reg s i) /\
    (forall a, 0 <= a -> ~ I s <= a <= I s + OP_X op ->
       byte_at s' a = byte_at s a) /\
    V s' = V s /\ I s' = I s + OP_X op + 1.
Proof.
  intros Hwf Hf H HI. pose proof (OP_X_range op) as HX.
  rewrite (executeCycle_fetch _ _ Hf), exec_FX55 by assumption.
  unfold op_FX55. change (opcode (advance op s)) with op.
  destruct (store_loop (Z.to_nat (OP_X op + 1)) 0 (advance op s))
    as (s' & Hloop & _ & HI' & HV' & _ & _ & _ & Hin & Hout);
    [apply wf_advance; assumption | lia | lia | simpl; lia |].
  exists s'. split; [exact Hloop|]. split; [|split; [|split]].
  - intros i Hi. specialize (Hin i ltac:(lia)).
    rewrite Z.add_0_l in Hin. exact Hin.
  - intros a Ha Hnot. apply Hout; [assumption | simpl; lia].
  - exact HV'.
  - rewrite HI'. simpl. lia.
Qed.

(** X22: FX65 with [I + X] inside the memory loads [V[0] .. V[X]] from
    [I .. I + X], keeps the registers above [V[X]] and the whole memory,
    and leaves [I] behind the last byte read. *)
Theorem load_registers_FX65 s op :
  wf s -> fetch s = Ret op -> Z.land op 0xF0FF = 0xF065 ->
  I s + OP_X op <= 0xFFF ->
  exists s', executeCycle s = Ret s' /\
    (forall i, 0 <= i <= OP_X op -> reg s' i = byte_at s (I s + i)) /\
    (forall r, OP_X op < r -> reg s' r = reg s r) /\
    memory s' = memory s /\ I s' = I s + OP_X op + 1.
Proof.
  intros Hwf Hf H HI. pose proof (OP_X_range op) as HX.
  rewrite (executeCycle_fetch _ _ Hf), exec_FX65 by assumption.
  unfold op_FX65. change (opcode (advance op s)) with op.
  destruct (load_loop (Z.to_nat (OP_X op + 1)) 0 (advance op s))
    as (s' & Hloop & _ & HI' & Hm' & _ & _ & _ & Hin & Hout);
    [apply wf_advance; assumption | lia | lia | simpl; lia |].
  exists s'. split; [exact Hloop|]. split; [|split; [|split]].
  - intros i Hi. specialize (Hin i ltac:(lia)).
    rewrite Z.add_0_l in Hin. exact Hin.
  - intros r Hr. apply Hout; lia.
  - exact Hm'.
  - rewrite HI'. simpl. lia.
Qed.

(** ** DXYN: the collision flag *)

Lemma flagged_none s : flagged (fun _ => False) s s.
Proof. right. split; [reflexivity|]. intros (p & _ & [] & _). Qed.

Lemma collides_ext (T T' : nat -> Prop) s :
  (forall p, T p <-> T' p) -> collides T s <-> collides T' s.
Proof.
  intros Hext. split; intros (p & Hp & HT & Hlit); exists p;
    (split; [assumption|]); (split; [apply Hext; assumption | assumption]).
Qed.

Lemma flagged_ext (T T' : nat -> Prop) s s' :
  (forall p, T p <-> T' p) -> flagged T s s' -> flagged T' s s'.
Proof.
  intros Hext [[H1 [H2|H2]]|[H1 H2]].
  - left. split; [assumption|]. left. assumption.
  - left. split; [assumption|]. right. apply (collides_ext T T'); assumption.
  - right. split; [assumption|]. intros Hc. apply H2.
    apply (collides_ext T T'); assumption.
Qed.

(** Two rounds on disjoint sets of pixels. *)
Lemma flagged_trans (T1 T2 : nat -> Prop) s s1 s2 :
  (forall p, T1 p -> T2 p -> False) ->
  toggled T1 s s1 -> flagged T1 s s1 -> flagged T2 s1 s2 ->
  flagged (fun p => T1 p \/ T2 p) s s2.
Proof.
  intros Hdisj Ht H1 H2.
  assert (Hsame : collides T2 s1 <-> collides T2 s).
  { split; intros (p & Hp & HT & Hlit); exists p;
      (split; [assumption|]); (split; [assumption|]);
      destruct (Ht p Hp) as [_ Hout];
      [rewrite <- Hout | rewrite Hout]; eauto. }
  destruct H1 as [[H1 H1c]|[H1 H1c]], H2 as [[H2 H2c]|[H2 H2c]].
  - left. split; [assumption|].
    destruct H1c as [|(p & ? & ? & ?)]; [left; assumption|].
    right. exists p. auto.
  - left. split; [congruence|].
    destruct H1c as [|(p & ? & ? & ?)]; [left; assumption|].
    right. exists p. auto.
  - left. split; [assumption|].
    destruct H2c as [H2c|H2c]; [left; congruence|].
    apply Hsame in H2c. destruct H2c as (p & ? & ? & ?).
    right. exists p. auto.
  - right. split; [congruence|].
    intros (p & Hp & [HT|HT] & Hlit).
    + apply H1c. exists p. auto.
    + apply H2c, Hsame. exists p. auto.
Qed.

(** The loop lemma of the draw, with the flag. *)
Lemma for_loop_flagged (P : cpu -> Prop) (T : Z -> nat -> Prop)
    (body : Z -> cpu -> outcome cpu) (lo hi : Z) :
  (forall s, P s -> length (gfx s) = GFX_SIZE) ->
  (forall i s, lo <= i < hi -> P s ->
     exists s', body i s = Ret s' /\ P s' /\
       toggled (T i) s s' /\ flagged (T i) s s') ->
  (forall i j p, lo <= i < hi -> lo <= j < hi -> T i p -> T j p -> i = j) ->
  forall n i s, lo <= i -> i + Z.of_nat n <= hi -> P s ->
    exists s', for_loop n i body s = Ret s' /\ P s' /\
      toggled (fun p => exists j, i <= j < i + Z.of_nat n /\ T j p) s s' /\
      flagged (fun p => exists j, i <= j < i + Z.of_nat n /\ T j p) s s'.
Proof.
  intros Hlen Hbody Hdisj. induction n as [|n IH]; intros i s Hi Hn HP.
  - exists s. split; [reflexivity|]. split; [assumption|]. split.
    + apply (toggled_ext (fun _ => False)); [|apply toggled_none].
      intros p. split; [contradiction|]. intros (j & Hj & _). lia.
    + apply (flagged_ext (fun _ => False)); [|apply flagged_none].
      intros p. split; [contradiction|]. intros (j & Hj & _). lia.
  - destruct (Hbody i s) as (s1 & Hb & HP1 & Ht1 & Hf1); [lia | assumption |].
    destruct (IH (i + 1) s1) as (s' & Hloop & HP' & Ht' & Hf');
      [lia | lia | assumption |].
    exists s'. rewrite for_loop_S, Hb, bind_Ret.
    split; [exact Hloop|]. split; [exact HP'|].
    assert (Hext : forall p,
      T i p \/ (exists j, i + 1 <= j < i + 1 + Z.of_nat n /\ T j p) <->
      exists j, i <= j < i + Z.of_nat (S n) /\ T j p).
    { intros p. split.
      - intros [HT|(j & Hj & HT)]; [exists i | exists j]; split;
          try assumption; lia.
      - intros (j & Hj & HT). destruct (decide (j = i)) as [->|Hne].
        + left. assumption.
        + right. exists j. split; [lia | assumption]. }
    assert (Hd : forall p,
      T i p -> (exists j, i + 1 <= j < i + 1 + Z.of_nat n /\ T j p) -> False).
    { intros p HT (j & Hj & HTj).
      assert (i = j) by (apply (Hdisj i j p); try assumption; lia). lia. }
    split.
    + refine (toggled_ext _ _ _ _ Hext _).
      apply (toggled_trans _ _ s s1 s'); try assumption.
      apply Hlen. assumption.
    + refine (flagged_ext _ _ _ _ Hext _).
      apply (flagged_trans _ _ s s1 s'); assumption.
Qed.

(** One bit of a sprite row, with the flag. *)
Lemma draw_bit_flagged s0 x y height pixel bit s :
  0 <= x < 64 -> 0 <= bit -> draw_frame s0 s ->
  exists s', draw_bit x y height pixel bit s = Ret s' /\
    draw_frame s0 s' /\ toggled (bit_hits x y height pixel bit) s s' /\
    flagged (bit_hits x y height pixel bit) s s'.
Proof.
  intros Hx Hbit Hfr.
  destruct (draw_bit_spec s0 x y height pixel bit s Hx Hbit Hfr)
    as (s' & He & Hfr' & Ht).
  exists s'. split; [exact He|]. split; [exact Hfr'|]. split; [exact Ht|].
  destruct Hfr as (Hm & HI & Hg & Hv & Hr & Hl & Hpc).
  unfold GFX_SIZE in Hg. unfold NUM_REGS in Hv.
  unfold draw_bit in He.
  destruct (decide (x + bit > 64)) as [Hskip|Hcol].
  { injection He as <-. right. split; [reflexivity|].
    intros (p & _ & (Hc & _) & _). lia. }
  destruct (decide (Z.land pixel (Z.shiftr 128 bit) <> 0)) as [Hset|Hclear].
  2:{ injection He as <-. right. split; [reflexivity|].
      intros (p & _ & (_ & Hc & _) & _). contradiction. }
  pose proof (Z.mod_pos_bound (x + bit) 64 ltac:(lia)) as HdX.
  pose proof (Z.mod_pos_bound (y + height) 32 ltac:(lia)) as HdY.
  rewrite (u16_id ((x + bit) mod 64)), (u16_id ((y + height) mod 32)) in He
    by (unfold is_u16; lia).
  set (index := (x + bit) mod 64 + (y + height) mod 32 * 64) in *.
  assert (Hidx : 0 <= index < 2048) by (unfold index; lia).
  rewrite (u16_id index) in He by (unfold is_u16; lia).
  rewrite (load_Ret ArrGfx) in He by lia. rewrite bind_Ret in He.
  destruct (gfx s !!! Z.to_nat index) eqn:Hlit.
  - rewrite wrV_len in He by (try assumption; lia). rewrite bind_Ret in He.
    invert_run. left. split.
    + unfold reg. simpl. apply list_lookup_total_insert_eq. lia.
    + right. exists (Z.to_nat index). split; [unfold GFX_SIZE; lia|].
      split; [|exact Hlit]. repeat split; try assumption; try lia.
  - change (mret s ≫= ?f) with (f s) in He. cbv beta in He.
    invert_run. right. split; [reflexivity|].
    intros (p & Hp & (_ & _ & Hpi) & Hl'). fold index in Hpi.
    replace (Z.to_nat index) with p in Hlit by lia. congruence.
Qed.

(** One row of a sprite, with the flag. *)
Lemma draw_row_flagged s0 x y height s :
  wf s0 -> 0 <= x < 64 -> 0 <= height ->
  (y + height <= 32 -> I s0 + height < 4096) ->
  draw_frame s0 s ->
  exists s', draw_row x y height s = Ret s' /\
    draw_frame s0 s' /\ toggled (row_hits s0 x y height) s s' /\
    flagged (row_hits s0 x y height) s s'.
Proof.
  intros Hwf Hx Hh Hmem Hfr. unfold draw_row.
  destruct (decide (y + height > 32)) as [Hskip|Hin].
  { exists s. split; [reflexivity|]. split; [assumption|]. split.
    - apply (toggled_ext (fun _ => False)); [|apply toggled_none].
      intros p. split; [contradiction|]. intros (Hc & _). lia.
    - apply (flagged_ext (fun _ => False)); [|apply flagged_none].
      intros p. split; [contradiction|]. intros (Hc & _). lia. }
  pose proof (wf_I s0 Hwf) as [HI0 _].
  pose proof (wf_memory_len s0 Hwf) as Hlen. unfold MEMORY_SIZE in Hlen.
  destruct Hfr as (Hm & HI & Hrest). rewrite Hm, HI.
  rewrite load_Ret by lia. rewrite bind_Ret.
  destruct (for_loop_flagged (draw_frame s0)
              (bit_hits x y height (byte_at s0 (I s0 + height)))
              (draw_bit x y height (byte_at s0 (I s0 + height))) 0 8)
    with (n := 8%nat) (i := 0) (s := s) as (s' & Hloop & Hfr' & Ht & Hfl).
  - intros s1 Hs1. apply Hs1.
  - intros i s1 Hi Hs1. apply (draw_bit_flagged s0); try assumption; lia.
  - intros i j p Hi Hj. apply bit_hits_inj; assumption.
  - lia.
  - simpl. lia.
  - split; [assumption|]. split; assumption.
  - assert (Hext : forall p,
      (exists j, 0 <= j < 0 + Z.of_nat 8 /\
         bit_hits x y height (byte_at s0 (I s0 + height)) j p) <->
      row_hits s0 x y height p).
    { intros p. unfold row_hits. simpl. split.
      - intros (j & Hj & HT). split; [lia|]. exists j.
        split; [lia | assumption].
      - intros (_ & j & Hj & HT). exists j. split; [lia | assumption]. }
    exists s'. split; [exact Hloop|]. split; [exact Hfr'|]. split.
    + exact (toggled_ext _ _ _ _ Hext Ht).
    + exact (flagged_ext _ _ _ _ Hext Hfl).
Qed.

(** The whole draw, with the flag. *)
Lemma op_DXYN_flagged s :
  wf s ->
  let x := reg s (OP_X (opcode s)) mod 64 in
  let y := reg s (OP_Y (opcode s)) mod 32 in
  let n := OP_N (opcode s) in
  let T := fun p => exists h, 0 <= h < n /\ row_hits s x y h p in
  (forall h, 0 <= h < n -> y + h <= 32 -> I s + h < 4096) ->
  exists s', op_DXYN s = Ret s' /\ toggled T s s' /\
    ((reg s' 0xF = 1 /\ collides T s) \/
     (reg s' 0xF = 0 /\ ~ collides T s)).
Proof.
  intros Hwf x y n T Hmem. subst T.
  pose proof (OP_X_range (opcode s)) as HX.
  pose proof (OP_Y_range (opcode s)) as HY.
  pose proof (OP_N_range (opcode s)) as HN. fold n in HN.
  pose proof (Z.mod_pos_bound (reg s (OP_X (opcode s))) 64 ltac:(lia)) as Hx.
  pose proof (Z.mod_pos_bound (reg s (OP_Y (opcode s))) 32 ltac:(lia)) as Hy.
  fold x in Hx. fold y in Hy.
  unfold op_DXYN. regs_run Hwf. fold x y n.
  rewrite (u16_id x), (u16_id y), (u16_id n) by (unfold is_u16; lia).
  set (sa := set_V (<[Z.to_nat 15 := 0]> (V s)) s).
  assert (Hfr : draw_frame s sa).
  { repeat split; simpl; try apply Hwf.
    rewrite length_insert. apply Hwf. }
  assert (HF0 : reg sa 15 = 0).
  { unfold reg, sa. simpl. apply list_lookup_total_insert_eq.
    rewrite (wf_V_len s Hwf). unfold NUM_REGS. lia. }
  destruct (for_loop_flagged (draw_frame s) (row_hits s x y)
              (draw_row x y) 0 n)
    with (n := Z.to_nat n) (i := 0) (s := sa)
    as (s' & Hloop & Hfr' & Ht & Hfl).
  - intros s1 Hs1. apply Hs1.
  - intros i s1 Hi Hs1. apply draw_row_flagged; try assumption; try lia.
    intros Hrow. apply Hmem; assumption.
  - intros i j p Hi Hj. apply row_hits_inj; lia.
  - lia.
  - lia.
  - exact Hfr.
  - rewrite Hloop, bind_Ret. eexists. split; [reflexivity|].
    assert (Hext : forall p,
      (exists j, 0 <= j < 0 + Z.of_nat (Z.to_nat n) /\ row_hits s x y j p) <->
      exists h, 0 <= h < n /\ row_hits s x y h p).
    { intros p. split; intros (h & Hh & HT); exists h;
        (split; [lia | exact HT]). }
    apply (toggled_ext _ _ _ _ Hext) in Ht.
    apply (flagged_ext _ _ _ _ Hext) in Hfl.
    split; [exact Ht|].
    change (reg (set_draw true (set_breakIPF true s')) 15) with (reg s' 15).
    destruct Hfl as [[H1 [H0|Hc]]|[H1 Hc]].
    + rewrite HF0 in H0. discriminate H0.
    + left. split; [exact H1 | exact Hc].
    + right. split; [rewrite H1; exact HF0 | exact Hc].
Qed.

Lemma sprite_pixel_hits s op cx cy :
  0 <= cx < 64 -> 0 <= cy < 32 ->
  sprite_pixel s op cx cy <->
  exists h, 0 <= h < OP_N op /\
    row_hits s (reg s (OP_X op) mod 64) (reg s (OP_Y op) mod 32) h
             (Z.to_nat (cx + cy * 64)).
Proof.
  intros Hcx Hcy. unfold sprite_pixel, row_hits, bit_hits. cbv zeta. split.
  - intros (row & bit & Hr & Hb & Hy & Hx & Hset & -> & ->).
    exists row. split; [assumption|]. split; [assumption|].
    exists bit. repeat split; try assumption; lia.
  - intros (row & Hr & Hy & bit & Hb & Hx & Hset & Hp).
    exists row, bit.
    pose proof (Z.mod_pos_bound (reg s (OP_X op) mod 64 + bit) 64 ltac:(lia)).
    pose proof (Z.mod_pos_bound (reg s (OP_Y op) mod 32 + row) 32 ltac:(lia)).
    repeat split; try assumption; lia.
Qed.

Lemma hits_in_grid s x y h p :
  row_hits s x y h p ->
  exists cx cy, 0 <= cx < 64 /\ 0 <= cy < 32 /\ p = Z.to_nat (cx + cy * 64).
Proof.
  intros (_ & bit & _ & _ & _ & Hp).
  pose proof (Z.mod_pos_bound (x + bit) 64 ltac:(lia)).
  pose proof (Z.mod_pos_bound (y + h) 32 ltac:(lia)).
  exists ((x + bit) mod 64), ((y + h) mod 32). repeat split; lia.
Qed.

(** The draw of a fetched DXYN, in the words of the pixels. *)
Lemma draw_cycle s op :
  wf s -> fetch s = Ret op -> Z.land op 0xF000 = 0xD000 ->
  (forall row, 0 <= row < OP_N op ->
     reg s (OP_Y op) mod 32 + row <= 32 -> I s + row <= 0xFFF) ->
  exists s', executeCycle s = Ret s' /\ wf s' /\
    breakIPF s' = true /\ draw s' = true /\ pc s' = pc s + 2 /\
    (forall cx cy, 0 <= cx < 64 -> 0 <= cy < 32 ->
       (sprite_pixel s op cx cy ->
        pixel_at s' cx cy = negb (pixel_at s cx cy)) /\
       (~ sprite_pixel s op cx cy -> pixel_at s' cx cy = pixel_at s cx cy)) /\
    ((reg s' 0xF = 1 /\
      exists cx cy, 0 <= cx < 64 /\ 0 <= cy < 32 /\
        sprite_pixel s op cx cy /\ pixel_at s cx cy = true) \/
     (reg s' 0xF = 0 /\
      forall cx cy, 0 <= cx < 64 -> 0 <= cy < 32 ->
        sprite_pixel s op cx cy -> pixel_at s cx cy = false)).
Proof.
  intros Hwf Hf H Hmem.
  pose proof (wf_advance op s Hwf) as Hwfa.
  assert (Hmem' : forall h, 0 <= h < OP_N (opcode (advance op s)) ->
            reg (advance op s) (OP_Y (opcode (advance op s))) mod 32 + h <= 32 ->
            I (advance op s) + h < 4096).
  { intros h Hh Hrow. specialize (Hmem h Hh Hrow). simpl. lia. }
  destruct (op_DXYN_spec (advance op s) Hwfa Hmem')
    as (s' & He & _ & _ & Hpc & Hb & Hd & _).
  destruct (op_DXYN_flagged (advance op s) Hwfa Hmem')
    as (s'' & He' & Ht & Hfl).
  rewrite He in He'. injection He' as <-.
  assert (Hcyc : executeCycle s = Ret s')
    by (rewrite (executeCycle_fetch _ _ Hf), exec_DXYN by assumption;
        exact He).
  exists s'. split; [exact Hcyc|].
  split; [apply (executeCycle_wf s); assumption|].
  split; [exact Hb|]. split; [exact Hd|].
  split; [rewrite Hpc; apply (pc_advance s op Hwf Hf)|].
  change (opcode (advance op s)) with op in Ht, Hfl.
  change (reg (advance op s)) with (reg s) in Ht, Hfl.
  split.
  - intros cx cy Hcx Hcy.
    destruct (Ht (Z.to_nat (cx + cy * 64))) as [Hin Hout];
      [unfold GFX_SIZE; lia|].
    pose proof (sprite_pixel_hits s op cx cy Hcx Hcy) as Hiff.
    unfold pixel_at. change (gfx (advance op s)) with (gfx s) in Hin, Hout.
    split.
    + intros Hs. apply Hin, Hiff, Hs.
    + intros Hs. apply Hout. intros Hr. apply Hs, Hiff, Hr.
  - destruct Hfl as [[HF Hc]|[HF Hc]].
    + left. split; [exact HF|].
      destruct Hc as (p & Hp & (h & Hh & Hhit) & Hlit).
      destruct (hits_in_grid _ _ _ _ _ Hhit) as (cx & cy & Hcx & Hcy & ->).
      exists cx, cy. split; [exact Hcx|]. split; [exact Hcy|]. split.
      * apply sprite_pixel_hits; try assumption. exists h. split; assumption.
      * exact Hlit.
    + right. split; [exact HF|]. intros cx cy Hcx Hcy Hs.
      apply (sprite_pixel_hits s op cx cy Hcx Hcy) in Hs.
      destruct (pixel_at s cx cy) eqn:Hlit; [|reflexivity].
      exfalso. apply Hc. exists (Z.to_nat (cx + cy * 64)).
      split; [unfold GFX_SIZE; lia|]. split; [exact Hs | exact Hlit].
Qed.

(** X23: the collision flag of DXYN.  When the sprite rows that are read lie
    inside the memory, the draw ends with VF = 1 if one of the pixels it
    flips was lit before, and with VF = 0 if none was; [breakIPF] and
    [draw] are set and [pc] is 2 bytes on. *)
Theorem draw_collision_flag s op :
  wf s -> fetch s = Ret op -> Z.land op 0xF000 = 0xD000 ->
  (forall row, 0 <= row < OP_N op ->
     reg s (OP_Y op) mod 32 + row <= 32 -> I s + row <= 0xFFF) ->
  exists s', executeCycle s = Ret s' /\
    breakIPF s' = true /\ draw s' = true /\ pc s' = pc s + 2 /\
    ((reg s' 0xF = 1 /\
      exists cx cy, 0 <= cx < 64 /\ 0 <= cy < 32 /\
        sprite_pixel s op cx cy /\ pixel_at s cx cy = true) \/
     (reg s' 0xF = 0 /\
      forall cx cy, 0 <= cx < 64 -> 0 <= cy < 32 ->
        sprite_pixel s op cx cy -> pixel_at s cx cy = false)).
Proof.
  intros Hwf Hf H Hmem.
  destruct (draw_cycle s op Hwf Hf H Hmem)
    as (s' & He & _ & Hb & Hd & Hpc & _ & HF).
  exists s'. repeat (split; [assumption|]). exact HF.
Qed.

(** X24: drawing on a cleared screen.  When the sprite rows that are read
    lie inside the memory and every pixel is off, the draw returns, lights
    exactly the pixels of the sprite and ends with VF = 0. *)
Theorem draw_on_clear_screen s op :
  wf s -> fetch s = Ret op -> Z.land op 0xF000 = 0xD000 ->
  (forall row, 0 <= row < OP_N op ->
     reg s (OP_Y op) mod 32 + row <= 32 -> I s + row <= 0xFFF) ->
  gfx s = replicate 2048 false ->
  exists s', executeCycle s = Ret s' /\ reg s' 0xF = 0 /\
    forall cx cy, 0 <= cx < 64 -> 0 <= cy < 32 ->
      (sprite_pixel s op cx cy -> pixel_at s' cx cy = true) /\
      (~ sprite_pixel s op cx cy -> pixel_at s' cx cy = false).
Proof.
  intros Hwf Hf H Hmem Hclear.
  assert (Hoff : forall cx cy, 0 <= cx < 64 -> 0 <= cy < 32 ->
            pixel_at s cx cy = false).
  { intros cx cy Hcx Hcy. unfold pixel_at. rewrite Hclear.
    apply list_lookup_total_correct, lookup_replicate_2. lia. }
  destruct (draw_cycle s op Hwf Hf H Hmem)
    as (s' & He & _ & _ & _ & _ & Hpix & HF).
  exists s'. split; [exact He|]. split.
  - destruct HF as [[_ (cx & cy & Hcx & Hcy & _ & Hlit)]|[HF _]];
      [|exact HF].
    rewrite (Hoff cx cy Hcx Hcy) in Hlit. discriminate Hlit.
  - intros cx cy Hcx Hcy. destruct (Hpix cx cy Hcx Hcy) as [Hin Hout].
    rewrite (Hoff cx cy Hcx Hcy) in Hin, Hout. split; assumption.
Qed.

(** X25: drawing twice.  A second draw of the same sprite at the same place
    (same opcode, sprite data, [I] and coordinates, on the screen the
    first draw left) gives back the screen as it was before the first
    draw. *)
Theorem draw_twice_restores s op :
  wf s -> fetch s = Ret op -> Z.land op 0xF000 = 0xD000 ->
  (forall row, 0 <= row < OP_N op ->
     reg s (OP_Y op) mod 32 + row <= 32 -> I s + row <= 0xFFF) ->
  exists s1, executeCycle s = Ret s1 /\
    forall s2,
      wf s2 -> fetch s2 = Ret op -> gfx s2 = gfx s1 ->
      memory s2 = memory s -> I s2 = I s ->
      reg s2 (OP_X op) = reg s (OP_X op) ->
      reg s2 (OP_Y op) = reg s (OP_Y op) ->
      exists s3, executeCycle s2 = Ret s3 /\ gfx s3 = gfx s.
Proof.
  intros Hwf Hf H Hmem.
  destruct (draw_cycle s op Hwf Hf H Hmem)
    as (s1 & He & Hwf1 & _ & _ & _ & Hpix & _).
  exists s1. split; [exact He|].
  intros s2 Hwf2 Hf2 Hg2 Hm2 HI2 HX2 HY2.
  assert (Hmem2 : forall row, 0 <= row < OP_N op ->
            reg s2 (OP_Y op) mod 32 + row <= 32 -> I s2 + row <= 0xFFF).
  { intros row Hr Hy. rewrite HI2. apply Hmem; [assumption|].
    rewrite <- HY2. assumption. }
  destruct (draw_cycle s2 op Hwf2 Hf2 H Hmem2)
    as (s3 & He3 & Hwf3 & _ & _ & _ & Hpix3 & _).
  exists s3. split; [exact He3|].
  assert (Hsame : forall cx cy,
            sprite_pixel s2 op cx cy <-> sprite_pixel s op cx cy).
  { intros cx cy. unfold sprite_pixel, byte_at.
    rewrite HX2, HY2, HI2, Hm2. reflexivity. }
  apply list_eq_same_length with (n := 2048%nat);
    [apply (wf_gfx_len s Hwf) | apply (wf_gfx_len s3 Hwf3) |].
  intros p c a Hp Hc Ha.
  apply list_lookup_total_correct in Ha, Hc.
  set (cx := Z.of_nat p mod 64). set (cy := Z.of_nat p / 64).
  assert (Hcx : 0 <= cx < 64) by (apply Z.mod_pos_bound; lia).
  assert (Hcy : 0 <= cy < 32).
  { split; [apply Z.div_pos; lia | apply Z.div_lt_upper_bound; lia]. }
  assert (Hpq : Z.to_nat (cx + cy * 64) = p).
  { pose proof (Z.div_mod (Z.of_nat p) 64 ltac:(lia)). unfold cx, cy. lia. }
  destruct (Hpix cx cy Hcx Hcy) as [Hin Hout].
  destruct (Hpix3 cx cy Hcx Hcy) as [Hin3 Hout3].
  unfold pixel_at in Hin, Hout, Hin3, Hout3.
  rewrite Hpq in Hin, Hout, Hin3, Hout3.
  rewrite Hg2, Hc in Hin3, Hout3. rewrite Ha in Hin, Hout.
  destruct (decide (c = a)) as [|Hne]; [assumption|]. exfalso.
  assert (Hnot : ~ sprite_pixel s op cx cy).
  { intros Hs. apply Hne. rewrite (Hin3 (proj2 (Hsame cx cy) Hs)).
    rewrite (Hin Hs). apply negb_involutive. }
  apply Hne. rewrite (Hout3 (fun Hs => Hnot (proj1 (Hsame cx cy) Hs))).
  exact (Hout Hnot).
Qed.

(** ** FX0A and the snapshot *)

(** FX0A with a released key: the cycle ends with the first released key
    in [V[X]]. *)
Lemma FX0A_release_cycle s op k :
  wf s -> fetch s = Ret op -> Z.land op 0xF0FF = 0xF00A ->
  released s k -> (forall j, released s j -> k <= j) ->
  executeCycle s
  = Ret (set_breakIPF true
           (set_V (<[Z.to_nat (OP_X op) := k]> (V s)) (advance op s))).
Proof.
  intros Hwf Hf H Hrel Hleast.
  rewrite (executeCycle_fetch _ _ Hf), exec_FX0A by assumption.
  unfold op_FX0A.
  rewrite (key_scan_first 16 0 (advance op s) k).
  - reflexivity.
  - apply (wf_key_len s Hwf).
  - apply (wf_prevKeys_len s Hwf).
  - apply (wf_V_len s Hwf).
  - lia.
  - simpl. lia.
  - destruct Hrel as [? _]. simpl. lia.
  - exact Hrel.
  - intros j Hj Hrj. specialize (Hleast j Hrj). lia.
Qed.

(** X26: a key release ends the wait.  On a machine that waits in FX0A with
    key [k] pressed in the snapshot, [keyUp k] makes the next cycle
    complete: [V[X]] receives a released key with a number of at most
    [k], [breakIPF] is set and [pc] moves on. *)
Theorem key_release_wakes_FX0A s k op :
  wf s -> 0 <= k <= 15 -> prevKeys s !! Z.to_nat k = Some true ->
  fetch s = Ret op -> Z.land op 0xF0FF = 0xF00A ->
  exists s1 s', keyUp k s = Ret s1 /\ executeCycle s1 = Ret s' /\
    breakIPF s' = true /\ pc s' = pc s + 2 /\
    0 <= reg s' (OP_X op) <= k /\ released s1 (reg s' (OP_X op)).
Proof.
  intros Hwf Hk Hprev Hf H.
  destruct (key_event_inside s k false Hwf Hk)
    as (s1 & He & Hwf1 & Hkey & _ & Hpk & Hm & HV & Hpc & _).
  assert (Hf1 : fetch s1 = Ret op) by (unfold fetch; rewrite Hm, Hpc; exact Hf).
  assert (Hrel : released s1 k).
  { split; [lia|]. split; [rewrite Hpk; exact Hprev | exact Hkey]. }
  destruct (first_released s1 (ex_intro _ k Hrel)) as (k0 & Hrel0 & Hleast).
  pose proof (OP_X_range op) as HX.
  exists s1. eexists. split; [exact He|].
  split; [apply (FX0A_release_cycle s1 op k0); assumption|].
  split; [reflexivity|].
  split; [rewrite <- Hpc; apply (pc_advance s1 op Hwf1 Hf1)|].
  assert (Hreg : reg (set_breakIPF true
                   (set_V (<[Z.to_nat (OP_X op) := k0]> (V s1))
                      (advance op s1))) (OP_X op) = k0).
  { unfold reg. simpl. apply list_lookup_total_insert_eq.
    rewrite (wf_V_len s1 Hwf1). unfold NUM_REGS. lia. }
  rewrite Hreg. split; [|exact Hrel0].
  destruct Hrel0 as [? _]. specialize (Hleast k Hrel). lia.
Qed.

(** X27: FX0A does not use up the release it saw.  No instruction writes
    [prevKeys], so after FX0A has completed with a key, an FX0A fetched
    next completes at once with the same key, until the owner of the
    machine renews the snapshot. *)
Theorem FX0A_release_not_consumed s op :
  wf s -> fetch s = Ret op -> Z.land op 0xF0FF = 0xF00A ->
  (exists i, released s i) ->
  exists s', executeCycle s = Ret s' /\
    forall op2, fetch s' = Ret op2 -> Z.land op2 0xF0FF = 0xF00A ->
      exists s'', executeCycle s' = Ret s'' /\
        reg s'' (OP_X op2) = reg s' (OP_X op) /\ pc s'' = pc s' + 2.
Proof.
  intros Hwf Hf H Hex.
  destruct (first_released s Hex) as (k & Hrel & Hleast).
  pose proof (OP_X_range op) as HX.
  pose proof (FX0A_release_cycle s op k Hwf Hf H Hrel Hleast) as Hc.
  eexists. split; [exact Hc|]. intros op2 Hf2 H2.
  pose proof (OP_X_range op2) as HX2.
  set (s' := set_breakIPF true
               (set_V (<[Z.to_nat (OP_X op) := k]> (V s)) (advance op s))) in *.
  assert (Hwf' : wf s') by (apply (executeCycle_wf s); assumption).
  eexists. split.
  - apply (FX0A_release_cycle s' op2 k); assumption.
  - split.
    + unfold reg. simpl.
      rewrite !list_lookup_total_insert_eq
        by (rewrite ?length_insert, (wf_V_len s Hwf); unfold NUM_REGS; lia).
      reflexivity.
    + apply (pc_advance s' op2 Hwf' Hf2).
Qed.

Ltac by_eval := vm_compute; first [reflexivity | discriminate].

Ltac wf_eval := apply wf_b_sound; vm_compute; reflexivity.

Lemma executeCycle_reports_nothing_witness :
  exists s', executeCycle unknown_8008 = Ret s' /\
    running s' = running unknown_8008 /\ log s' = log unknown_8008.
Proof.
  assert (H : executeCycle unknown_8008
              = Ret (state_of (executeCycle unknown_8008))) by by_eval.
  eexists. split; [exact H|].
  destruct (executeCycle_reports_nothing _ _ H) as (Hr & Hl & _).
  split; assumption.
Defined.

Lemma cycles_wf_witness :
  wf save_F355 /\ exists s', cycles 2 save_F355 = Ret s' /\ wf s'.
Proof.
  assert (Hwf : wf save_F355) by wf_eval.
  assert (H : cycles 2 save_F355 = Ret (state_of (cycles 2 save_F355)))
    by by_eval.
  split; [exact Hwf|]. eexists. split; [exact H|].
  exact (cycles_wf 2 _ _ Hwf H).
Defined.

Lemma executeCycle_writes_witness :
  fetch add_8014 = Ret 0x8014 /\
  exists s', executeCycle add_8014 = Ret s' /\
    memory s' = memory add_8014 /\ gfx s' = gfx add_8014 /\
    stack s' = stack add_8014 /\ I s' = I add_8014 /\
    delay_timer s' = delay_timer add_8014 /\
    sound_timer s' = sound_timer add_8014.
Proof.
  assert (Hf : fetch add_8014 = Ret 0x8014) by by_eval.
  assert (H : executeCycle add_8014 = Ret (state_of (executeCycle add_8014)))
    by by_eval.
  split; [exact Hf|]. eexists. split; [exact H|].
  destruct (executeCycle_writes _ _ _ Hf H) as (Hm & Hg & Hs & HI & Hd & Hsn).
  split; [apply Hm; by_eval|]. split; [apply Hg; by_eval|].
  split; [apply Hs; by_eval|]. split; [apply HI; by_eval|].
  split; [apply Hd; by_eval | apply Hsn; by_eval].
Defined.

Lemma skip_instructions_witness :
  wf skip_3000 /\ fetch skip_3000 = Ret 0x3000 /\
  executeCycle skip_3000 = Ret (fetched 0x3000 0x204 skip_3000).
Proof.
  assert (Hwf : wf skip_3000) by wf_eval.
  assert (Hf : fetch skip_3000 = Ret 0x3000) by by_eval.
  split; [exact Hwf|]. split; [exact Hf|].
  pose proof (skip_instructions skip_3000 0x3000 Hwf Hf) as H.
  cbv zeta in H. destruct H as (H3 & _).
  rewrite H3 by by_eval. by_eval.
Defined.

Lemma jump_instructions_witness :
  wf jump_BFFF /\ fetch jump_BFFF = Ret 0xBFFF /\
  exists a, 0xFFF < a /\ cycles 2 jump_BFFF = Unchecked ArrMemory a.
Proof.
  assert (Hwf : wf jump_BFFF) by wf_eval.
  assert (Hf : fetch jump_BFFF = Ret 0xBFFF) by by_eval.
  split; [exact Hwf|]. split; [exact Hf|].
  destruct (jump_instructions jump_BFFF 0xBFFF Hwf Hf) as (_ & HB).
  destruct HB as (_ & Hfar); [by_eval|]. apply Hfar. by_eval.
Defined.

Lemma shift_left_8XYE_witness :
  wf shl_812E /\ fetch shl_812E = Ret 0x812E /\
  exists s', executeCycle shl_812E = Ret s' /\
    reg s' 0xF = 1 /\ reg s' 1 = 2.
Proof.
  assert (Hwf : wf shl_812E) by wf_eval.
  assert (Hf : fetch shl_812E = Ret 0x812E) by by_eval.
  split; [exact Hwf|]. split; [exact Hf|].
  pose proof (shift_left_8XYE shl_812E 0x812E Hwf Hf) as H.
  cbv zeta in H. destruct H as (s' & He & HF & _ & HX & _); [by_eval|].
  exists s'. split; [exact He|]. split; [rewrite HF; by_eval|].
  destruct HX as [HX _]; [by_eval|].
  change (OP_X 0x812E) with 1 in HX. rewrite HX. by_eval.
Defined.

Lemma logic_ops_clear_VF_witness :
  wf or_8121 /\ fetch or_8121 = Ret 0x8121 /\
  exists s', executeCycle or_8121 = Ret s' /\
    reg s' 0xF = 0 /\ reg s' 1 = 0xFF.
Proof.
  assert (Hwf : wf or_8121) by wf_eval.
  assert (Hf : fetch or_8121 = Ret 0x8121) by by_eval.
  split; [exact Hwf|]. split; [exact Hf|].
  pose proof (logic_ops_clear_VF or_8121 0x8121 Hwf Hf) as H.
  cbv zeta in H.
  destruct (H Z.lor) as (s' & He & HF & HX & _);
    [left; split; [by_eval | reflexivity]|].
  exists s'. split; [exact He|]. split; [exact HF|].
  change (OP_X 0x8121) with 1 in HX. rewrite HX by by_eval. by_eval.
Defined.

Lemma random_CXNN_witness :
  wf rnd_C30F /\ fetch rnd_C30F = Ret 0xC30F /\
  exists s', executeCycle rnd_C30F = Ret s' /\
    rand_calls s' = 1%nat /\ reg s' 3 = 4.
Proof.
  assert (Hwf : wf rnd_C30F) by wf_eval.
  assert (Hf : fetch rnd_C30F = Ret 0xC30F) by by_eval.
  split; [exact Hwf|]. split; [exact Hf|].
  destruct (random_CXNN rnd_C30F 0xC30F Hwf Hf)
    as (s' & He & Hc & Hr & _); [by_eval|].
  exists s'. split; [exact He|]. split; [rewrite Hc; by_eval|].
  change (OP_X 0xC30F) with 3 in Hr. rewrite Hr. by_eval.
Defined.

Lemma index_instructions_witness :
  wf index_A123 /\ fetch index_A123 = Ret 0xA123 /\
  exists s', executeCycle index_A123 = Ret s' /\ I s' = 0x123.
Proof.
  assert (Hwf : wf index_A123) by wf_eval.
  assert (Hf : fetch index_A123 = Ret 0xA123) by by_eval.
  split; [exact Hwf|]. split; [exact Hf|].
  pose proof (index_instructions index_A123 0xA123 Hwf Hf) as H.
  cbv zeta in H. destruct H as (HA & _).
  destruct HA as (s' & He & _ & HI & _); [by_eval|].
  exists s'. split; [exact He|]. rewrite HI. by_eval.
Defined.

Lemma font_address_FX29_witness :
  wf font_F029 /\ fetch font_F029 = Ret 0xF029 /\
  exists s', executeCycle font_F029 = Ret s' /\
    byte_at s' (I s' + 0) = 0xF0 /\ byte_at s' (I s' + 1) = 0x90.
Proof.
  assert (Hwf : wf font_F029) by wf_eval.
  assert (Hf : fetch font_F029 = Ret 0xF029) by by_eval.
  split; [exact Hwf|]. split; [exact Hf|].
  destruct (font_address_FX29 font_F029 0xF029 Hwf Hf)
    as (s' & He & Hrow); [by_eval | by_eval | by_eval |].
  exists s'. split; [exact He|].
  split; [rewrite (Hrow 0) by lia | rewrite (Hrow 1) by lia]; by_eval.
Defined.

Lemma bcd_FX33_witness :
  wf bcd_F033 /\ fetch bcd_F033 = Ret 0xF033 /\
  exists s', executeCycle bcd_F033 = Ret s' /\
    100 * byte_at s' 0x300 + 10 * byte_at s' 0x301 + byte_at s' 0x302 = 254.
Proof.
  assert (Hwf : wf bcd_F033) by wf_eval.
  assert (Hf : fetch bcd_F033 = Ret 0xF033) by by_eval.
  split; [exact Hwf|]. split; [exact Hf|].
  destruct (bcd_FX33 bcd_F033 0xF033 Hwf Hf)
    as (s' & He & Hsum & _); [by_eval | by_eval |].
  exists s'. split; [exact He|].
  change (I bcd_F033) with 0x300 in Hsum.
  change (0x300 + 1) with 0x301 in Hsum. change (0x300 + 2) with 0x302 in Hsum.
  rewrite Hsum. by_eval.
Defined.

Lemma family_0_low_nibble_witness :
  wf clear_0230 /\ fetch clear_0230 = Ret 0x0230 /\
  exists s', executeCycle clear_0230 = Ret s' /\
    gfx s' = replicate 2048 false /\ pc s' = 0x202.
Proof.
  assert (Hwf : wf clear_0230) by wf_eval.
  assert (Hf : fetch clear_0230 = Ret 0x0230) by by_eval.
  split; [exact Hwf|]. split; [exact Hf|].
  destruct (family_0_low_nibble clear_0230 0x0230 Hwf Hf) as (H0 & _).
  destruct H0 as (s' & He & Hg & _ & _ & _ & Hpc & _); [by_eval|].
  exists s'. split; [exact He|]. split; [exact Hg|]. rewrite Hpc. by_eval.
Defined.

Lemma delay_timer_round_trip_witness :
  wf delay_F115 /\ fetch delay_F115 = Ret 0xF115 /\
  exists s1 s3, executeCycle delay_F115 = Ret s1 /\
    executeCycle (ticks 3 s1) = Ret s3 /\ reg s3 2 = 7.
Proof.
  assert (Hwf : wf delay_F115) by wf_eval.
  assert (Hf : fetch delay_F115 = Ret 0xF115) by by_eval.
  split; [exact Hwf|]. split; [exact Hf|].
  destruct (delay_timer_round_trip delay_F115 0xF115 Hwf Hf)
    as (s1 & He & _ & Hall); [by_eval|].
  assert (Hs1 : s1 = state_of (executeCycle delay_F115))
    by (rewrite He; reflexivity).
  assert (Hf2 : fetch (ticks 3 s1) = Ret 0xF207) by (rewrite Hs1; by_eval).
  destruct (Hall 3%nat 0xF207 Hf2) as (s3 & He3 & Hr); [by_eval|].
  exists s1, s3. split; [exact He|]. split; [exact He3|].
  assert (HX : OP_X 0xF207 = 2) by by_eval. rewrite HX in Hr.
  rewrite Hr. by_eval.
Defined.

Lemma loadRom_cases_witness :
  wf boot /\
  (exists s', loadRom (Some [0x12; 0x34]) boot = RomRet true s' /\
     byte_at s' 0x200 = 0x12 /\ byte_at s' 0x201 = 0x34) /\
  loadRom (Some []) boot
  = RomRet false (SDL_Log "ERROR: loading rom into memory" boot).
Proof.
  assert (Hwf : wf boot) by wf_eval.
  assert (Hrom : Forall is_u8 [0x12; 0x34])
    by (repeat constructor; unfold is_u8; lia).
  split; [exact Hwf|]. split.
  - pose proof (loadRom_cases boot [0x12; 0x34] Hwf Hrom) as H.
    cbv zeta in H. destruct H as (Hok & _).
    destruct Hok as (s' & Hl & _ & _ & _ & _ & _ & Hin & _); [simpl; lia|].
    exists s'. split; [exact Hl|].
    split; [exact (Hin 0 ltac:(simpl; lia)) | exact (Hin 1 ltac:(simpl; lia))].
  - pose proof (loadRom_cases boot [] Hwf (Forall_nil_2 _)) as H.
    cbv zeta in H. destruct H as (_ & _ & Hempty & _).
    apply Hempty. reflexivity.
Defined.

Lemma init_wf_idempotent_witness :
  wf used /\ exists s', init used = Ret s' /\ wf s' /\ init s' = Ret s'.
Proof.
  assert (Hwf : wf used) by wf_eval.
  split; [exact Hwf|]. exact (init_wf_idempotent used Hwf).
Defined.

Lemma store_registers_FX55_witness :
  wf save_F355 /\ fetch save_F355 = Ret 0xF355 /\
  exists s', executeCycle save_F355 = Ret s' /\
    byte_at s' 0x302 = 33 /\ I s' = 0x304.
Proof.
  assert (Hwf : wf save_F355) by wf_eval.
  assert (Hf : fetch save_F355 = Ret 0xF355) by by_eval.
  split; [exact Hwf|]. split; [exact Hf|].
  destruct (store_registers_FX55 save_F355 0xF355 Hwf Hf)
    as (s' & He & Hin & _ & _ & HI); [by_eval | by_eval |].
  exists s'. split; [exact He|]. split.
  - change 0x302 with (I save_F355 + 2). rewrite Hin by (vm_compute; split; discriminate).
    by_eval.
  - rewrite HI. by_eval.
Defined.

Lemma load_registers_FX65_witness :
  wf restore_F365 /\ fetch restore_F365 = Ret 0xF365 /\
  reg restore_F365 2 = 0 /\
  exists s', executeCycle restore_F365 = Ret s' /\
    reg s' 2 = 33 /\ I s' = 0x304.
Proof.
  assert (Hwf : wf restore_F365) by wf_eval.
  assert (Hf : fetch restore_F365 = Ret 0xF365) by by_eval.
  split; [exact Hwf|]. split; [exact Hf|]. split; [by_eval|].
  destruct (load_registers_FX65 restore_F365 0xF365 Hwf Hf)
    as (s' & He & Hin & _ & _ & HI); [by_eval | by_eval |].
  exists s'. split; [exact He|]. split.
  - rewrite Hin by (vm_compute; split; discriminate). by_eval.
  - rewrite HI. by_eval.
Defined.

Lemma draw_collision_flag_witness :
  wf draw_D012 /\ fetch draw_D012 = Ret 0xD012 /\
  exists s', executeCycle draw_D012 = Ret s' /\
    draw s' = true /\ pc s' = 0x202 /\ reg s' 0xF = 0.
Proof.
  assert (Hwf : wf draw_D012) by wf_eval.
  assert (Hf : fetch draw_D012 = Ret 0xD012) by by_eval.
  assert (HI : I draw_D012 = 0) by by_eval.
  assert (HN : OP_N 0xD012 = 2) by by_eval.
  assert (Hg : gfx draw_D012 = replicate 2048 false) by by_eval.
  split; [exact Hwf|]. split; [exact Hf|].
  destruct (draw_collision_flag draw_D012 0xD012 Hwf Hf)
    as (s' & He & _ & Hd & Hpc & Hflag).
  - by_eval.
  - intros row Hrow _. rewrite HI. rewrite HN in Hrow. lia.
  - exists s'. split; [exact He|]. split; [exact Hd|].
    split; [rewrite Hpc; by_eval|].
    destruct Hflag as [(_ & cx & cy & Hcx & Hcy & _ & Hon) | (H0 & _)];
      [|exact H0].
    unfold pixel_at in Hon. rewrite Hg in Hon.
    rewrite lookup_total_replicate_2 in Hon by lia. discriminate.
Defined.

Lemma draw_on_clear_screen_witness :
  wf draw_D012 /\ fetch draw_D012 = Ret 0xD012 /\
  exists s', executeCycle draw_D012 = Ret s' /\
    pixel_at s' 61 31 = true /\ pixel_at s' 0 31 = true.
Proof.
  assert (Hwf : wf draw_D012) by wf_eval.
  assert (Hf : fetch draw_D012 = Ret 0xD012) by by_eval.
  assert (HI : I draw_D012 = 0) by by_eval.
  assert (HN : OP_N 0xD012 = 2) by by_eval.
  assert (HX : reg draw_D012 (OP_X 0xD012) mod 64 = 61) by by_eval.
  assert (HY : reg draw_D012 (OP_Y 0xD012) mod 32 = 31) by by_eval.
  assert (Hrow0 : byte_at draw_D012 (0 + 0) = 0xF0) by by_eval.
  split; [exact Hwf|]. split; [exact Hf|].
  destruct (draw_on_clear_screen draw_D012 0xD012 Hwf Hf)
    as (s' & He & _ & Hpix).
  - by_eval.
  - intros row Hrow _. rewrite HI. rewrite HN in Hrow. lia.
  - by_eval.
  - exists s'. split; [exact He|]. split.
    + apply (Hpix 61 31); [lia | lia |].
      unfold sprite_pixel. cbv zeta. rewrite HX, HY, HI, HN.
      exists 0, 0. rewrite Hrow0.
      split; [lia|]. split; [lia|]. split; [lia|]. split; [lia|].
      split; [by_eval|]. split; by_eval.
    + apply (Hpix 0 31); [lia | lia |].
      unfold sprite_pixel. cbv zeta. rewrite HX, HY, HI, HN.
      exists 0, 3. rewrite Hrow0.
      split; [lia|]. split; [lia|]. split; [lia|]. split; [lia|].
      split; [by_eval|]. split; by_eval.
Defined.

Lemma draw_twice_restores_witness :
  wf draw_D012 /\ fetch draw_D012 = Ret 0xD012 /\
  wf draw_again /\ fetch draw_again = Ret 0xD012 /\
  exists s1 s3, executeCycle draw_D012 = Ret s1 /\
    gfx draw_again = gfx s1 /\
    executeCycle draw_again = Ret s3 /\ gfx s3 = gfx draw_D012.
Proof.
  assert (Hwf : wf draw_D012) by wf_eval.
  assert (Hf : fetch draw_D012 = Ret 0xD012) by by_eval.
  assert (Hwf2 : wf draw_again) by wf_eval.
  assert (Hf2 : fetch draw_again = Ret 0xD012) by by_eval.
  assert (HI : I draw_D012 = 0) by by_eval.
  assert (HN : OP_N 0xD012 = 2) by by_eval.
  split; [exact Hwf|]. split; [exact Hf|].
  split; [exact Hwf2|]. split; [exact Hf2|].
  destruct (draw_twice_restores draw_D012 0xD012 Hwf Hf)
    as (s1 & He & Hall).
  - by_eval.
  - intros row Hrow _. rewrite HI. rewrite HN in Hrow. lia.
  - assert (Hs1 : s1 = state_of (executeCycle draw_D012))
      by (rewrite He; reflexivity).
    assert (Hg : gfx draw_again = gfx s1) by (rewrite Hs1; by_eval).
    destruct (Hall draw_again Hwf2 Hf2 Hg) as (s3 & He3 & Hback);
      [by_eval | by_eval | by_eval | by_eval |].
    exists s1, s3. split; [exact He|]. split; [exact Hg|].
    split; [exact He3 | exact Hback].
Defined.

Lemma key_release_wakes_FX0A_witness :
  wf wait_held /\ fetch wait_held = Ret 0xF50A /\
  prevKeys wait_held !! 12%nat = Some true /\
  key wait_held !! 12%nat = Some true /\
  exists s1 s', keyUp 12 wait_held = Ret s1 /\
    executeCycle s1 = Ret s' /\ breakIPF s' = true /\ pc s' = 0x202 /\
    0 <= reg s' 5 <= 12.
Proof.
  assert (Hwf : wf wait_held) by wf_eval.
  assert (Hf : fetch wait_held = Ret 0xF50A) by by_eval.
  assert (Hp : prevKeys wait_held !! Z.to_nat 12 = Some true) by by_eval.
  assert (HX : OP_X 0xF50A = 5) by by_eval.
  split; [exact Hwf|]. split; [exact Hf|]. split; [exact Hp|].
  split; [by_eval|].
  destruct (key_release_wakes_FX0A wait_held 12 0xF50A Hwf ltac:(lia) Hp Hf)
    as (s1 & s' & Hk & He & Hb & Hpc & Hr & _); [by_eval|].
  exists s1, s'. split; [exact Hk|]. split; [exact He|].
  split; [exact Hb|]. split; [rewrite Hpc; by_eval|].
  rewrite HX in Hr. exact Hr.
Defined.

Lemma FX0A_release_not_consumed_witness :
  wf wait_twice /\ fetch wait_twice = Ret 0xF50A /\ released wait_twice 9 /\
  exists s' s'', executeCycle wait_twice = Ret s' /\
    executeCycle s' = Ret s'' /\ reg s'' 6 = reg s' 5.
Proof.
  assert (Hwf : wf wait_twice) by wf_eval.
  assert (Hf : fetch wait_twice = Ret 0xF50A) by by_eval.
  assert (Hrel : released wait_twice 9).
  { split; [lia|]. split; by_eval. }
  assert (HX : OP_X 0xF50A = 5) by by_eval.
  assert (HX2 : OP_X 0xF60A = 6) by by_eval.
  split; [exact Hwf|]. split; [exact Hf|]. split; [exact Hrel|].
  destruct (FX0A_release_not_consumed wait_twice 0xF50A Hwf Hf)
    as (s' & He & Hall); [by_eval | exists 9; exact Hrel |].
  assert (Hs' : s' = state_of (executeCycle wait_twice))
    by (rewrite He; reflexivity).
  assert (Hf2 : fetch s' = Ret 0xF60A) by (rewrite Hs'; by_eval).
  destruct (Hall 0xF60A Hf2) as (s'' & He2 & Hr & _); [by_eval|].
  exists s', s''. split; [exact He|]. split; [exact He2|].
  rewrite HX, HX2 in Hr. exact Hr.
Defined.
